(** * Auth Agent: the OAuth 2.1 authorization server for agents

    A shallow embedding of the server's request handlers
    ([src/oauth/*.ts], [src/lib/crypto.ts], [src/lib/jwt.ts]) over its
    in-memory store ([src/db/store.ts]), and the properties of the
    authorization-request life cycle, the token endpoint, introspection and
    revocation that the specification states about them.

    Conventions of the embedding:
    - a JavaScript string is a [string] (its UTF-8 bytes); a field that may
      be [undefined] is an [option string];
    - [Date.now()] is an argument [now : Z] (milliseconds) of every handler:
      one handler invocation reads one instant;
    - a value produced by [crypto.randomBytes] is an argument of the handler
      that draws it;
    - the store's [Map]s are [gmap]s, except [tokens], whose insertion order
      decides the linear scan of [getTokenByAccessToken];
    - the handlers run in a state monad over the store;
    - a handler that reads the store, awaits bcrypt and then writes
      ([agentAuthenticateHandler], [createClientHandler]) is given in two
      parts, up to the suspension and from it on, so that statements can
      put other requests between the two; the handler's own name stands
      for a call with nothing in between. *)

From Stdlib Require Import ZArith List Bool Ascii String Lia DecimalString.
From stdpp Require Import base option gmap strings list fin_maps.

Local Open Scope string_scope.
Local Open Scope list_scope.
Local Open Scope Z_scope.

(** ** JavaScript truthiness and strict equality on the values used here *)

Module Js.

(** [!s] for a string: only the empty string is falsy. *)
Definition falsy_str (s : string) : bool := String.eqb s "".

(** [!x] for a value that is a string or [undefined]. *)
Definition falsy (x : option string) : bool :=
  match x with
  | None => true
  | Some s => falsy_str s
  end.

(** [x || d] for a string or [undefined] against a default. *)
Definition or_default (x : option string) (d : string) : string :=
  match x with
  | None => d
  | Some s => if falsy_str s then d else s
  end.

(** [x === s] where [x] may be [undefined] and [s] is a string. *)
Definition opt_eqb (x : option string) (s : string) : bool :=
  match x with
  | None => false
  | Some y => String.eqb y s
  end.

(** The string carried by a truthy value. *)
Definition truthy_val (x : option string) : option string :=
  match x with
  | None => None
  | Some s => if falsy_str s then None else Some s
  end.

End Js.

(** ** SHA-256 (FIPS 180-4) and base64url, as Node's [crypto] computes them *)

Module Sha256.

Definition mask32 : Z := 4294967295.
Definition w32 (x : Z) : Z := Z.land x mask32.
Definition add32 (x y : Z) : Z := w32 (x + y).
Definition rotr (n x : Z) : Z :=
  w32 (Z.lor (Z.shiftr x n) (Z.shiftl x (32 - n))).
Definition not32 (x : Z) : Z := Z.lxor x mask32.

Definition Ch (x y z : Z) : Z := Z.lxor (Z.land x y) (Z.land (not32 x) z).
Definition Maj (x y z : Z) : Z :=
  Z.lxor (Z.lxor (Z.land x y) (Z.land x z)) (Z.land y z).
Definition Sigma0 (x : Z) : Z := Z.lxor (Z.lxor (rotr 2 x) (rotr 13 x)) (rotr 22 x).
Definition Sigma1 (x : Z) : Z := Z.lxor (Z.lxor (rotr 6 x) (rotr 11 x)) (rotr 25 x).
Definition sigma0 (x : Z) : Z := Z.lxor (Z.lxor (rotr 7 x) (rotr 18 x)) (Z.shiftr x 3).
Definition sigma1 (x : Z) : Z := Z.lxor (Z.lxor (rotr 17 x) (rotr 19 x)) (Z.shiftr x 10).

(** The first [n] primes, by trial division. *)
Definition is_prime (p : Z) : bool :=
  List.forallb (fun d => negb (p mod Z.of_nat d =? 0))
               (List.seq 2 (Z.to_nat p - 2)).

Definition primes (n : nat) : list Z :=
  List.firstn n (List.filter is_prime (List.map Z.of_nat (List.seq 2 400))).

(** The integer cube root of a number below 2^120, bit by bit. *)
Definition icbrt (n : Z) : Z :=
  List.fold_left
    (fun r i => let c := r + 2 ^ Z.of_nat i in if c * c * c <=? n then c else r)
    (List.rev (List.seq 0 40)) 0.

(** The round constants: the first 32 bits of the fractional parts of the
    cube roots of the first 64 primes. *)
Definition K : list Z :=
  Eval vm_compute in List.map (fun p => w32 (icbrt (p * 2 ^ 96))) (primes 64).

(** The initial hash value: the first 32 bits of the fractional parts of
    the square roots of the first 8 primes. *)
Definition H0 : list Z :=
  Eval vm_compute in List.map (fun p => w32 (Z.sqrt (p * 2 ^ 64))) (primes 8).

Definition bytes_of_string (s : string) : list Z :=
  List.map (fun c => Z.of_N (N_of_ascii c)) (list_ascii_of_string s).

(** Big-endian bytes of [x], [n] of them. *)
Fixpoint be_bytes (n : nat) (x : Z) : list Z :=
  match n with
  | O => []
  | S k => Z.land (Z.shiftr x (8 * Z.of_nat k)) 255 :: be_bytes k x
  end.

(** The message followed by 0x80, zeros up to 56 mod 64, and its bit
    length on 64 bits. *)
Definition pad (msg : list Z) : list Z :=
  let l := Z.of_nat (List.length msg) in
  let zeros := Z.to_nat ((55 - l) mod 64) in
  msg ++ 128 :: List.repeat 0 zeros ++ be_bytes 8 (8 * l).

Fixpoint words_of_bytes (fuel : nat) (bs : list Z) : list Z :=
  match fuel, bs with
  | S k, b0 :: b1 :: b2 :: b3 :: rest =>
      (b0 * 16777216 + b1 * 65536 + b2 * 256 + b3) :: words_of_bytes k rest
  | _, _ => []
  end.

Fixpoint chunks16 (fuel : nat) (ws : list Z) : list (list Z) :=
  match fuel, ws with
  | S k, _ :: _ => List.firstn 16 ws :: chunks16 k (List.skipn 16 ws)
  | _, _ => []
  end.

(** The message schedule: the 16 words of the block extended to 64. *)
Definition schedule (block : list Z) : list Z :=
  List.fold_left
    (fun w t =>
       let at_ i := List.nth (t - i) w 0 in
       w ++ [add32 (add32 (sigma1 (at_ 2%nat)) (at_ 7%nat))
                   (add32 (sigma0 (at_ 15%nat)) (at_ 16%nat))])
    (List.seq 16 48) block.

Definition round (st : list Z) (kw : Z * Z) : list Z :=
  match st with
  | [a; b; c; d; e; f; g; h] =>
      let t1 := add32 (add32 (add32 h (Sigma1 e)) (add32 (Ch e f g) (fst kw))) (snd kw) in
      let t2 := add32 (Sigma0 a) (Maj a b c) in
      [add32 t1 t2; a; b; c; add32 d t1; e; f; g]
  | _ => st
  end.

Definition compress (st block : list Z) : list Z :=
  let st' := List.fold_left round (List.combine K (schedule block)) st in
  List.map (fun p => add32 (fst p) (snd p)) (List.combine st st').

Definition digest_bytes (msg : list Z) : list Z :=
  let ws := words_of_bytes (List.length msg + 72) (pad msg) in
  let st := List.fold_left compress (chunks16 (List.length ws) ws) H0 in
  List.concat (List.map (be_bytes 4) st).

Definition b64url_alphabet : string :=
  "ABCDEFGHIJKLMNOPQRSTUVWXYZabcdefghijklmnopqrstuvwxyz0123456789-_".

Definition b64url_char (i : Z) : string :=
  match String.get (Z.to_nat i) b64url_alphabet with
  | Some c => String c EmptyString
  | None => ""
  end.

(** base64url without padding. *)
Fixpoint base64url (fuel : nat) (bs : list Z) : string :=
  match fuel, bs with
  | S k, b0 :: b1 :: b2 :: rest =>
      b64url_char (Z.shiftr b0 2)
      +:+ b64url_char (Z.lor (Z.shiftl (Z.land b0 3) 4) (Z.shiftr b1 4))
      +:+ b64url_char (Z.lor (Z.shiftl (Z.land b1 15) 2) (Z.shiftr b2 6))
      +:+ b64url_char (Z.land b2 63)
      +:+ base64url k rest
  | _, [b0; b1] =>
      b64url_char (Z.shiftr b0 2)
      +:+ b64url_char (Z.lor (Z.shiftl (Z.land b0 3) 4) (Z.shiftr b1 4))
      +:+ b64url_char (Z.shiftl (Z.land b1 15) 2)
  | _, [b0] =>
      b64url_char (Z.shiftr b0 2)
      +:+ b64url_char (Z.shiftl (Z.land b0 3) 4)
  | _, _ => ""
  end.

(** [crypto.createHash('sha256').update(s).digest('base64url')] *)
Definition sha256_base64url (s : string) : string :=
  let d := digest_bytes (bytes_of_string s) in
  base64url (List.length d) d.

End Sha256.

(** ** [src/lib/crypto.ts] *)

Module Crypto.

(** [validatePKCE(codeVerifier, codeChallenge, method)] *)
Definition validatePKCE (codeVerifier codeChallenge method : string) : bool :=
  if negb (String.eqb method "S256") then false
  else
    let hash := Sha256.sha256_base64url codeVerifier in
    String.eqb hash codeChallenge.

(** The id generators prefix the output [rnd] of [generateSecureRandom]. *)
Definition generateAuthCode (rnd : string) : string := "code_" +:+ rnd.
Definition generateRefreshToken (rnd : string) : string := "rt_" +:+ rnd.
Definition generateRequestId (rnd : string) : string := "req_" +:+ rnd.
Definition generateTokenId (rnd : string) : string := "tok_" +:+ rnd.

End Crypto.

(** ** [src/db/types.ts] *)

Module Agent.
Record t := mk {
  agent_id : string;
  agent_secret_hash : string;
  user_email : string;
  user_name : string;
  created_at : Z }.
End Agent.

Module Client.
Record t := mk {
  client_id : string;
  client_secret_hash : string;
  client_name : string;
  allowed_redirect_uris : list string;
  allowed_grant_types : list string;
  created_at : Z }.
End Client.

Module AuthRequest.

Inductive Status := pending | authenticated | completed | expired | error.

Definition Status_eqb (a b : Status) : bool :=
  match a, b with
  | pending, pending | authenticated, authenticated | completed, completed
  | expired, expired | error, error => true
  | _, _ => false
  end.

(** The string of a status, as a template literal prints it. *)
Definition Status_str (a : Status) : string :=
  match a with
  | pending => "pending"
  | authenticated => "authenticated"
  | completed => "completed"
  | expired => "expired"
  | error => "error"
  end.

Record t := mk {
  request_id : string;
  client_id : string;
  redirect_uri : string;
  state : string;
  code_challenge : string;
  code_challenge_method : string;
  scope : string;
  code : option string;
  agent_id : option string;
  model : option string;
  status : Status;
  error_msg : option string;
  created_at : Z;
  expires_at : Z }.

(** [Partial<AuthRequest>], restricted to the keys the handlers pass to
    [updateAuthRequest]; [None] is an absent key. *)
Record Partial := mkPartial {
  p_agent_id : option string;
  p_model : option string;
  p_code : option string;
  p_status : option Status;
  p_error : option string }.

Definition over {A} (new : option A) (old : A) : A :=
  match new with Some x => x | None => old end.

Definition over_opt {A} (new : option A) (old : option A) : option A :=
  match new with Some x => Some x | None => old end.

(** [{ ...request, ...updates }] *)
Definition spread (request : t) (updates : Partial) : t :=
  {| request_id := request_id request;
     client_id := client_id request;
     redirect_uri := redirect_uri request;
     state := state request;
     code_challenge := code_challenge request;
     code_challenge_method := code_challenge_method request;
     scope := scope request;
     code := over_opt (p_code updates) (code request);
     agent_id := over_opt (p_agent_id updates) (agent_id request);
     model := over_opt (p_model updates) (model request);
     status := over (p_status updates) (status request);
     error_msg := over_opt (p_error updates) (error_msg request);
     created_at := created_at request;
     expires_at := expires_at request |}.

End AuthRequest.

Module Token.
Record t := mk {
  token_id : string;
  access_token : string;
  refresh_token : option string;
  agent_id : string;
  client_id : string;
  model : string;
  scope : string;
  access_token_expires_at : Z;
  refresh_token_expires_at : option Z;
  created_at : Z;
  revoked : bool }.

(** [token.revoked = true] *)
Definition revoke (token : t) : t :=
  {| token_id := token_id token;
     access_token := access_token token;
     refresh_token := refresh_token token;
     agent_id := agent_id token;
     client_id := client_id token;
     model := model token;
     scope := scope token;
     access_token_expires_at := access_token_expires_at token;
     refresh_token_expires_at := refresh_token_expires_at token;
     created_at := created_at token;
     revoked := true |}.
End Token.

Module RefreshTokenEntry.
Record t := mk {
  refresh_token : string;
  token_id : string;
  agent_id : string;
  client_id : string;
  expires_at : Z;
  revoked : bool }.

(** [token.revoked = true] *)
Definition revoke (entry : t) : t :=
  {| refresh_token := refresh_token entry;
     token_id := token_id entry;
     agent_id := agent_id entry;
     client_id := client_id entry;
     expires_at := expires_at entry;
     revoked := true |}.
End RefreshTokenEntry.

(** ** [src/db/store.ts]: the in-memory store *)

Record InMemoryStore := mkStore {
  agents : gmap string Agent.t;
  clients : gmap string Client.t;
  authRequests : gmap string AuthRequest.t;
  tokens : list Token.t;  (* keyed by [token_id], in insertion order *)
  refreshTokens : gmap string RefreshTokenEntry.t;
  authorizationCodes : gmap string string  (* code -> request_id *) }.

Definition emptyStore : InMemoryStore :=
  {| agents := ∅; clients := ∅; authRequests := ∅; tokens := [];
     refreshTokens := ∅; authorizationCodes := ∅ |}.

(** The handlers are state transformers over the store. *)
Definition M (A : Type) : Type := InMemoryStore -> A * InMemoryStore.

Definition ret {A} (a : A) : M A := fun s => (a, s).

Definition bind {A B} (c : M A) (k : A -> M B) : M B :=
  fun s => let '(a, s') := c s in k a s'.

Notation "'await' x <- c ; k" := (bind c (fun x => k))
  (at level 10, x name, c at level 100, k at level 200).

Module Db.

(** [Map.prototype.set] on [tokens]: a present key keeps its position. *)
Fixpoint tokens_set (token_id : string) (token : Token.t) (l : list Token.t)
  : list Token.t :=
  match l with
  | [] => [token]
  | x :: rest =>
      if String.eqb (Token.token_id x) token_id then token :: rest
      else x :: tokens_set token_id token rest
  end.

Definition tokens_get (token_id : string) (l : list Token.t) : option Token.t :=
  List.find (fun x => String.eqb (Token.token_id x) token_id) l.

Definition with_agents f (s : InMemoryStore) : InMemoryStore :=
  mkStore (f (agents s)) (clients s) (authRequests s) (tokens s)
          (refreshTokens s) (authorizationCodes s).
Definition with_clients f (s : InMemoryStore) : InMemoryStore :=
  mkStore (agents s) (f (clients s)) (authRequests s) (tokens s)
          (refreshTokens s) (authorizationCodes s).
Definition with_authRequests f (s : InMemoryStore) : InMemoryStore :=
  mkStore (agents s) (clients s) (f (authRequests s)) (tokens s)
          (refreshTokens s) (authorizationCodes s).
Definition with_tokens f (s : InMemoryStore) : InMemoryStore :=
  mkStore (agents s) (clients s) (authRequests s) (f (tokens s))
          (refreshTokens s) (authorizationCodes s).
Definition with_refreshTokens f (s : InMemoryStore) : InMemoryStore :=
  mkStore (agents s) (clients s) (authRequests s) (tokens s)
          (f (refreshTokens s)) (authorizationCodes s).
Definition with_authorizationCodes f (s : InMemoryStore) : InMemoryStore :=
  mkStore (agents s) (clients s) (authRequests s) (tokens s)
          (refreshTokens s) (f (authorizationCodes s)).

(* Agent operations *)
Definition createAgent (agent : Agent.t) : M Agent.t :=
  fun s => (agent, with_agents (insert (Agent.agent_id agent) agent) s).

Definition getAgent (agent_id : string) : M (option Agent.t) :=
  fun s => (agents s !! agent_id, s).

(* Client operations *)
Definition createClient (client : Client.t) : M Client.t :=
  fun s => (client, with_clients (insert (Client.client_id client) client) s).

Definition getClient (client_id : string) : M (option Client.t) :=
  fun s => (clients s !! client_id, s).

(* Auth request operations *)
Definition createAuthRequest (request : AuthRequest.t) : M AuthRequest.t :=
  fun s => (request,
            with_authRequests (insert (AuthRequest.request_id request) request) s).

Definition getAuthRequest (request_id : string) : M (option AuthRequest.t) :=
  fun s => (authRequests s !! request_id, s).

Definition updateAuthRequest (request_id : string) (updates : AuthRequest.Partial)
  : M (option AuthRequest.t) :=
  fun s =>
    match authRequests s !! request_id with
    | None => (None, s)
    | Some request =>
        let updated := AuthRequest.spread request updates in
        (Some updated, with_authRequests (insert request_id updated) s)
    end.

Definition deleteAuthRequest (request_id : string) : M bool :=
  fun s => (bool_decide (is_Some (authRequests s !! request_id)),
            with_authRequests (delete request_id) s).

(* Authorization code operations *)
Definition storeAuthCode (code request_id : string) : M unit :=
  fun s => (tt, with_authorizationCodes (insert code request_id) s).

(** [this.authorizationCodes.get(code) || null] *)
Definition getAuthCodeRequestId (code : string) : M (option string) :=
  fun s => (Js.truthy_val (authorizationCodes s !! code), s).

Definition deleteAuthCode (code : string) : M bool :=
  fun s => (bool_decide (is_Some (authorizationCodes s !! code)),
            with_authorizationCodes (delete code) s).

(* Token operations *)
Definition createToken (token : Token.t) : M Token.t :=
  fun s => (token, with_tokens (tokens_set (Token.token_id token) token) s).

Definition getToken (token_id : string) : M (option Token.t) :=
  fun s => (tokens_get token_id (tokens s), s).

Definition getTokenByAccessToken (access_token : string) : M (option Token.t) :=
  fun s => (List.find (fun x => String.eqb (Token.access_token x) access_token)
                      (tokens s), s).

Definition revokeToken (token_id : string) : M bool :=
  fun s =>
    match tokens_get token_id (tokens s) with
    | None => (false, s)
    | Some token =>
        (true, with_tokens (tokens_set token_id (Token.revoke token)) s)
    end.

Definition revokeTokenByAccessToken (access_token : string) : M bool :=
  await token <- getTokenByAccessToken access_token;
  match token with
  | None => ret false
  | Some token =>
      fun s => (true, with_tokens
                        (tokens_set (Token.token_id token) (Token.revoke token)) s)
  end.

(* Refresh token operations *)
Definition createRefreshToken (refreshToken : RefreshTokenEntry.t)
  : M RefreshTokenEntry.t :=
  fun s => (refreshToken,
            with_refreshTokens
              (insert (RefreshTokenEntry.refresh_token refreshToken) refreshToken) s).

Definition getRefreshToken (refresh_token : string) : M (option RefreshTokenEntry.t) :=
  fun s => (refreshTokens s !! refresh_token, s).

Definition revokeRefreshToken (refresh_token : string) : M bool :=
  fun s =>
    match refreshTokens s !! refresh_token with
    | None => (false, s)
    | Some token =>
        (true, with_refreshTokens
                 (insert refresh_token (RefreshTokenEntry.revoke token)) s)
    end.

(** The sweeper: drops the auth requests and the refresh tokens whose
    [expires_at] is before [now]. *)
Definition cleanupExpired (now : Z) : M unit :=
  fun s =>
    (tt,
     with_refreshTokens
       (filter (fun kv => ¬ (RefreshTokenEntry.expires_at kv.2 < now)))
       (with_authRequests
          (filter (fun kv => ¬ (AuthRequest.expires_at kv.2 < now))) s)).

End Db.

(** ** [src/lib/constants.ts] *)

Module CONFIG.
(** Modelled from the spec: the server's own [lib/constants.ts] is not
    among the sources; the values are the defaults of the specification's
    configuration (access-token TTL 3600 s, refresh-token TTL 30 days,
    auth-request TTL 600 s, default scope [openid profile]), which are also
    the values of the constants file of the Convex port. *)
Definition ACCESS_TOKEN_EXPIRES_IN : Z := 60 * 60.
Definition REFRESH_TOKEN_EXPIRES_IN : Z := 30 * 24 * 60 * 60.
Definition AUTH_REQUEST_EXPIRES_IN : Z := 10 * 60.
Definition JWT_ISSUER : string := "auth-agent.com".
Definition DEFAULT_SCOPE : string := "openid profile".
End CONFIG.

(** ** The libraries the server calls *)

Module JWTPayload.
Record t := mk {
  sub : string;
  client_id : string;
  model : string;
  scope : string;
  iat : Z;
  exp : Z;
  iss : string }.
End JWTPayload.

Record Lib := mkLib {
  (** [bcrypt.compare(secret, hash)] *)
  bcrypt_compare : string -> string -> bool;
  (** [jwt.sign(payload, CONFIG.JWT_SECRET, { algorithm: 'HS256' })] *)
  jwt_sign : JWTPayload.t -> string;
  (** What [jwt.verify] decodes under the same key and algorithm: nothing
      for a malformed token or a signature that does not match. *)
  jwt_decode : string -> option JWTPayload.t;
  (** [new URL(url)] does not throw. *)
  url_parses : string -> bool }.

(** ** Responses *)

Inductive IntrospectResult :=
| Inactive
| ActiveAccess (scope client_id : string) (exp iat : Z) (sub iss model : string)
| ActiveRefresh (client_id sub : string) (exp : Z) (model scope : option string).

Inductive Page :=
| errorPage (error error_description : string)
| spinningPage (requestId clientName : string).

Inductive Body :=
| OAuthError (error error_description : string)
| AgentFailure (error error_description : string)
| AgentSuccess (message : string)
| TokenResponse (access_token token_type : string) (expires_in : Z)
                (refresh_token scope : string)
| StatusPending
| StatusError (error : string)
| StatusAuthenticated (code state redirect_uri : string)
| Introspection (result : IntrospectResult)
| EmptyObject
| Html (page : Page).

Record Response := mkResponse { http_status : Z; body : Body }.

(** [c.json(body, status)]; the status defaults to 200. *)
Definition json (b : Body) (status : Z) : Response := mkResponse status b.
Definition json200 (b : Body) : Response := mkResponse 200 b.
Definition html (p : Page) : Response := mkResponse 200 (Html p).

(** The authorization code a response hands out, if any. *)
Definition code_of (r : Response) : option string :=
  match body r with
  | StatusAuthenticated code _ _ => Some code
  | _ => None
  end.

(** The error kind of a response, if it is an error document. *)
Definition error_of (r : Response) : option string :=
  match body r with
  | OAuthError e _ => Some e
  | AgentFailure e _ => Some e
  | _ => None
  end.

Definition dquote : string := String (Ascii.ascii_of_nat 34) EmptyString.

(** ** [src/lib/validation.ts] *)

Module Validation.

Definition in_range (lo hi : N) (c : ascii) : bool :=
  (lo <=? N_of_ascii c)%N && (N_of_ascii c <=? hi)%N.

(** A character of the class [[a-zA-Z0-9_-]]. *)
Definition is_id_char (c : ascii) : bool :=
  in_range 97 122 c || in_range 65 90 c || in_range 48 57 c
  || (N_of_ascii c =? 95)%N || (N_of_ascii c =? 45)%N.

(** [/^[a-zA-Z0-9_-]+$/.test(clientId) && clientId.length >= 3] *)
Definition isValidClientId (clientId : string) : bool :=
  let cs := list_ascii_of_string clientId in
  (negb (Js.falsy_str clientId) && List.forallb is_id_char cs)
  && (3 <=? Z.of_nat (String.length clientId)).

Definition isValidUrl (L : Lib) (url : string) : bool := url_parses L url.

(** [allowedUris.includes(uri)] *)
Definition isAllowedRedirectUri (uri : string) (allowedUris : list string) : bool :=
  List.existsb (String.eqb uri) allowedUris.

Definition isValidCodeChallengeMethod (method : string) : bool :=
  String.eqb method "S256".

End Validation.

(** ** [src/lib/jwt.ts] *)

Module Jwt.
Section WithLib.
Context (L : Lib).

(** [generateAccessToken(agentId, clientId, model, scope)] *)
Definition generateAccessToken (now : Z) (agentId clientId model scope : string)
  : string :=
  let now_s := now / 1000 in
  jwt_sign L
    {| JWTPayload.sub := agentId;
       JWTPayload.client_id := clientId;
       JWTPayload.model := model;
       JWTPayload.scope := scope;
       JWTPayload.iat := now_s;
       JWTPayload.exp := now_s + CONFIG.ACCESS_TOKEN_EXPIRES_IN;
       JWTPayload.iss := CONFIG.JWT_ISSUER |}.

(** [verifyAccessToken(token)]: [jwt.verify] rejects a bad signature, a
    foreign issuer, and a token whose [exp] the clock has reached. *)
Definition verifyAccessToken (now : Z) (token : string) : option JWTPayload.t :=
  match jwt_decode L token with
  | None => None
  | Some decoded =>
      if String.eqb (JWTPayload.iss decoded) CONFIG.JWT_ISSUER
         && negb (JWTPayload.exp decoded <=? now / 1000)
      then Some decoded
      else None
  end.

End WithLib.
End Jwt.

(** ** [src/oauth/authorize.ts] *)

Module Authorize.
Section WithLib.
Context (L : Lib).

Record Query := mkQuery {
  client_id : option string;
  redirect_uri : option string;
  state : option string;
  code_challenge : option string;
  code_challenge_method : option string;
  scope : option string;
  response_type : option string }.

Definition authorizeHandler (now : Z) (rnd : string) (q : Query) : M Response :=
  match Js.truthy_val (client_id q) with
  | None => ret (html (errorPage "invalid_request" "Missing client_id parameter"))
  | Some client_id =>
  match Js.truthy_val (redirect_uri q) with
  | None => ret (html (errorPage "invalid_request" "Missing redirect_uri parameter"))
  | Some redirect_uri =>
  match Js.truthy_val (state q) with
  | None => ret (html (errorPage "invalid_request" "Missing state parameter"))
  | Some state =>
  match Js.truthy_val (code_challenge q) with
  | None =>
      ret (html (errorPage "invalid_request"
                           "Missing code_challenge parameter (PKCE required)"))
  | Some code_challenge =>
  match Js.truthy_val (code_challenge_method q) with
  | None =>
      ret (html (errorPage "invalid_request" "Missing code_challenge_method parameter"))
  | Some code_challenge_method =>
  if negb (Js.opt_eqb (response_type q) "code") then
    ret (html (errorPage "unsupported_response_type"
                ("Only " +:+ dquote +:+ "code" +:+ dquote
                 +:+ " response type is supported")))
  else if negb (Validation.isValidClientId client_id) then
    ret (html (errorPage "invalid_request" "Invalid client_id format"))
  else if negb (Validation.isValidUrl L redirect_uri) then
    ret (html (errorPage "invalid_request" "Invalid redirect_uri format"))
  else if negb (Validation.isValidCodeChallengeMethod code_challenge_method) then
    ret (html (errorPage "invalid_request"
                "Invalid code_challenge_method. Only S256 is supported"))
  else
    await client <- Db.getClient client_id;
    match client with
    | None => ret (html (errorPage "invalid_client" "Client not found"))
    | Some client =>
    if negb (Validation.isAllowedRedirectUri
               redirect_uri (Client.allowed_redirect_uris client)) then
      ret (html (errorPage "invalid_request"
                  "redirect_uri is not registered for this client"))
    else
      let finalScope := Js.or_default (scope q) CONFIG.DEFAULT_SCOPE in
      let requestId := Crypto.generateRequestId rnd in
      await _ <- Db.createAuthRequest
        {| AuthRequest.request_id := requestId;
           AuthRequest.client_id := client_id;
           AuthRequest.redirect_uri := redirect_uri;
           AuthRequest.state := state;
           AuthRequest.code_challenge := code_challenge;
           AuthRequest.code_challenge_method := code_challenge_method;
           AuthRequest.scope := finalScope;
           AuthRequest.code := None;
           AuthRequest.agent_id := None;
           AuthRequest.model := None;
           AuthRequest.status := AuthRequest.pending;
           AuthRequest.error_msg := None;
           AuthRequest.created_at := now;
           AuthRequest.expires_at := now + CONFIG.AUTH_REQUEST_EXPIRES_IN * 1000 |};
      ret (html (spinningPage requestId (Client.client_name client)))
    end
  end end end end end.

End WithLib.
End Authorize.

(** ** The agent authentication endpoint, [POST /api/agent/authenticate] *)

Module AgentAuth.

(** Where a call stands when it reaches [await verifySecret]: bcryptjs
    hands the comparison to the event loop, so other requests are served
    before the call goes on.  By then the call has answered, or it holds
    the local variables of the handler. *)
Inductive Suspended :=
| Answered (r : Response)
| Verifying (request_id agent_id agent_secret model : string) (agent : Agent.t).

(** The handler up to [await verifySecret]. *)
Definition beforeVerifySecret (now : Z)
    (request_id agent_id agent_secret model : option string) : M Suspended :=
  match Js.truthy_val request_id, Js.truthy_val agent_id,
        Js.truthy_val agent_secret, Js.truthy_val model with
  | Some request_id, Some agent_id, Some agent_secret, Some model =>
    await authRequest <- Db.getAuthRequest request_id;
    match authRequest with
    | None =>
        ret (Answered
               (json (AgentFailure "invalid_request" "Auth request not found or expired")
                     404))
    | Some authRequest =>
    (* Check if request is expired *)
    if AuthRequest.expires_at authRequest <? now then
      await _ <- Db.updateAuthRequest request_id
        (AuthRequest.mkPartial None None None
           (Some AuthRequest.expired) (Some "Auth request expired"));
      ret (Answered (json (AgentFailure "request_expired" "Auth request has expired") 400))
    (* Check if request is already completed *)
    else if negb (AuthRequest.Status_eqb (AuthRequest.status authRequest)
                                         AuthRequest.pending) then
      ret (Answered
             (json (AgentFailure "invalid_request"
                      ("Auth request is already "
                       +:+ AuthRequest.Status_str (AuthRequest.status authRequest))) 400))
    else
      await agent <- Db.getAgent agent_id;
      match agent with
      | None =>
          await _ <- Db.updateAuthRequest request_id
            (AuthRequest.mkPartial None None None
               (Some AuthRequest.error) (Some "Invalid agent credentials"));
          ret (Answered (json (AgentFailure "invalid_client" "Agent not found") 401))
      | Some agent => ret (Verifying request_id agent_id agent_secret model agent)
      end
    end
  | _, _, _, _ =>
      ret (Answered
             (json (AgentFailure "invalid_request"
                      "Missing required fields: request_id, agent_id, agent_secret, model")
                   400))
  end.

(** The handler from the answer [isValidSecret] of [verifySecret] on: it
    reads neither the request nor its status again, and
    [db.updateAuthRequest] patches whatever is then stored under the id. *)
Definition afterVerifySecret (rnd : string) (request_id agent_id model : string)
    (isValidSecret : bool) : M Response :=
  if negb isValidSecret then
    await _ <- Db.updateAuthRequest request_id
      (AuthRequest.mkPartial None None None
         (Some AuthRequest.error) (Some "Invalid agent credentials"));
    ret (json (AgentFailure "invalid_client" "Invalid agent credentials") 401)
  else
    let authCode := Crypto.generateAuthCode rnd in
    await _ <- Db.updateAuthRequest request_id
      (AuthRequest.mkPartial (Some agent_id) (Some model) (Some authCode)
         (Some AuthRequest.authenticated) None);
    await _ <- Db.storeAuthCode authCode request_id;
    ret (json200 (AgentSuccess "Agent authenticated successfully")).

Section WithLib.
Context (L : Lib).

(** The call goes on with what [verifySecret] resolved to. *)
Definition resume (rnd : string) (suspended : Suspended) : M Response :=
  match suspended with
  | Answered r => ret r
  | Verifying request_id agent_id agent_secret model agent =>
      afterVerifySecret rnd request_id agent_id model
        (bcrypt_compare L agent_secret (Agent.agent_secret_hash agent))
  end.

(** A call that no other request overlaps: both parts on one store. *)
Definition agentAuthenticateHandler (now : Z) (rnd : string)
    (request_id agent_id agent_secret model : option string) : M Response :=
  await suspended <- beforeVerifySecret now request_id agent_id agent_secret model;
  resume rnd suspended.

End WithLib.
End AgentAuth.

(** ** [src/oauth/checkStatus.ts] *)

Module CheckStatus.

Definition checkStatusHandler (now : Z) (request_id : option string) : M Response :=
  match Js.truthy_val request_id with
  | None => ret (json (OAuthError "invalid_request" "Missing request_id parameter") 400)
  | Some request_id =>
    await authRequest <- Db.getAuthRequest request_id;
    match authRequest with
    | None => ret (json (OAuthError "not_found" "Auth request not found") 404)
    | Some authRequest =>
    (* Check if expired *)
    if (AuthRequest.expires_at authRequest <? now)
       && AuthRequest.Status_eqb (AuthRequest.status authRequest) AuthRequest.pending
    then
      await _ <- Db.updateAuthRequest request_id
        (AuthRequest.mkPartial None None None
           (Some AuthRequest.expired) (Some "Auth request expired"));
      ret (json200 (StatusError "request_expired"))
    else
    (* Return current status *)
    match AuthRequest.Status_eqb (AuthRequest.status authRequest)
                                 AuthRequest.authenticated,
          Js.truthy_val (AuthRequest.code authRequest) with
    | true, Some code =>
        await _ <- Db.updateAuthRequest request_id
          (AuthRequest.mkPartial None None None (Some AuthRequest.completed) None);
        ret (json200 (StatusAuthenticated code (AuthRequest.state authRequest)
                                          (AuthRequest.redirect_uri authRequest)))
    | _, _ =>
      if AuthRequest.Status_eqb (AuthRequest.status authRequest) AuthRequest.error then
        ret (json200 (StatusError
                        (Js.or_default (AuthRequest.error_msg authRequest)
                                       "Authentication failed")))
      else
        (* Still pending *)
        ret (json200 StatusPending)
    end
    end
  end.

End CheckStatus.

(** ** [src/oauth/token.ts] *)

Module TokenEndpoint.
Section WithLib.
Context (L : Lib).

(** [handleAuthorizationCodeGrant]; [tokRnd] and [rtRnd] are the random
    parts of the token id and of the refresh token. *)
Definition handleAuthorizationCodeGrant (now : Z) (tokRnd rtRnd : string)
    (code code_verifier client_id client_secret : option string) : M Response :=
  match Js.truthy_val code, Js.truthy_val code_verifier,
        Js.truthy_val client_id, Js.truthy_val client_secret with
  | Some code, Some code_verifier, Some client_id, Some client_secret =>
    (* Verify client credentials *)
    await client <- Db.getClient client_id;
    match client with
    | None => ret (json (OAuthError "invalid_client" "Client not found") 401)
    | Some client =>
    let isValidClient :=
      bcrypt_compare L client_secret (Client.client_secret_hash client) in
    if negb isValidClient then
      ret (json (OAuthError "invalid_client" "Invalid client credentials") 401)
    else
    (* Get auth request by code *)
    await requestId <- Db.getAuthCodeRequestId code;
    match requestId with
    | None =>
        ret (json (OAuthError "invalid_grant" "Invalid or expired authorization code") 400)
    | Some requestId =>
    await authRequest <- Db.getAuthRequest requestId;
    match authRequest with
    | None => ret (json (OAuthError "invalid_grant" "Invalid authorization code") 400)
    | Some authRequest =>
    if negb (Js.opt_eqb (AuthRequest.code authRequest) code) then
      ret (json (OAuthError "invalid_grant" "Invalid authorization code") 400)
    (* Verify client_id matches *)
    else if negb (String.eqb (AuthRequest.client_id authRequest) client_id) then
      ret (json (OAuthError "invalid_grant" "Client ID mismatch") 400)
    else
    (* Verify PKCE *)
    let isPKCEValid :=
      Crypto.validatePKCE code_verifier
        (AuthRequest.code_challenge authRequest)
        (AuthRequest.code_challenge_method authRequest) in
    if negb isPKCEValid then
      ret (json (OAuthError "invalid_grant" "Invalid PKCE code_verifier") 400)
    (* Check if code is expired *)
    else if AuthRequest.expires_at authRequest <? now then
      await _ <- Db.deleteAuthCode code;
      await _ <- Db.deleteAuthRequest requestId;
      ret (json (OAuthError "invalid_grant" "Authorization code expired") 400)
    else
    (* Ensure agent_id and model exist *)
    match Js.truthy_val (AuthRequest.agent_id authRequest),
          Js.truthy_val (AuthRequest.model authRequest) with
    | Some agent_id, Some model =>
      (* Generate tokens *)
      let tokenId := Crypto.generateTokenId tokRnd in
      let accessToken :=
        Jwt.generateAccessToken L now agent_id client_id model
                                (AuthRequest.scope authRequest) in
      let refreshTokenValue := Crypto.generateRefreshToken rtRnd in
      (* Store token *)
      await _ <- Db.createToken
        {| Token.token_id := tokenId;
           Token.access_token := accessToken;
           Token.refresh_token := Some refreshTokenValue;
           Token.agent_id := agent_id;
           Token.client_id := client_id;
           Token.model := model;
           Token.scope := AuthRequest.scope authRequest;
           Token.access_token_expires_at :=
             now + CONFIG.ACCESS_TOKEN_EXPIRES_IN * 1000;
           Token.refresh_token_expires_at :=
             Some (now + CONFIG.REFRESH_TOKEN_EXPIRES_IN * 1000);
           Token.created_at := now;
           Token.revoked := false |};
      (* Store refresh token *)
      await _ <- Db.createRefreshToken
        {| RefreshTokenEntry.refresh_token := refreshTokenValue;
           RefreshTokenEntry.token_id := tokenId;
           RefreshTokenEntry.agent_id := agent_id;
           RefreshTokenEntry.client_id := client_id;
           RefreshTokenEntry.expires_at :=
             now + CONFIG.REFRESH_TOKEN_EXPIRES_IN * 1000;
           RefreshTokenEntry.revoked := false |};
      (* Delete authorization code (single use) *)
      await _ <- Db.deleteAuthCode code;
      await _ <- Db.deleteAuthRequest requestId;
      ret (json200 (TokenResponse accessToken "Bearer" CONFIG.ACCESS_TOKEN_EXPIRES_IN
                                  refreshTokenValue (AuthRequest.scope authRequest)))
    | _, _ =>
        ret (json (OAuthError "server_error"
                     "Missing agent information in auth request") 500)
    end
    end end end
  | _, _, _, _ =>
      ret (json (OAuthError "invalid_request"
                   "Missing required parameters for authorization_code grant") 400)
  end.

(** [handleRefreshTokenGrant]; [tokRnd] is the random part of the new
    token id. *)
Definition handleRefreshTokenGrant (now : Z) (tokRnd : string)
    (refresh_token client_id client_secret : option string) : M Response :=
  match Js.truthy_val refresh_token, Js.truthy_val client_id,
        Js.truthy_val client_secret with
  | Some refresh_token, Some client_id, Some client_secret =>
    (* Verify client credentials *)
    await client <- Db.getClient client_id;
    match client with
    | None => ret (json (OAuthError "invalid_client" "Client not found") 401)
    | Some client =>
    let isValidClient :=
      bcrypt_compare L client_secret (Client.client_secret_hash client) in
    if negb isValidClient then
      ret (json (OAuthError "invalid_client" "Invalid client credentials") 401)
    else
    (* Get refresh token *)
    await refreshTokenEntry <- Db.getRefreshToken refresh_token;
    match refreshTokenEntry with
    | None => ret (json (OAuthError "invalid_grant" "Invalid refresh token") 400)
    | Some refreshTokenEntry =>
    if RefreshTokenEntry.revoked refreshTokenEntry then
      ret (json (OAuthError "invalid_grant" "Refresh token has been revoked") 400)
    else if RefreshTokenEntry.expires_at refreshTokenEntry <? now then
      ret (json (OAuthError "invalid_grant" "Refresh token expired") 400)
    else if negb (String.eqb (RefreshTokenEntry.client_id refreshTokenEntry)
                             client_id) then
      ret (json (OAuthError "invalid_grant" "Client ID mismatch") 400)
    else
    (* Get original token to get scope and model *)
    await originalToken <- Db.getToken (RefreshTokenEntry.token_id refreshTokenEntry);
    match originalToken with
    | None => ret (json (OAuthError "server_error" "Original token not found") 500)
    | Some originalToken =>
      (* Generate new access token *)
      let newTokenId := Crypto.generateTokenId tokRnd in
      let newAccessToken :=
        Jwt.generateAccessToken L now
          (RefreshTokenEntry.agent_id refreshTokenEntry) client_id
          (Token.model originalToken) (Token.scope originalToken) in
      (* Store new token (reuse same refresh token) *)
      await _ <- Db.createToken
        {| Token.token_id := newTokenId;
           Token.access_token := newAccessToken;
           Token.refresh_token := Some refresh_token;
           Token.agent_id := RefreshTokenEntry.agent_id refreshTokenEntry;
           Token.client_id := client_id;
           Token.model := Token.model originalToken;
           Token.scope := Token.scope originalToken;
           Token.access_token_expires_at :=
             now + CONFIG.ACCESS_TOKEN_EXPIRES_IN * 1000;
           Token.refresh_token_expires_at :=
             Some (RefreshTokenEntry.expires_at refreshTokenEntry);
           Token.created_at := now;
           Token.revoked := false |};
      ret (json200 (TokenResponse newAccessToken "Bearer"
                                  CONFIG.ACCESS_TOKEN_EXPIRES_IN
                                  refresh_token (Token.scope originalToken)))
    end
    end end
  | _, _, _ =>
      ret (json (OAuthError "invalid_request"
                   "Missing required parameters for refresh_token grant") 400)
  end.

Record Body := mkBody {
  grant_type : option string;
  code : option string;
  code_verifier : option string;
  client_id : option string;
  client_secret : option string;
  refresh_token : option string }.

(** [tokenHandler]; none of the calls modelled here throws, so the
    [catch] branch ([server_error], 500) has no counterpart. *)
Definition tokenHandler (now : Z) (tokRnd rtRnd : string) (b : Body) : M Response :=
  match Js.truthy_val (grant_type b) with
  | None => ret (json (OAuthError "invalid_request" "Missing grant_type parameter") 400)
  | Some grant_type =>
    if String.eqb grant_type "authorization_code" then
      handleAuthorizationCodeGrant now tokRnd rtRnd
        (code b) (code_verifier b) (client_id b) (client_secret b)
    else if String.eqb grant_type "refresh_token" then
      handleRefreshTokenGrant now tokRnd
        (refresh_token b) (client_id b) (client_secret b)
    else
      ret (json (OAuthError "unsupported_grant_type"
                   ("Grant type " +:+ dquote +:+ grant_type +:+ dquote
                    +:+ " is not supported")) 400)
  end.

End WithLib.
End TokenEndpoint.

(** ** [src/oauth/introspect.ts] *)

Module Introspect.
Section WithLib.
Context (L : Lib).

Definition introspectAccessToken (now : Z) (token clientId : string)
  : M IntrospectResult :=
  (* Verify JWT *)
  match Jwt.verifyAccessToken L now token with
  | None => ret Inactive
  | Some payload =>
    (* Check if token exists in database and is not revoked *)
    await tokenEntry <- Db.getTokenByAccessToken token;
    match tokenEntry with
    | None => ret Inactive
    | Some tokenEntry =>
      if Token.revoked tokenEntry then ret Inactive
      else if negb (String.eqb (Token.client_id tokenEntry) clientId) then ret Inactive
      else if JWTPayload.exp payload <? now / 1000 then ret Inactive
      else
        ret (ActiveAccess (JWTPayload.scope payload) (JWTPayload.client_id payload)
                          (JWTPayload.exp payload) (JWTPayload.iat payload)
                          (JWTPayload.sub payload) (JWTPayload.iss payload)
                          (JWTPayload.model payload))
    end
  end.

Definition introspectRefreshToken (now : Z) (token clientId : string)
  : M IntrospectResult :=
  await refreshToken <- Db.getRefreshToken token;
  match refreshToken with
  | None => ret Inactive
  | Some refreshToken =>
    if RefreshTokenEntry.revoked refreshToken then ret Inactive
    else if negb (String.eqb (RefreshTokenEntry.client_id refreshToken) clientId)
    then ret Inactive
    else if RefreshTokenEntry.expires_at refreshToken <? now then ret Inactive
    else
      await originalToken <- Db.getToken (RefreshTokenEntry.token_id refreshToken);
      ret (ActiveRefresh (RefreshTokenEntry.client_id refreshToken)
                         (RefreshTokenEntry.agent_id refreshToken)
                         (RefreshTokenEntry.expires_at refreshToken / 1000)
                         (Token.model <$> originalToken)
                         (Token.scope <$> originalToken))
  end.

Definition introspectHandler (now : Z)
    (token token_type_hint client_id client_secret : option string) : M Response :=
  match Js.truthy_val token with
  | None => ret (json (OAuthError "invalid_request" "Missing token parameter") 400)
  | Some token =>
  match Js.truthy_val client_id, Js.truthy_val client_secret with
  | Some client_id, Some client_secret =>
    await client <- Db.getClient client_id;
    match client with
    | None => ret (json (OAuthError "invalid_client" "Client not found") 401)
    | Some client =>
    let isValidClient :=
      bcrypt_compare L client_secret (Client.client_secret_hash client) in
    if negb isValidClient then
      ret (json (OAuthError "invalid_client" "Invalid client credentials") 401)
    else if Js.opt_eqb token_type_hint "refresh_token" then
      await result <- introspectRefreshToken now token client_id;
      ret (json200 (Introspection result))
    else
      await result <- introspectAccessToken now token client_id;
      ret (json200 (Introspection result))
    end
  | _, _ => ret (json (OAuthError "invalid_request" "Missing client credentials") 400)
  end
  end.

End WithLib.
End Introspect.

(** ** The revocation endpoint, [POST /revoke] *)

Module Revoke.
Section WithLib.
Context (L : Lib).

Definition revokeAccessToken (token clientId : string) : M bool :=
  await tokenEntry <- Db.getTokenByAccessToken token;
  match tokenEntry with
  | None => ret false
  | Some tokenEntry =>
    if negb (String.eqb (Token.client_id tokenEntry) clientId) then ret false
    else
      (* Revoke the token *)
      await _ <- Db.revokeTokenByAccessToken token;
      (* Also revoke associated refresh token if it exists *)
      match Js.truthy_val (Token.refresh_token tokenEntry) with
      | Some refresh_token =>
          await _ <- Db.revokeRefreshToken refresh_token;
          ret true
      | None => ret true
      end
  end.

Definition revokeRefreshToken (token clientId : string) : M bool :=
  await refreshToken <- Db.getRefreshToken token;
  match refreshToken with
  | None => ret false
  | Some refreshToken =>
    if negb (String.eqb (RefreshTokenEntry.client_id refreshToken) clientId)
    then ret false
    else
      (* Revoke the refresh token *)
      await _ <- Db.revokeRefreshToken token;
      (* Also revoke the associated access token *)
      await tokenEntry <- Db.getToken (RefreshTokenEntry.token_id refreshToken);
      match tokenEntry with
      | Some tokenEntry =>
          await _ <- Db.revokeToken (Token.token_id tokenEntry);
          ret true
      | None => ret true
      end
  end.

Definition revokeHandler
    (token token_type_hint client_id client_secret : option string) : M Response :=
  match Js.truthy_val token with
  | None =>
      (* Per RFC 7009, return 200 even for invalid requests *)
      ret (json200 EmptyObject)
  | Some token =>
  match Js.truthy_val client_id, Js.truthy_val client_secret with
  | Some client_id, Some client_secret =>
    await client <- Db.getClient client_id;
    match client with
    | None => ret (json (OAuthError "invalid_client" "Client not found") 401)
    | Some client =>
    let isValidClient :=
      bcrypt_compare L client_secret (Client.client_secret_hash client) in
    if negb isValidClient then
      ret (json (OAuthError "invalid_client" "Invalid client credentials") 401)
    else if Js.opt_eqb token_type_hint "refresh_token" then
      await _ <- revokeRefreshToken token client_id;
      ret (json200 EmptyObject)
    else
      (* Try access token first *)
      await revokedAccess <- revokeAccessToken token client_id;
      (* If not found as access token, try as refresh token *)
      if negb revokedAccess then
        await _ <- revokeRefreshToken token client_id;
        ret (json200 EmptyObject)
      else ret (json200 EmptyObject)
    end
  | _, _ => ret (json (OAuthError "invalid_client" "Missing client credentials") 401)
  end
  end.

End WithLib.
End Revoke.

(** ** The server as a state machine

    A request names the endpoint, the random strings the handler draws and
    the parameters it receives; the sweeper is the only other event.  Every
    event happens at an instant. *)

Inductive Request :=
| GET_authorize (rnd : string) (q : Authorize.Query)
| POST_agent_authenticate (rnd : string)
    (request_id agent_id agent_secret model : option string)
| GET_check_status (request_id : option string)
| POST_token (tokRnd rtRnd : string) (b : TokenEndpoint.Body)
| POST_introspect (token token_type_hint client_id client_secret : option string)
| POST_revoke (token token_type_hint client_id client_secret : option string).

Inductive Event :=
| Http (r : Request)
| Sweep.

Definition handle (L : Lib) (now : Z) (r : Request) : M Response :=
  match r with
  | GET_authorize rnd q => Authorize.authorizeHandler L now rnd q
  | POST_agent_authenticate rnd request_id agent_id agent_secret model =>
      AgentAuth.agentAuthenticateHandler L now rnd request_id agent_id agent_secret model
  | GET_check_status request_id => CheckStatus.checkStatusHandler now request_id
  | POST_token tokRnd rtRnd b => TokenEndpoint.tokenHandler L now tokRnd rtRnd b
  | POST_introspect token hint client_id client_secret =>
      Introspect.introspectHandler L now token hint client_id client_secret
  | POST_revoke token hint client_id client_secret =>
      Revoke.revokeHandler L token hint client_id client_secret
  end.

(** One event: the response, if the event is a request, and the store after. *)
Definition step (L : Lib) (now : Z) (e : Event) : M (option Response) :=
  match e with
  | Http r => await resp <- handle L now r; ret (Some resp)
  | Sweep => await _ <- Db.cleanupExpired now; ret None
  end.

(** The store after a sequence of timed events, each call taken whole:
    a run in which no request is served while another is suspended. *)
Fixpoint run (L : Lib) (trace : list (Z * Event)) (s : InMemoryStore) : InMemoryStore :=
  match trace with
  | [] => s
  | (now, e) :: rest => run L rest (step L now e s).2
  end.

(** The responses of a sequence of timed events, in order. *)
Fixpoint responses (L : Lib) (trace : list (Z * Event)) (s : InMemoryStore)
  : list (option Response) :=
  match trace with
  | [] => []
  | (now, e) :: rest =>
      let '(r, s') := step L now e s in r :: responses L rest s'
  end.

(** The request id an event may create: [/authorize] stores its new
    request under ["req_" + rnd]. *)
Definition creates (e : Event) (request_id : string) : Prop :=
  match e with
  | Http (GET_authorize rnd _) => Crypto.generateRequestId rnd = request_id
  | _ => False
  end.

(** ** Notions the statements use *)

(** The updates the handlers pass to [updateAuthRequest]. *)
Definition expiredPatch : AuthRequest.Partial :=
  AuthRequest.mkPartial None None None (Some AuthRequest.expired)
                        (Some "Auth request expired").

Definition completedPatch : AuthRequest.Partial :=
  AuthRequest.mkPartial None None None (Some AuthRequest.completed) None.

Definition errorPatch : AuthRequest.Partial :=
  AuthRequest.mkPartial None None None (Some AuthRequest.error)
                        (Some "Invalid agent credentials").

Definition authenticatedPatch (agent_id model code : string) : AuthRequest.Partial :=
  AuthRequest.mkPartial (Some agent_id) (Some model) (Some code)
                        (Some AuthRequest.authenticated) None.

(** The store after [db.updateAuthRequest(rid, patch)]. *)
Definition patched (rid : string) (patch : AuthRequest.Partial) (s : InMemoryStore)
  : InMemoryStore :=
  match authRequests s !! rid with
  | Some ar => Db.with_authRequests (insert rid (AuthRequest.spread ar patch)) s
  | None => s
  end.

(** The token record and the refresh entry the authorization-code grant
    persists. *)
Definition issuedToken (L : Lib) (now : Z) (tokRnd rtRnd client_id agent_id model : string)
    (ar : AuthRequest.t) : Token.t :=
  {| Token.token_id := Crypto.generateTokenId tokRnd;
     Token.access_token :=
       Jwt.generateAccessToken L now agent_id client_id model (AuthRequest.scope ar);
     Token.refresh_token := Some (Crypto.generateRefreshToken rtRnd);
     Token.agent_id := agent_id;
     Token.client_id := client_id;
     Token.model := model;
     Token.scope := AuthRequest.scope ar;
     Token.access_token_expires_at := now + CONFIG.ACCESS_TOKEN_EXPIRES_IN * 1000;
     Token.refresh_token_expires_at :=
       Some (now + CONFIG.REFRESH_TOKEN_EXPIRES_IN * 1000);
     Token.created_at := now;
     Token.revoked := false |}.

Definition issuedRefreshEntry (now : Z) (tokRnd rtRnd client_id agent_id : string)
  : RefreshTokenEntry.t :=
  {| RefreshTokenEntry.refresh_token := Crypto.generateRefreshToken rtRnd;
     RefreshTokenEntry.token_id := Crypto.generateTokenId tokRnd;
     RefreshTokenEntry.agent_id := agent_id;
     RefreshTokenEntry.client_id := client_id;
     RefreshTokenEntry.expires_at := now + CONFIG.REFRESH_TOKEN_EXPIRES_IN * 1000;
     RefreshTokenEntry.revoked := false |}.

(** The token record a refresh grant persists. *)
Definition refreshedToken (L : Lib) (now : Z) (tokRnd refresh_token client_id : string)
    (entry : RefreshTokenEntry.t) (original : Token.t) : Token.t :=
  {| Token.token_id := Crypto.generateTokenId tokRnd;
     Token.access_token :=
       Jwt.generateAccessToken L now (RefreshTokenEntry.agent_id entry) client_id
                               (Token.model original) (Token.scope original);
     Token.refresh_token := Some refresh_token;
     Token.agent_id := RefreshTokenEntry.agent_id entry;
     Token.client_id := client_id;
     Token.model := Token.model original;
     Token.scope := Token.scope original;
     Token.access_token_expires_at := now + CONFIG.ACCESS_TOKEN_EXPIRES_IN * 1000;
     Token.refresh_token_expires_at := Some (RefreshTokenEntry.expires_at entry);
     Token.created_at := now;
     Token.revoked := false |}.

(** The store after a successful exchange of [code] for request [rid]. *)
Definition afterExchange (t : Token.t) (e : RefreshTokenEntry.t) (code rid : string)
    (s : InMemoryStore) : InMemoryStore :=
  Db.with_authRequests (delete rid)
    (Db.with_authorizationCodes (delete code)
       (Db.with_refreshTokens (insert (RefreshTokenEntry.refresh_token e) e)
          (Db.with_tokens (Db.tokens_set (Token.token_id t) t) s))).

(** The claims of the access token a refresh grant signs. *)
Definition refreshedPayload (now : Z) (client_id : string)
    (entry : RefreshTokenEntry.t) (original : Token.t) : JWTPayload.t :=
  {| JWTPayload.sub := RefreshTokenEntry.agent_id entry;
     JWTPayload.client_id := client_id;
     JWTPayload.model := Token.model original;
     JWTPayload.scope := Token.scope original;
     JWTPayload.iat := now / 1000;
     JWTPayload.exp := now / 1000 + CONFIG.ACCESS_TOKEN_EXPIRES_IN;
     JWTPayload.iss := CONFIG.JWT_ISSUER |}.

(** The request an authentication call names. *)
Definition authenticates (e : Event) (request_id : string) : Prop :=
  match e with
  | Http (POST_agent_authenticate _ rid _ _ _) => Js.truthy_val rid = Some request_id
  | _ => False
  end.

Definition terminal (st : AuthRequest.Status) : Prop :=
  st = AuthRequest.completed \/ st = AuthRequest.expired \/ st = AuthRequest.error.

(** A request that can no longer deliver a code: removed, or terminal. *)
Definition spent (o : option AuthRequest.t) : Prop :=
  match o with
  | None => True
  | Some ar => terminal (AuthRequest.status ar)
  end.

(** What one event at instant [now] may do to the request stored under
    [rid]: the transitions of the server, one constructor per place of the
    handlers that writes the request map. *)
Inductive request_step (now : Z) (e : Event) (rid : string)
  : option AuthRequest.t -> option AuthRequest.t -> Prop :=
| step_same o :
    request_step now e rid o o
| step_removed o :
    request_step now e rid o None
| step_created o ar :
    creates e rid ->
    AuthRequest.status ar = AuthRequest.pending ->
    request_step now e rid o (Some ar)
| step_poll_expired ar :
    AuthRequest.status ar = AuthRequest.pending ->
    AuthRequest.expires_at ar < now ->
    request_step now e rid (Some ar) (Some (AuthRequest.spread ar expiredPatch))
| step_poll_delivered ar :
    AuthRequest.status ar = AuthRequest.authenticated ->
    request_step now e rid (Some ar) (Some (AuthRequest.spread ar completedPatch))
| step_agent_expired ar :
    authenticates e rid ->
    AuthRequest.expires_at ar < now ->
    request_step now e rid (Some ar) (Some (AuthRequest.spread ar expiredPatch))
| step_agent_refused ar :
    AuthRequest.status ar = AuthRequest.pending ->
    ~ AuthRequest.expires_at ar < now ->
    request_step now e rid (Some ar) (Some (AuthRequest.spread ar errorPatch))
| step_agent_accepted ar agent_id model code :
    AuthRequest.status ar = AuthRequest.pending ->
    ~ AuthRequest.expires_at ar < now ->
    request_step now e rid (Some ar)
      (Some (AuthRequest.spread ar (authenticatedPatch agent_id model code))).

(** ** Stand-ins for the libraries, to run the server on concrete inputs

    The theorems below hold for every [Lib].  The concrete runs need one
    instance: a transparent password hash, a token that spells out its
    claims, and a URL test on the scheme. *)

Module Sim.

Definition hashSecret (secret : string) : string := "$sim$" +:+ secret.

Definition compare (secret hash : string) : bool :=
  String.eqb hash (hashSecret secret).

Definition str_of_Z (z : Z) : string :=
  NilZero.string_of_int (Z.to_int z).

Definition Z_of_str (s : string) : option Z :=
  Z.of_int <$> NilZero.int_of_string s.

Fixpoint split_bar (s : string) : list string :=
  match s with
  | EmptyString => [""]
  | String c rest =>
      if Ascii.eqb c "|"%char then "" :: split_bar rest
      else match split_bar rest with
           | [] => [String c ""]
           | w :: ws => String c w :: ws
           end
  end.

Definition sign (p : JWTPayload.t) : string :=
  "jwt|" +:+ JWTPayload.sub p +:+ "|" +:+ JWTPayload.client_id p
  +:+ "|" +:+ JWTPayload.model p +:+ "|" +:+ JWTPayload.scope p
  +:+ "|" +:+ str_of_Z (JWTPayload.iat p) +:+ "|" +:+ str_of_Z (JWTPayload.exp p)
  +:+ "|" +:+ JWTPayload.iss p.

Definition decode (token : string) : option JWTPayload.t :=
  match split_bar token with
  | [tag; sub; client_id; model; scope; iat; exp; iss] =>
      if String.eqb tag "jwt" then
        match Z_of_str iat, Z_of_str exp with
        | Some iat, Some exp =>
            Some (JWTPayload.mk sub client_id model scope iat exp iss)
        | _, _ => None
        end
      else None
  | _ => None
  end.

Definition lib : Lib :=
  {| bcrypt_compare := compare;
     jwt_sign := sign;
     jwt_decode := decode;
     url_parses := fun url => String.prefix "https://" url |}.

(** A registered client and a registered agent. *)
Definition client : Client.t :=
  {| Client.client_id := "client_shop";
     Client.client_secret_hash := hashSecret "shop-secret";
     Client.client_name := "Shop";
     Client.allowed_redirect_uris := ["https://shop.example/callback"];
     Client.allowed_grant_types := ["authorization_code"; "refresh_token"];
     Client.created_at := 0 |}.

Definition agent : Agent.t :=
  {| Agent.agent_id := "agent_ada";
     Agent.agent_secret_hash := hashSecret "ada-secret";
     Agent.user_email := "ada@example.org";
     Agent.user_name := "Ada";
     Agent.created_at := 0 |}.

Definition store0 : InMemoryStore :=
  (Db.createAgent agent (Db.createClient client emptyStore).2).2.

(** The PKCE pair of the specification's happy path. *)
Definition verifier : string := "dBjftJeZ4CVP-mB92K27uhbUJU1p1r_wW1gFWFOEjXk".
Definition challenge : string := "E9Melhoa2OwvFrEMTJguCHaoeK1t8URWbuGJSstw-cM".

Definition authorize : Event :=
  Http (GET_authorize "r1"
          (Authorize.mkQuery (Some "client_shop")
             (Some "https://shop.example/callback") (Some "xyz")
             (Some challenge) (Some "S256") None (Some "code"))).

Definition authenticate : Event :=
  Http (POST_agent_authenticate "c1" (Some "req_r1") (Some "agent_ada")
          (Some "ada-secret") (Some "model-x")).

Definition poll : Event := Http (GET_check_status (Some "req_r1")).

Definition exchange (code_verifier : string) : Event :=
  Http (POST_token "t1" "f1"
          (TokenEndpoint.mkBody (Some "authorization_code") (Some "code_c1")
             (Some code_verifier) (Some "client_shop") (Some "shop-secret") None)).

Definition refresh : Event :=
  Http (POST_token "t2" "f2"
          (TokenEndpoint.mkBody (Some "refresh_token") None None
             (Some "client_shop") (Some "shop-secret") (Some "rt_f1"))).

Definition revokeRefresh : Event :=
  Http (POST_revoke (Some "rt_f1") (Some "refresh_token")
                    (Some "client_shop") (Some "shop-secret")).

Definition revoke (token : string) : Event :=
  Http (POST_revoke (Some token) None (Some "client_shop") (Some "shop-secret")).

Definition introspect (token : string) (hint : option string) : Event :=
  Http (POST_introspect (Some token) hint (Some "client_shop") (Some "shop-secret")).

Definition refreshBody : TokenEndpoint.Body :=
  TokenEndpoint.mkBody (Some "refresh_token") None None
    (Some "client_shop") (Some "shop-secret") (Some "rt_f1").

(** The stores along the happy path: after [/authorize] at 1 s, after
    the agent's authentication at 2 s, after the first poll at 3 s, and
    after the exchange of the code at 5 s. *)
Definition s_pending : InMemoryStore := run lib [(1000, authorize)] store0.
Definition s_authenticated : InMemoryStore := run lib [(2000, authenticate)] s_pending.
Definition s_delivered : InMemoryStore := run lib [(3000, poll)] s_authenticated.
Definition s_exchanged : InMemoryStore := run lib [(5000, exchange verifier)] s_delivered.

(** The request of the happy path as [/authorize] stores it. *)
Definition request_pending : AuthRequest.t :=
  {| AuthRequest.request_id := "req_r1";
     AuthRequest.client_id := "client_shop";
     AuthRequest.redirect_uri := "https://shop.example/callback";
     AuthRequest.state := "xyz";
     AuthRequest.code_challenge := challenge;
     AuthRequest.code_challenge_method := "S256";
     AuthRequest.scope := "openid profile";
     AuthRequest.code := None;
     AuthRequest.agent_id := None;
     AuthRequest.model := None;
     AuthRequest.status := AuthRequest.pending;
     AuthRequest.error_msg := None;
     AuthRequest.created_at := 1000;
     AuthRequest.expires_at := 601000 |}.

Definition request_authenticated : AuthRequest.t :=
  AuthRequest.spread request_pending
    (authenticatedPatch "agent_ada" "model-x" "code_c1").

Definition request_completed : AuthRequest.t :=
  AuthRequest.spread request_authenticated completedPatch.

(** The token record and the refresh entry of the exchange at 5 s. *)
Definition token1 : Token.t :=
  issuedToken lib 5000 "t1" "f1" "client_shop" "agent_ada" "model-x"
              request_completed.

Definition entry1 : RefreshTokenEntry.t :=
  issuedRefreshEntry 5000 "t1" "f1" "client_shop" "agent_ada".

End Sim.

(** ** Consistency of the store *)

(** The store as the [Map]s of the source can hold it: the token records
    have distinct ids (they are the keys of [tokens]), and every request,
    refresh entry, client and agent is filed under its own id. *)
Record store_wf (s : InMemoryStore) : Prop := mk_store_wf {
  wf_tokens : List.NoDup (List.map Token.token_id (tokens s));
  wf_requests :
    forall k r, authRequests s !! k = Some r -> AuthRequest.request_id r = k;
  wf_refresh :
    forall k e, refreshTokens s !! k = Some e -> RefreshTokenEntry.refresh_token e = k;
  wf_clients :
    forall k c, clients s !! k = Some c -> Client.client_id c = k;
  wf_agents :
    forall k a, agents s !! k = Some a -> Agent.agent_id a = k }.

(** The request [/authorize] stores. *)
Definition pendingRequest (now : Z) (rnd client_id redirect_uri state
    code_challenge code_challenge_method : string) (scope : option string)
  : AuthRequest.t :=
  {| AuthRequest.request_id := Crypto.generateRequestId rnd;
     AuthRequest.client_id := client_id;
     AuthRequest.redirect_uri := redirect_uri;
     AuthRequest.state := state;
     AuthRequest.code_challenge := code_challenge;
     AuthRequest.code_challenge_method := code_challenge_method;
     AuthRequest.scope := Js.or_default scope CONFIG.DEFAULT_SCOPE;
     AuthRequest.code := None;
     AuthRequest.agent_id := None;
     AuthRequest.model := None;
     AuthRequest.status := AuthRequest.pending;
     AuthRequest.error_msg := None;
     AuthRequest.created_at := now;
     AuthRequest.expires_at := now + CONFIG.AUTH_REQUEST_EXPIRES_IN * 1000 |}.

(** * The admin endpoints for clients (src/admin/clients.ts) *)

Module Admin.

(** [redirect_uris] of a request body, as far as the handlers look at it:
    an array of strings, or any other value ([undefined], [null], a
    string, a number, an object), of which only the truthiness counts. *)
Inductive RedirectUris :=
| NotArray (truthy : bool)
| UriArray (uris : list string).

(** [!redirect_uris]: an array is truthy, also the empty one. *)
Definition falsy_uris (u : RedirectUris) : bool :=
  match u with
  | NotArray truthy => negb truthy
  | UriArray _ => false
  end.

(** The elements, when [Array.isArray(redirect_uris)]. *)
Definition array_of (u : RedirectUris) : option (list string) :=
  match u with
  | NotArray _ => None
  | UriArray uris => Some uris
  end.

Inductive Body :=
| Error (error error_description : string)
| Created (client_id client_secret client_name : string)
          (allowed_redirect_uris allowed_grant_types : list string)
          (created_at : Z) (warning : string)
| Details (client_id client_name : string)
          (allowed_redirect_uris allowed_grant_types : list string)
          (created_at : Z)
| Message (message : string).

Record Response := mkResponse { http_status : Z; body : Body }.

Definition json (b : Body) (status : Z) : Response := mkResponse status b.

(** The client without its secret hash, as the handlers print it. *)
Definition details (client : Client.t) : Body :=
  Details (Client.client_id client) (Client.client_name client)
          (Client.allowed_redirect_uris client) (Client.allowed_grant_types client)
          (Client.created_at client).

(** [Partial<Client>], restricted to the keys [updateClientHandler] sets;
    [None] is an absent key. *)
Record Partial := mkPartial {
  p_client_name : option string;
  p_allowed_redirect_uris : option (list string) }.

(** [{ ...client, ...updates }] *)
Definition spread (client : Client.t) (updates : Partial) : Client.t :=
  {| Client.client_id := Client.client_id client;
     Client.client_secret_hash := Client.client_secret_hash client;
     Client.client_name :=
       AuthRequest.over (p_client_name updates) (Client.client_name client);
     Client.allowed_redirect_uris :=
       AuthRequest.over (p_allowed_redirect_uris updates)
                        (Client.allowed_redirect_uris client);
     Client.allowed_grant_types := Client.allowed_grant_types client;
     Client.created_at := Client.created_at client |}.

(** [db.updateClient] and [db.deleteClient] of the store. *)
Definition updateClient (client_id : string) (updates : Partial)
  : M (option Client.t) :=
  fun s =>
    match clients s !! client_id with
    | None => (None, s)
    | Some client =>
        let updated := spread client updates in
        (Some updated, Db.with_clients (insert client_id updated) s)
    end.

Definition deleteClient (client_id : string) : M bool :=
  fun s => (bool_decide (is_Some (clients s !! client_id)),
            Db.with_clients (delete client_id) s).

(** The first element the loop over [redirect_uris] refuses. *)
Definition firstInvalidUrl (L : Lib) (uris : list string) : option string :=
  List.find (fun uri => negb (Validation.isValidUrl L uri)) uris.

(** Where a registration stands when it reaches [await hashSecret]: it has
    answered, or it holds the id it checked, the secret it drew, and the
    name and the redirect URIs of the request. *)
Inductive Suspended :=
| Answered (r : Response)
| Hashing (finalClientId clientSecret client_name : string)
          (redirect_uris : list string).

(** [POST /api/admin/clients] from the answer [clientSecretHash] of
    [hashSecret] on: [db.createClient] sets the entry whatever is stored
    under the id by then, and [now] is the clock at that moment. *)
Definition afterHashSecret (now : Z) (finalClientId clientSecret client_name : string)
    (redirect_uris : list string) (clientSecretHash : string) : M Response :=
  await client <- Db.createClient
    {| Client.client_id := finalClientId;
       Client.client_secret_hash := clientSecretHash;
       Client.client_name := client_name;
       Client.allowed_redirect_uris := redirect_uris;
       Client.allowed_grant_types := ["authorization_code"; "refresh_token"];
       Client.created_at := now |};
  ret (json (Created (Client.client_id client) clientSecret
                     (Client.client_name client)
                     (Client.allowed_redirect_uris client)
                     (Client.allowed_grant_types client)
                     (Client.created_at client)
                     "Save the client_secret securely. It will not be shown again.")
            201).

Section WithLib.
Context (L : Lib).
(** [bcrypt.hash(secret, CONFIG.BCRYPT_ROUNDS)], with the salt it draws. *)
Context (bcrypt_hash : string -> string).

(** [POST /api/admin/clients] up to [await hashSecret]; [idRnd] is the
    output of [nanoid(16)], [secretRnd] that of [generateSecureRandom(32)]. *)
Definition beforeHashSecret (idRnd secretRnd : string)
    (client_name : option string) (redirect_uris : RedirectUris)
    (client_id : option string) : M Suspended :=
  match Js.truthy_val client_name, array_of redirect_uris with
  | Some client_name, Some ((_ :: _) as uris) =>
    (* Validate redirect URIs *)
    match firstInvalidUrl L uris with
    | Some uri =>
        ret (Answered
               (json (Error "invalid_request" ("Invalid redirect URI: " +:+ uri)) 400))
    | None =>
    (* Generate client_id if not provided *)
    let finalClientId := Js.or_default client_id ("client_" +:+ idRnd) in
    if negb (Validation.isValidClientId finalClientId) then
      ret (Answered (json (Error "invalid_request" "Invalid client_id format") 400))
    else
      await existing <- Db.getClient finalClientId;
      match existing with
      | Some _ =>
          ret (Answered (json (Error "invalid_request" "Client ID already exists") 400))
      | None =>
        let clientSecret := secretRnd in
        ret (Hashing finalClientId clientSecret client_name uris)
      end
    end
  | _, _ =>
      ret (Answered
             (json (Error "invalid_request"
                      "Missing required fields: client_name, redirect_uris (array)") 400))
  end.

(** The registration goes on with what [hashSecret] resolved to. *)
Definition resume (now : Z) (suspended : Suspended) : M Response :=
  match suspended with
  | Answered r => ret r
  | Hashing finalClientId clientSecret client_name uris =>
      afterHashSecret now finalClientId clientSecret client_name uris
                      (bcrypt_hash clientSecret)
  end.

(** A registration that no other request overlaps: both parts on one
    store, at one reading of the clock. *)
Definition createClientHandler (now : Z) (idRnd secretRnd : string)
    (client_name : option string) (redirect_uris : RedirectUris)
    (client_id : option string) : M Response :=
  await suspended <- beforeHashSecret idRnd secretRnd client_name redirect_uris
                       client_id;
  resume now suspended.

(** [GET /api/admin/clients/:id] *)
Definition getClientHandler (clientId : string) : M Response :=
  await client <- Db.getClient clientId;
  match client with
  | None => ret (json (Error "not_found" "Client not found") 404)
  | Some client => ret (json (details client) 200)
  end.

(** [PUT /api/admin/clients/:id]; [updated!] on a missing client throws,
    which the handler's [catch] answers with a 500. *)
Definition updateClientHandler (clientId : string) (client_name : option string)
    (redirect_uris : RedirectUris) : M Response :=
  let finish (updates : Partial) : M Response :=
    await updated <- updateClient clientId updates;
    match updated with
    | Some updated => ret (json (details updated) 200)
    | None => ret (json (Error "server_error" "Internal server error") 500)
    end in
  await client <- Db.getClient clientId;
  match client with
  | None => ret (json (Error "not_found" "Client not found") 404)
  | Some _ =>
    let name := Js.truthy_val client_name in
    if falsy_uris redirect_uris then finish (mkPartial name None)
    else
      match array_of redirect_uris with
      | None => ret (json (Error "invalid_request" "redirect_uris must be an array") 400)
      | Some uris =>
        match firstInvalidUrl L uris with
        | Some uri =>
            ret (json (Error "invalid_request" ("Invalid redirect URI: " +:+ uri)) 400)
        | None => finish (mkPartial name (Some uris))
        end
      end
  end.

(** [DELETE /api/admin/clients/:id] *)
Definition deleteClientHandler (clientId : string) : M Response :=
  await deleted <- deleteClient clientId;
  if negb deleted then ret (json (Error "not_found" "Client not found") 404)
  else ret (json (Message "Client deleted successfully") 200).

End WithLib.
End Admin.

(** * The client SDK (sdk/client: AuthAgentClient) *)

Module ClientSdk.

Definition charset : string :=
  "ABCDEFGHIJKLMNOPQRSTUVWXYZabcdefghijklmnopqrstuvwxyz0123456789-._~".

(** [charset[i]] as a string; [undefined] joins as the empty string. *)
Definition charset_at (i : Z) : string :=
  match String.get (Z.to_nat i) charset with
  | Some c => String c EmptyString
  | None => ""
  end.

(** [generateRandomString(length)]; [random i] is the byte that
    [crypto.getRandomValues] puts at index [i]. *)
Definition generateRandomString (length : nat) (random : nat -> Z) : string :=
  List.fold_right String.append ""
    (List.map (fun i => charset_at (random i mod Z.of_nat (String.length charset)))
              (List.seq 0 length)).

(** The alphabet of [btoa]. *)
Definition btoa_alphabet : string :=
  "ABCDEFGHIJKLMNOPQRSTUVWXYZabcdefghijklmnopqrstuvwxyz0123456789+/".

Definition btoa_char (i : Z) : string :=
  match String.get (Z.to_nat i) btoa_alphabet with
  | Some c => String c EmptyString
  | None => ""
  end.

(** [btoa(binary)], the binary string given by its bytes: base64 with
    [=] padding. *)
Fixpoint btoa (fuel : nat) (bs : list Z) : string :=
  match fuel, bs with
  | S k, b0 :: b1 :: b2 :: rest =>
      btoa_char (Z.shiftr b0 2)
      +:+ btoa_char (Z.lor (Z.shiftl (Z.land b0 3) 4) (Z.shiftr b1 4))
      +:+ btoa_char (Z.lor (Z.shiftl (Z.land b1 15) 2) (Z.shiftr b2 6))
      +:+ btoa_char (Z.land b2 63)
      +:+ btoa k rest
  | _, [b0; b1] =>
      btoa_char (Z.shiftr b0 2)
      +:+ btoa_char (Z.lor (Z.shiftl (Z.land b0 3) 4) (Z.shiftr b1 4))
      +:+ btoa_char (Z.shiftl (Z.land b1 15) 2)
      +:+ "="
  | _, [b0] =>
      btoa_char (Z.shiftr b0 2)
      +:+ btoa_char (Z.shiftl (Z.land b0 3) 4)
      +:+ "=="
  | _, _ => ""
  end.

(** [s.replace(/c/g, d)] for a one-character pattern and replacement. *)
Fixpoint replace_all (c d : ascii) (s : string) : string :=
  match s with
  | EmptyString => EmptyString
  | String x rest =>
      String (if Ascii.eqb x c then d else x) (replace_all c d rest)
  end.

(** [s.replace(/c/g, '')] *)
Fixpoint remove_all (c : ascii) (s : string) : string :=
  match s with
  | EmptyString => EmptyString
  | String x rest =>
      if Ascii.eqb x c then remove_all c rest else String x (remove_all c rest)
  end.

(** [base64UrlEncode(buffer)] *)
Definition base64UrlEncode (buffer : list Z) : string :=
  remove_all "="
    (replace_all "/" "_"
       (replace_all "+" "-" (btoa (List.length buffer) buffer))).

(** [sha256(plain)]: the digest of the encoded text, base64url encoded. *)
Definition sha256 (plain : string) : string :=
  let data := Sha256.bytes_of_string plain in
  let hash := Sha256.digest_bytes data in
  base64UrlEncode hash.

(** [generatePKCE()]: the verifier and its challenge. *)
Definition generatePKCE (random : nat -> Z) : string * string :=
  let verifier := generateRandomString 128 random in
  let challenge := sha256 verifier in
  (verifier, challenge).

Record AuthAgentConfig := mkConfig {
  authServerUrl : string;
  clientId : string;
  redirectUri : string;
  (** [None]: the key is absent, and the constructor's default applies. *)
  scope : option string }.

(** The constructor: [{ scope: 'openid profile', ...config }]. *)
Definition config_scope (config : AuthAgentConfig) : string :=
  match scope config with
  | Some sc => sc
  | None => "openid profile"
  end.

(** [sessionStorage] *)
Abbreviation Storage := (gmap string string).

(** [signIn()]: the storage after, and the parameters of the
    authorization URL as [/authorize] reads them from the query string. *)
Definition signIn (config : AuthAgentConfig) (randomVerifier randomState : nat -> Z)
    (sessionStorage : Storage) : Authorize.Query * Storage :=
  let '(verifier, challenge) := generatePKCE randomVerifier in
  let state := generateRandomString 32 randomState in
  let sessionStorage := <["auth_agent_code_verifier" := verifier]> sessionStorage in
  let sessionStorage := <["auth_agent_state" := state]> sessionStorage in
  (Authorize.mkQuery (Some (clientId config)) (Some (redirectUri config))
                     (Some state) (Some challenge) (Some "S256")
                     (Some (config_scope config)) (Some "code"),
   sessionStorage).

Inductive CallbackResult :=
| Null
| Throws (message : string)
| Callback (code state codeVerifier : string).

(** [handleCallback()]; [code] and [state] are [params.get(...)] of the
    callback URL. *)
Definition handleCallback (code state : option string) (sessionStorage : Storage)
  : CallbackResult * Storage :=
  match Js.truthy_val code, Js.truthy_val state with
  | Some code, Some state =>
    let storedState := sessionStorage !! "auth_agent_state" in
    let codeVerifier := sessionStorage !! "auth_agent_code_verifier" in
    (* Verify state matches (CSRF protection) *)
    if negb (Js.opt_eqb storedState state) then
      (Throws "State mismatch - possible CSRF attack", sessionStorage)
    else
      match Js.truthy_val codeVerifier with
      | None => (Throws "Code verifier not found in session", sessionStorage)
      | Some codeVerifier =>
        (* Clean up session storage *)
        let sessionStorage := delete "auth_agent_state" sessionStorage in
        let sessionStorage := delete "auth_agent_code_verifier" sessionStorage in
        (Callback code state codeVerifier, sessionStorage)
      end
  | _, _ => (Null, sessionStorage)
  end.

End ClientSdk.

(** * The server SDK (sdk/server: AuthAgentServerSDK) *)

Module ServerSdk.

Record AuthAgentServerConfig := mkConfig {
  authServerUrl : string;
  clientId : string;
  clientSecret : string }.

(** A settled promise: fulfilled with a value, or rejected with an
    [Error] of that message. *)
Inductive Settled (A : Type) :=
| Fulfilled (a : A)
| Rejected (message : string).
Arguments Fulfilled {A} a.
Arguments Rejected {A} message.

(** [response.ok] *)
Definition ok (r : Response) : bool :=
  (200 <=? http_status r) && (http_status r <=? 299).

(** [error.error_description || error.error], as a template prints it. *)
Definition error_text (b : Body) : string :=
  match b with
  | OAuthError e d | AgentFailure e d => if Js.falsy_str d then e else d
  | _ => "undefined"
  end.

(** [result.active] of an answer of [/introspect]. *)
Definition active (b : Body) : bool :=
  match b with
  | Introspection Inactive => false
  | Introspection _ => true
  | _ => false
  end.

(** What the middleware does with the request: [res.status(401).json]
    with [error: 'unauthorized'], or [req.user = userInfo; next()]. *)
Inductive MiddlewareResult :=
| Unauthorized (error_description : string)
| Next (user : Body).

Section WithServer.
Context (L : Lib) (config : AuthAgentServerConfig).

(** [introspectToken(token, tokenTypeHint)]: [fetch] posts the body to
    [/introspect], which the server answers at the instant [now];
    [JSON.stringify] drops a hint that is [undefined]. *)
Definition introspectToken (now : Z) (token : string) (tokenTypeHint : option string)
  : M (Settled Body) :=
  await response <- Introspect.introspectHandler L now (Some token) tokenTypeHint
                      (Some (clientId config)) (Some (clientSecret config));
  if negb (ok response) then
    ret (Rejected ("Token introspection failed: " +:+ error_text (body response)))
  else ret (Fulfilled (body response)).

(** [validateToken(accessToken)] *)
Definition validateToken (now : Z) (accessToken : string) : M bool :=
  await result <- introspectToken now accessToken (Some "access_token");
  match result with
  | Fulfilled result => ret (active result)
  | Rejected _ => ret false
  end.

(** [getUserInfo(accessToken)] *)
Definition getUserInfo (now : Z) (accessToken : string) : M (Settled (option Body)) :=
  await result <- introspectToken now accessToken (Some "access_token");
  match result with
  | Rejected message => ret (Rejected message)
  | Fulfilled result =>
      if negb (active result) then ret (Fulfilled None)
      else ret (Fulfilled (Some result))
  end.

(** The middleware of [createAuthMiddleware()], on the [Authorization]
    header of a request. *)
Definition createAuthMiddleware (now : Z) (authorization : option string)
  : M MiddlewareResult :=
  match Js.truthy_val authorization with
  | None => ret (Unauthorized "Missing or invalid authorization header")
  | Some authHeader =>
    if negb (String.prefix "Bearer " authHeader) then
      ret (Unauthorized "Missing or invalid authorization header")
    else
      let token := String.substring 7 (String.length authHeader - 7) authHeader in
      await userInfo <- getUserInfo now token;
      match userInfo with
      | Rejected _ => ret (Unauthorized "Token validation failed")
      | Fulfilled None => ret (Unauthorized "Invalid or expired token")
      | Fulfilled (Some userInfo) => ret (Next userInfo)
      end
  end.

End WithServer.
End ServerSdk.

(** * The PKCE action of the Convex backend (convex/actions/cryptoActions.ts) *)

Module CryptoActions.

(** [validatePKCEAction]; [Buffer.from(bytes).toString('base64')] is the
    encoding [btoa] computes. *)
Definition validatePKCEAction (codeVerifier codeChallenge method : string) : bool :=
  if negb (String.eqb method "S256") then false
  else
    let data := Sha256.bytes_of_string codeVerifier in
    let hashArray := Sha256.digest_bytes data in
    let base64 :=
      ClientSdk.remove_all "="
        (ClientSdk.replace_all "/" "_"
           (ClientSdk.replace_all "+" "-"
              (ClientSdk.btoa (List.length hashArray) hashArray))) in
    String.eqb base64 codeChallenge.

End CryptoActions.

(** ** Further notions of the statements *)

(** A byte. *)
Definition is_byte (b : Z) : Prop := 0 <= b < 256.

(** The three replacements that turn base64 into base64url. *)
Definition urlsafe (s : string) : string :=
  ClientSdk.remove_all "="
    (ClientSdk.replace_all "/" "_" (ClientSdk.replace_all "+" "-" s)).

(** A character RFC 3986 calls unreserved. *)
Definition unreserved (c : ascii) : Prop :=
  Validation.is_id_char c = true \/ c = "."%char \/ c = "~"%char.

(** ** Further concrete inputs *)

Module Scenario.

(** The access token of the exchange at 5 s, as [Sim.lib] signs it. *)
Definition access1 : string :=
  "jwt|agent_ada|client_shop|model-x|openid profile|5|3605|auth-agent.com".

(** A second registered client, and the store after the exchange with
    both clients in it. *)
Definition blog : Client.t :=
  {| Client.client_id := "client_blog";
     Client.client_secret_hash := Sim.hashSecret "blog-secret";
     Client.client_name := "Blog";
     Client.allowed_redirect_uris := ["https://blog.example/callback"];
     Client.allowed_grant_types := ["authorization_code"; "refresh_token"];
     Client.created_at := 0 |}.

Definition s_two : InMemoryStore := (Db.createClient blog Sim.s_exchanged).2.

(** The SDK of the shop, and the bytes its random source yields. *)
Definition shopSdk : ClientSdk.AuthAgentConfig :=
  ClientSdk.mkConfig "https://auth.example" "client_shop"
                     "https://shop.example/callback" None.

Definition shopServerSdk : ServerSdk.AuthAgentServerConfig :=
  ServerSdk.mkConfig "https://auth.example" "client_shop" "shop-secret".

Definition random (i : nat) : Z := Z.of_nat (7 * i + 3).

End Scenario.

(** * Properties *)

Ltac unfold_db :=
  unfold Db.revokeTokenByAccessToken in *;
  unfold bind, ret, Db.getClient, Db.getAgent, Db.getAuthRequest,
    Db.updateAuthRequest, Db.deleteAuthRequest, Db.createAuthRequest,
    Db.storeAuthCode, Db.getAuthCodeRequestId, Db.deleteAuthCode,
    Db.createToken, Db.getToken, Db.getTokenByAccessToken, Db.revokeToken,
    Db.createRefreshToken, Db.getRefreshToken, Db.revokeRefreshToken in *.

(** ** JavaScript values *)

Lemma truthy_val_Some (x : option string) (s : string) :
  Js.truthy_val x = Some s <-> x = Some s /\ s <> "".
Proof.
  unfold Js.truthy_val, Js.falsy_str. destruct x as [y|].
  - destruct (String.eqb_spec y "") as [->|Hy]; split.
    + discriminate.
    + intros [[= <-] Hs]. by destruct Hs.
    + intros [= <-]. done.
    + intros [[= <-] _]. done.
  - split; [discriminate | intros [[=] _]].
Qed.

Lemma truthy_val_None (x : option string) :
  Js.truthy_val x = None <-> Js.falsy x = true.
Proof.
  unfold Js.truthy_val, Js.falsy. destruct x as [y|]; [|done].
  destruct (Js.falsy_str y); split; done.
Qed.

Lemma truthy_val_intro (s : string) : s <> "" -> Js.truthy_val (Some s) = Some s.
Proof. intros. by apply truthy_val_Some. Qed.

Lemma Status_eqb_eq (a b : AuthRequest.Status) :
  AuthRequest.Status_eqb a b = true <-> a = b.
Proof. destruct a, b; simpl; split; congruence. Qed.

Lemma Status_eqb_neq (a b : AuthRequest.Status) :
  AuthRequest.Status_eqb a b = false <-> a <> b.
Proof. destruct a, b; simpl; split; congruence. Qed.

Lemma generated_nonempty (prefix rnd : string) :
  prefix <> "" -> prefix +:+ rnd <> "".
Proof. destruct prefix; [done | discriminate]. Qed.

(** ** PKCE *)

(** SHA-256 of ["abc"] (FIPS 180-4, B.1), and the pair of RFC 7636,
    appendix B, which is the pair of the specification's happy path. *)
Example sha256_base64url_abc :
  Sha256.sha256_base64url "abc" = "ungWv48Bz-pBQUDeXa4iI7ADYaOWF3qctBD_YfIAFa0".
Proof. vm_compute. reflexivity. Qed.

Example sha256_base64url_rfc7636 :
  Sha256.sha256_base64url Sim.verifier = Sim.challenge.
Proof. vm_compute. reflexivity. Qed.

(** C9. PKCE verification is the S256 round trip: the challenge computed
    from a verifier is accepted for that verifier under ["S256"]; any other
    method is refused whatever the verifier and the challenge; and the
    answer is [true] exactly when the method is ["S256"] and the recomputed
    challenge equals the stored one. *)
Theorem validatePKCE_S256_roundtrip :
  (forall verifier : string,
      Crypto.validatePKCE verifier (Sha256.sha256_base64url verifier) "S256" = true)
  /\ (forall verifier challenge method : string,
         method <> "S256" -> Crypto.validatePKCE verifier challenge method = false)
  /\ (forall verifier challenge method : string,
         Crypto.validatePKCE verifier challenge method = true
         <-> method = "S256" /\ Sha256.sha256_base64url verifier = challenge).
Proof.
  unfold Crypto.validatePKCE. split_and!.
  - intros verifier. simpl. apply String.eqb_refl.
  - intros verifier challenge method Hm.
    apply String.eqb_neq in Hm. by rewrite Hm.
  - intros verifier challenge method.
    destruct (String.eqb_spec method "S256") as [->|Hm]; simpl.
    + rewrite String.eqb_eq. tauto.
    + split; [discriminate | tauto].
Qed.

Lemma validatePKCE_S256_roundtrip_witness :
  Crypto.validatePKCE Sim.verifier Sim.challenge "S256" = true
  /\ Crypto.validatePKCE Sim.verifier Sim.challenge "plain" = false.
Proof.
  destruct validatePKCE_S256_roundtrip as (_ & Hmethod & Hexact). split.
  - apply Hexact. split; [reflexivity | vm_compute; reflexivity].
  - apply Hmethod. discriminate.
Defined.

(** ** Revocation without a token *)

(** C10. Called with no [token], the revocation endpoint answers 200 with
    an empty JSON object at once: whatever the client credentials are
    (missing, unknown or wrong) and whatever the store holds, and the store
    is left as it was. *)
Theorem revoke_without_token_skips_client_auth
    (L : Lib) (token token_type_hint client_id client_secret : option string)
    (s : InMemoryStore) :
  Js.falsy token = true ->
  Revoke.revokeHandler L token token_type_hint client_id client_secret s
  = ({| http_status := 200; body := EmptyObject |}, s).
Proof.
  intros Hfalsy%truthy_val_None. unfold Revoke.revokeHandler. by rewrite Hfalsy.
Qed.

Lemma revoke_without_token_skips_client_auth_witness :
  Revoke.revokeHandler Sim.lib None None (Some "client_shop") (Some "not-the-secret")
                       Sim.store0
  = ({| http_status := 200; body := EmptyObject |}, Sim.store0)
  /\ Revoke.revokeHandler Sim.lib (Some "") None None None Sim.store0
     = ({| http_status := 200; body := EmptyObject |}, Sim.store0).
Proof.
  split; apply revoke_without_token_skips_client_auth; reflexivity.
Defined.

(** ** The status poll *)

(** The poll of a stored request, branch by branch. *)
Lemma checkStatus_found (now : Z) (rid : string) (s : InMemoryStore)
    (ar : AuthRequest.t) :
  rid <> "" ->
  authRequests s !! rid = Some ar ->
  CheckStatus.checkStatusHandler now (Some rid) s =
    if (AuthRequest.expires_at ar <? now)
       && AuthRequest.Status_eqb (AuthRequest.status ar) AuthRequest.pending
    then (json200 (StatusError "request_expired"),
          Db.with_authRequests (insert rid (AuthRequest.spread ar expiredPatch)) s)
    else
      match AuthRequest.Status_eqb (AuthRequest.status ar) AuthRequest.authenticated,
            Js.truthy_val (AuthRequest.code ar) with
      | true, Some code =>
          (json200 (StatusAuthenticated code (AuthRequest.state ar)
                                        (AuthRequest.redirect_uri ar)),
           Db.with_authRequests (insert rid (AuthRequest.spread ar completedPatch)) s)
      | _, _ =>
          if AuthRequest.Status_eqb (AuthRequest.status ar) AuthRequest.error
          then (json200 (StatusError (Js.or_default (AuthRequest.error_msg ar)
                                                    "Authentication failed")), s)
          else (json200 StatusPending, s)
      end.
Proof.
  intros Hrid Hlook.
  unfold CheckStatus.checkStatusHandler.
  rewrite (truthy_val_intro _ Hrid).
  unfold bind, ret, Db.getAuthRequest, Db.updateAuthRequest. rewrite Hlook.
  repeat case_match; simplify_eq; reflexivity.
Qed.

(** A poll that finds no request, or no request id, hands out no code. *)
Lemma checkStatus_absent (now : Z) (request_id : option string) (s : InMemoryStore) :
  (forall rid, Js.truthy_val request_id = Some rid -> authRequests s !! rid = None) ->
  code_of (CheckStatus.checkStatusHandler now request_id s).1 = None
  /\ (CheckStatus.checkStatusHandler now request_id s).2 = s.
Proof.
  intros Habs. unfold CheckStatus.checkStatusHandler.
  destruct (Js.truthy_val request_id) as [rid|] eqn:Hrid; [|done].
  unfold bind, ret, Db.getAuthRequest. by rewrite (Habs rid eq_refl).
Qed.

(** A poll hands out a code only for a request in [authenticated]. *)
Lemma checkStatus_code (now : Z) (rid : string) (s : InMemoryStore)
    (ar : AuthRequest.t) (c : string) :
  rid <> "" ->
  authRequests s !! rid = Some ar ->
  code_of (CheckStatus.checkStatusHandler now (Some rid) s).1 = Some c ->
  AuthRequest.status ar = AuthRequest.authenticated
  /\ Js.truthy_val (AuthRequest.code ar) = Some c.
Proof.
  intros Hrid Hlook. rewrite (checkStatus_found _ _ _ _ Hrid Hlook).
  repeat case_match; simpl; try discriminate.
  intros [= <-]. split; [by apply Status_eqb_eq | done].
Qed.

(** C3, as the code has it. For a request whose [expires_at] is in the
    past, the poll hands out the code [c] exactly when the request is in
    [authenticated] and holds [c]: the expiry test of the poll applies to
    [pending] requests only, which it moves to [expired] and answers with
    [status: "error"]. *)
Theorem expired_poll_yields_code_iff_authenticated
    (now : Z) (rid : string) (s : InMemoryStore) (ar : AuthRequest.t) (c : string) :
  rid <> "" ->
  authRequests s !! rid = Some ar ->
  AuthRequest.expires_at ar < now ->
  (code_of (CheckStatus.checkStatusHandler now (Some rid) s).1 = Some c
   <-> AuthRequest.status ar = AuthRequest.authenticated
       /\ Js.truthy_val (AuthRequest.code ar) = Some c)
  /\ (AuthRequest.status ar = AuthRequest.pending ->
      (CheckStatus.checkStatusHandler now (Some rid) s).1
      = {| http_status := 200; body := StatusError "request_expired" |}
      /\ AuthRequest.status
           <$> authRequests (CheckStatus.checkStatusHandler now (Some rid) s).2 !! rid
         = Some AuthRequest.expired).
Proof.
  intros Hrid Hlook Hexp. split; [split|].
  - by apply checkStatus_code.
  - intros [Hst Hcode]. rewrite (checkStatus_found _ _ _ _ Hrid Hlook).
    rewrite Hst, Hcode. simpl. by rewrite andb_false_r.
  - intros Hst. rewrite (checkStatus_found _ _ _ _ Hrid Hlook).
    rewrite Hst. simpl. apply Z.ltb_lt in Hexp. rewrite Hexp. simpl.
    split; [done|]. by rewrite lookup_insert_eq.
Qed.

(** ** The agent's back-channel authentication *)

(** The authentication of a stored request, branch by branch. *)
Lemma agentAuthenticate_found (L : Lib) (now : Z) (rnd rid aid asec model : string)
    (s : InMemoryStore) (ar : AuthRequest.t) :
  rid <> "" -> aid <> "" -> asec <> "" -> model <> "" ->
  authRequests s !! rid = Some ar ->
  AgentAuth.agentAuthenticateHandler L now rnd (Some rid) (Some aid) (Some asec)
                                     (Some model) s =
    if AuthRequest.expires_at ar <? now then
      (json (AgentFailure "request_expired" "Auth request has expired") 400,
       Db.with_authRequests (insert rid (AuthRequest.spread ar expiredPatch)) s)
    else if negb (AuthRequest.Status_eqb (AuthRequest.status ar) AuthRequest.pending)
    then
      (json (AgentFailure "invalid_request"
               ("Auth request is already "
                +:+ AuthRequest.Status_str (AuthRequest.status ar))) 400, s)
    else
      match agents s !! aid with
      | None =>
          (json (AgentFailure "invalid_client" "Agent not found") 401,
           Db.with_authRequests (insert rid (AuthRequest.spread ar errorPatch)) s)
      | Some agent =>
          if negb (bcrypt_compare L asec (Agent.agent_secret_hash agent)) then
            (json (AgentFailure "invalid_client" "Invalid agent credentials") 401,
             Db.with_authRequests (insert rid (AuthRequest.spread ar errorPatch)) s)
          else
            (json200 (AgentSuccess "Agent authenticated successfully"),
             Db.with_authorizationCodes
               (insert (Crypto.generateAuthCode rnd) rid)
               (Db.with_authRequests
                  (insert rid
                     (AuthRequest.spread ar
                        (authenticatedPatch aid model (Crypto.generateAuthCode rnd))))
                  s))
      end.
Proof.
  intros Hrid Haid Hasec Hmodel Hlook.
  unfold AgentAuth.agentAuthenticateHandler, AgentAuth.resume,
    AgentAuth.beforeVerifySecret, AgentAuth.afterVerifySecret.
  rewrite !truthy_val_intro by done.
  unfold_db. rewrite Hlook.
  destruct (AuthRequest.expires_at ar <? now); simpl; [by rewrite Hlook|].
  destruct (negb _); simpl; [done|].
  destruct (agents s !! aid) as [agent|]; simpl; [|by rewrite Hlook].
  destruct (negb _); simpl; by rewrite Hlook.
Qed.

(** What an authentication call may do to the request map: nothing, or
    patch the request it names. *)
Lemma agentAuthenticate_requests (L : Lib) (now : Z) (rnd : string)
    (request_id agent_id agent_secret model : option string) (s : InMemoryStore) :
  let s' := (AgentAuth.agentAuthenticateHandler L now rnd request_id agent_id
                                                agent_secret model s).2 in
  authRequests s' = authRequests s
  \/ exists rid ar patch,
       Js.truthy_val request_id = Some rid
       /\ authRequests s !! rid = Some ar
       /\ authRequests s' = <[rid := AuthRequest.spread ar patch]> (authRequests s)
       /\ ((AuthRequest.expires_at ar < now /\ patch = expiredPatch)
           \/ (~ AuthRequest.expires_at ar < now
               /\ AuthRequest.status ar = AuthRequest.pending
               /\ (patch = errorPatch
                   \/ exists a m c, patch = authenticatedPatch a m c))).
Proof.
  unfold AgentAuth.agentAuthenticateHandler, AgentAuth.resume,
    AgentAuth.beforeVerifySecret, AgentAuth.afterVerifySecret.
  destruct (Js.truthy_val request_id) as [rid|] eqn:Hr; [|by left].
  destruct (Js.truthy_val agent_id) as [aid|]; [|by left].
  destruct (Js.truthy_val agent_secret) as [asec|]; [|by left].
  destruct (Js.truthy_val model) as [mdl|]; [|by left].
  unfold_db.
  destruct (authRequests s !! rid) as [ar|] eqn:Hlook; [|by left].
  destruct (Z.ltb_spec (AuthRequest.expires_at ar) now) as [Hexp|Hexp]; simpl.
  { rewrite Hlook. right. exists rid, ar, expiredPatch. eauto 10. }
  destruct (AuthRequest.Status_eqb _ _) eqn:Hst; simpl; [|by left].
  apply Status_eqb_eq in Hst.
  assert (~ AuthRequest.expires_at ar < now) as Hnexp by lia.
  destruct (agents s !! aid) as [agent|]; simpl.
  - destruct (negb _); simpl; rewrite Hlook; simpl; right.
    + exists rid, ar, errorPatch. eauto 10.
    + exists rid, ar, (authenticatedPatch aid mdl (Crypto.generateAuthCode rnd)).
      split_and!; eauto 10.
  - rewrite Hlook. right. exists rid, ar, errorPatch. eauto 10.
Qed.

(** ** The token endpoint *)

(** The exchange of a code that resolves to a request of the
    authenticated client, from the PKCE check on. *)
Lemma authorizationCodeGrant_found (L : Lib) (now : Z)
    (tokRnd rtRnd code verifier cid csec : string) (s : InMemoryStore)
    (cl : Client.t) (rid : string) (ar : AuthRequest.t) :
  code <> "" -> verifier <> "" -> cid <> "" -> csec <> "" ->
  clients s !! cid = Some cl ->
  bcrypt_compare L csec (Client.client_secret_hash cl) = true ->
  Js.truthy_val (authorizationCodes s !! code) = Some rid ->
  authRequests s !! rid = Some ar ->
  AuthRequest.code ar = Some code ->
  AuthRequest.client_id ar = cid ->
  TokenEndpoint.handleAuthorizationCodeGrant L now tokRnd rtRnd
    (Some code) (Some verifier) (Some cid) (Some csec) s =
    if negb (Crypto.validatePKCE verifier (AuthRequest.code_challenge ar)
                                 (AuthRequest.code_challenge_method ar))
    then (json (OAuthError "invalid_grant" "Invalid PKCE code_verifier") 400, s)
    else if AuthRequest.expires_at ar <? now then
      (json (OAuthError "invalid_grant" "Authorization code expired") 400,
       Db.with_authRequests (delete rid) (Db.with_authorizationCodes (delete code) s))
    else
      match Js.truthy_val (AuthRequest.agent_id ar),
            Js.truthy_val (AuthRequest.model ar) with
      | Some agent_id, Some model =>
          let t := issuedToken L now tokRnd rtRnd cid agent_id model ar in
          (json200 (TokenResponse (Token.access_token t) "Bearer"
                                  CONFIG.ACCESS_TOKEN_EXPIRES_IN
                                  (Crypto.generateRefreshToken rtRnd)
                                  (AuthRequest.scope ar)),
           afterExchange t (issuedRefreshEntry now tokRnd rtRnd cid agent_id) code rid s)
      | _, _ =>
          (json (OAuthError "server_error"
                   "Missing agent information in auth request") 500, s)
      end.
Proof.
  intros Hcode Hver Hcid Hcsec Hcl Hsecret Hrid Hlook Hc Hclient.
  unfold TokenEndpoint.handleAuthorizationCodeGrant.
  rewrite !truthy_val_intro by done.
  unfold_db. rewrite Hcl, Hsecret. simpl. rewrite Hrid, Hlook. simpl.
  rewrite Hc, Hclient. simpl. rewrite !String.eqb_refl. simpl.
  repeat case_match; reflexivity.
Qed.

(** A successful exchange, read backwards: every check passed, and the
    store is the old one with the token and the refresh entry added and the
    code and the request removed. *)
Lemma authorizationCodeGrant_success (L : Lib) (now : Z) (tokRnd rtRnd : string)
    (code code_verifier client_id client_secret : option string)
    (s s' : InMemoryStore) (r : Response) :
  TokenEndpoint.handleAuthorizationCodeGrant L now tokRnd rtRnd
    code code_verifier client_id client_secret s = (r, s') ->
  http_status r = 200 ->
  exists code' cid cl rid ar agent_id model,
    Js.truthy_val code = Some code'
    /\ Js.truthy_val client_id = Some cid
    /\ clients s !! cid = Some cl
    /\ Js.truthy_val (authorizationCodes s !! code') = Some rid
    /\ authRequests s !! rid = Some ar
    /\ ~ AuthRequest.expires_at ar < now
    /\ s' = afterExchange (issuedToken L now tokRnd rtRnd cid agent_id model ar)
                          (issuedRefreshEntry now tokRnd rtRnd cid agent_id)
                          code' rid s.
Proof.
  unfold TokenEndpoint.handleAuthorizationCodeGrant. unfold_db.
  intros Hrun Hok.
  repeat (case_match; simplify_eq/=; try done).
  match goal with H : (_ <? _) = false |- _ => apply Z.ltb_ge in H end.
  eexists _, _, _, _, _, _, _. split_and!; eauto. lia.
Qed.

(** What the token endpoint may do to the request map: nothing, or remove
    one request. *)
Lemma tokenHandler_requests (L : Lib) (now : Z) (tokRnd rtRnd : string)
    (b : TokenEndpoint.Body) (s : InMemoryStore) :
  let s' := (TokenEndpoint.tokenHandler L now tokRnd rtRnd b s).2 in
  authRequests s' = authRequests s
  \/ exists rid, authRequests s' = delete rid (authRequests s).
Proof.
  unfold TokenEndpoint.tokenHandler, TokenEndpoint.handleAuthorizationCodeGrant,
    TokenEndpoint.handleRefreshTokenGrant.
  unfold_db.
  repeat (case_match; simplify_eq/=; eauto).
Qed.

(** A successful refresh grant, read backwards. *)
Lemma refreshTokenGrant_success (L : Lib) (now : Z) (tokRnd : string)
    (refresh_token client_id client_secret : option string)
    (s s' : InMemoryStore) (r : Response) :
  TokenEndpoint.handleRefreshTokenGrant L now tokRnd
    refresh_token client_id client_secret s = (r, s') ->
  http_status r = 200 ->
  exists rt cid entry original,
    Js.truthy_val refresh_token = Some rt
    /\ Js.truthy_val client_id = Some cid
    /\ refreshTokens s !! rt = Some entry
    /\ RefreshTokenEntry.revoked entry = false
    /\ ~ RefreshTokenEntry.expires_at entry < now
    /\ Db.tokens_get (RefreshTokenEntry.token_id entry) (tokens s) = Some original
    /\ s' = Db.with_tokens
              (Db.tokens_set (Crypto.generateTokenId tokRnd)
                             (refreshedToken L now tokRnd rt cid entry original)) s.
Proof.
  unfold TokenEndpoint.handleRefreshTokenGrant. unfold_db.
  intros Hrun Hok.
  repeat (case_match; simplify_eq/=; try done).
  match goal with H : (_ <? _) = false |- _ => apply Z.ltb_ge in H end.
  eexists _, _, _, _. split_and!; eauto. lia.
Qed.

(** C2, as the code has it. When the supplied [code_verifier] fails the
    PKCE check, the exchange answers [invalid_grant] (400) and leaves the
    store as it was: the code is not consumed, and a later exchange of the
    same code with a verifier that passes the check, before the request's
    [expires_at], is answered with a token response (200). *)
Theorem wrong_verifier_keeps_code (L : Lib) (now : Z)
    (tokRnd rtRnd code wrong cid csec : string) (s : InMemoryStore)
    (cl : Client.t) (rid : string) (ar : AuthRequest.t) :
  code <> "" -> wrong <> "" -> cid <> "" -> csec <> "" ->
  clients s !! cid = Some cl ->
  bcrypt_compare L csec (Client.client_secret_hash cl) = true ->
  Js.truthy_val (authorizationCodes s !! code) = Some rid ->
  authRequests s !! rid = Some ar ->
  AuthRequest.code ar = Some code ->
  AuthRequest.client_id ar = cid ->
  Crypto.validatePKCE wrong (AuthRequest.code_challenge ar)
                      (AuthRequest.code_challenge_method ar) = false ->
  TokenEndpoint.handleAuthorizationCodeGrant L now tokRnd rtRnd
    (Some code) (Some wrong) (Some cid) (Some csec) s
  = ({| http_status := 400;
        body := OAuthError "invalid_grant" "Invalid PKCE code_verifier" |}, s)
  /\ forall (now2 : Z) (tokRnd2 rtRnd2 verifier : string),
       verifier <> "" ->
       Crypto.validatePKCE verifier (AuthRequest.code_challenge ar)
                           (AuthRequest.code_challenge_method ar) = true ->
       ~ AuthRequest.expires_at ar < now2 ->
       is_Some (Js.truthy_val (AuthRequest.agent_id ar)) ->
       is_Some (Js.truthy_val (AuthRequest.model ar)) ->
       exists access_token refresh_token scope,
         (TokenEndpoint.handleAuthorizationCodeGrant L now2 tokRnd2 rtRnd2
            (Some code) (Some verifier) (Some cid) (Some csec) s).1
         = {| http_status := 200;
              body := TokenResponse access_token "Bearer" 3600 refresh_token scope |}.
Proof.
  intros Hcode Hwrong Hcid Hcsec Hcl Hsecret Hrid Hlook Hc Hclient Hpkce. split.
  - rewrite (authorizationCodeGrant_found L now tokRnd rtRnd code wrong cid csec
               s cl rid ar) by done.
    by rewrite Hpkce.
  - intros now2 tokRnd2 rtRnd2 verifier Hver Hok Hfresh [a Ha] [m Hm].
    rewrite (authorizationCodeGrant_found L now2 tokRnd2 rtRnd2 code verifier cid
               csec s cl rid ar) by done.
    rewrite Hok, Ha, Hm. simpl.
    destruct (Z.ltb_spec (AuthRequest.expires_at ar) now2); [lia|].
    simpl. eauto.
Qed.

(** C7. A successful authorization-code exchange removes the code mapping
    and the request it resolved to; a second exchange presenting the same
    code, with any verifier and the credentials of any client the server
    authenticates, is answered [invalid_grant] (400). *)
Theorem code_single_use (L : Lib) (now : Z) (tokRnd rtRnd code : string)
    (code_verifier client_id client_secret : option string)
    (s s' : InMemoryStore) (r : Response) :
  TokenEndpoint.handleAuthorizationCodeGrant L now tokRnd rtRnd
    (Some code) code_verifier client_id client_secret s = (r, s') ->
  http_status r = 200 ->
  authorizationCodes s' !! code = None
  /\ (forall rid, authorizationCodes s !! code = Some rid ->
                  authRequests s' !! rid = None)
  /\ forall (now2 : Z) (tokRnd2 rtRnd2 verifier2 cid2 csec2 : string) (cl2 : Client.t),
       verifier2 <> "" -> cid2 <> "" -> csec2 <> "" ->
       clients s' !! cid2 = Some cl2 ->
       bcrypt_compare L csec2 (Client.client_secret_hash cl2) = true ->
       (TokenEndpoint.handleAuthorizationCodeGrant L now2 tokRnd2 rtRnd2
          (Some code) (Some verifier2) (Some cid2) (Some csec2) s').1
       = {| http_status := 400;
            body := OAuthError "invalid_grant"
                               "Invalid or expired authorization code" |}.
Proof.
  intros Hrun Hok.
  destruct (authorizationCodeGrant_success _ _ _ _ _ _ _ _ _ _ _ Hrun Hok)
    as (code' & cid & cl & rid & ar & agent_id & model
        & Hcode & Hcid & Hcl & Hrid & Hlook & Hfresh & ->).
  apply truthy_val_Some in Hcode as [[= <-] Hne].
  apply truthy_val_Some in Hrid as [Hrid _].
  assert (authorizationCodes
            (afterExchange (issuedToken L now tokRnd rtRnd cid agent_id model ar)
               (issuedRefreshEntry now tokRnd rtRnd cid agent_id) code rid s)
          !! code = None) as Hgone by (simpl; apply lookup_delete_eq).
  split_and!.
  - exact Hgone.
  - intros rid' Hrid'. assert (rid' = rid) as -> by congruence.
    simpl. apply lookup_delete_eq.
  - intros now2 tokRnd2 rtRnd2 verifier2 cid2 csec2 cl2 Hv Hc Hs Hcl2 Hsecret.
    revert Hgone Hcl2. generalize (afterExchange
      (issuedToken L now tokRnd rtRnd cid agent_id model ar)
      (issuedRefreshEntry now tokRnd rtRnd cid agent_id) code rid s).
    intros s1 Hgone Hcl2.
    unfold TokenEndpoint.handleAuthorizationCodeGrant.
    rewrite !truthy_val_intro by done.
    unfold_db. rewrite Hcl2, Hsecret. simpl. by rewrite Hgone.
Qed.

(** C8, as the code has it. Every token record created by the token
    endpoint has [created_at = now] and
    [access_token_expires_at = now + 3 600 000 > created_at]. A record
    created by the authorization-code grant has
    [refresh_token_expires_at = now + 2 592 000 000], which is not below
    [access_token_expires_at]; a record created by the refresh grant
    carries the [expires_at] of the refresh entry unchanged, which is not
    below [access_token_expires_at] only if the refresh token has an hour
    left. *)
Theorem new_token_expiries (L : Lib) (now : Z) (tokRnd rtRnd : string)
    (b : TokenEndpoint.Body) (s s' : InMemoryStore) (r : Response) :
  TokenEndpoint.tokenHandler L now tokRnd rtRnd b s = (r, s') ->
  http_status r = 200 ->
  exists t : Token.t,
    tokens s' = Db.tokens_set (Token.token_id t) t (tokens s)
    /\ Token.created_at t = now
    /\ Token.access_token_expires_at t = now + 3600000
    /\ Token.access_token_expires_at t > Token.created_at t
    /\ ((TokenEndpoint.grant_type b = Some "authorization_code"
         /\ exists rexp, Token.refresh_token_expires_at t = Some rexp
                         /\ rexp = now + 2592000000
                         /\ rexp >= Token.access_token_expires_at t)
        \/ (TokenEndpoint.grant_type b = Some "refresh_token"
            /\ exists rt entry,
                 Js.truthy_val (TokenEndpoint.refresh_token b) = Some rt
                 /\ refreshTokens s !! rt = Some entry
                 /\ Token.refresh_token_expires_at t
                    = Some (RefreshTokenEntry.expires_at entry)
                 /\ (RefreshTokenEntry.expires_at entry
                     >= Token.access_token_expires_at t
                     <-> RefreshTokenEntry.expires_at entry >= now + 3600000))).
Proof.
  unfold TokenEndpoint.tokenHandler. intros Hrun Hok.
  destruct (Js.truthy_val (TokenEndpoint.grant_type b)) as [g|] eqn:Hg;
    [|unfold ret in Hrun; by simplify_eq/=].
  apply truthy_val_Some in Hg as [Hg _].
  destruct (String.eqb_spec g "authorization_code") as [->|_].
  { destruct (authorizationCodeGrant_success _ _ _ _ _ _ _ _ _ _ _ Hrun Hok)
      as (code' & cid & cl & rid & ar & agent_id & model & _ & _ & _ & _ & _ & _ & ->).
    exists (issuedToken L now tokRnd rtRnd cid agent_id model ar).
    simpl. unfold CONFIG.ACCESS_TOKEN_EXPIRES_IN, CONFIG.REFRESH_TOKEN_EXPIRES_IN.
    split_and!; try done; try lia.
    left. split; [done|]. eexists. split_and!; [done|lia|lia]. }
  destruct (String.eqb_spec g "refresh_token") as [->|_];
    [|unfold ret in Hrun; by simplify_eq/=].
  destruct (refreshTokenGrant_success _ _ _ _ _ _ _ _ _ Hrun Hok)
    as (rt & cid & entry & original & Hrt & _ & Hentry & _ & _ & _ & ->).
  exists (refreshedToken L now tokRnd rt cid entry original).
  simpl. unfold CONFIG.ACCESS_TOKEN_EXPIRES_IN.
  split_and!; try done; try lia.
  right. split; [done|]. exists rt, entry. split_and!; [done..|]. lia.
Qed.

(** ** The life cycle of an authorization request *)

Lemma authorize_requests (L : Lib) (now : Z) (rnd : string) (q : Authorize.Query)
    (s : InMemoryStore) :
  let s' := (Authorize.authorizeHandler L now rnd q s).2 in
  authRequests s' = authRequests s
  \/ exists ar, AuthRequest.status ar = AuthRequest.pending
                /\ authRequests s'
                   = <[Crypto.generateRequestId rnd := ar]> (authRequests s).
Proof.
  unfold Authorize.authorizeHandler. unfold_db.
  repeat (case_match; simplify_eq/=; eauto).
  right. eexists. split; [|reflexivity]. reflexivity.
Qed.

Lemma checkStatus_requests (now : Z) (request_id : option string) (s : InMemoryStore) :
  let s' := (CheckStatus.checkStatusHandler now request_id s).2 in
  authRequests s' = authRequests s
  \/ exists rid ar patch,
       authRequests s !! rid = Some ar
       /\ authRequests s' = <[rid := AuthRequest.spread ar patch]> (authRequests s)
       /\ ((AuthRequest.status ar = AuthRequest.pending
            /\ AuthRequest.expires_at ar < now /\ patch = expiredPatch)
           \/ (AuthRequest.status ar = AuthRequest.authenticated
               /\ patch = completedPatch)).
Proof.
  unfold CheckStatus.checkStatusHandler.
  destruct (Js.truthy_val request_id) as [rid|]; [|by left].
  unfold_db.
  destruct (authRequests s !! rid) as [ar|] eqn:Hlook; [|by left].
  destruct (Z.ltb_spec (AuthRequest.expires_at ar) now) as [Hexp|Hexp]; simpl.
  - destruct (AuthRequest.Status_eqb _ AuthRequest.pending) eqn:Hp; simpl.
    + apply Status_eqb_eq in Hp. rewrite Hlook. right.
      exists rid, ar, expiredPatch. eauto 10.
    + destruct (AuthRequest.Status_eqb _ AuthRequest.authenticated) eqn:Ha;
        repeat (case_match; simplify_eq/=; eauto).
      apply Status_eqb_eq in Ha. right. exists rid, ar, completedPatch. eauto 10.
  - destruct (AuthRequest.Status_eqb _ AuthRequest.authenticated) eqn:Ha;
      repeat (case_match; simplify_eq/=; eauto).
    apply Status_eqb_eq in Ha. right. exists rid, ar, completedPatch. eauto 10.
Qed.

Lemma introspect_store (L : Lib) (now : Z)
    (token token_type_hint client_id client_secret : option string) (s : InMemoryStore) :
  (Introspect.introspectHandler L now token token_type_hint client_id client_secret s).2
  = s.
Proof.
  unfold Introspect.introspectHandler, Introspect.introspectRefreshToken,
    Introspect.introspectAccessToken.
  unfold_db. repeat (case_match; simplify_eq/=; eauto).
Qed.

Lemma revoke_requests (L : Lib)
    (token token_type_hint client_id client_secret : option string) (s : InMemoryStore) :
  authRequests (Revoke.revokeHandler L token token_type_hint client_id client_secret s).2
  = authRequests s.
Proof.
  unfold Revoke.revokeHandler, Revoke.revokeRefreshToken, Revoke.revokeAccessToken.
  unfold_db. repeat (case_match; simplify_eq/=; eauto).
Qed.

Lemma cleanup_requests (now : Z) (s : InMemoryStore) (rid : string) :
  authRequests (Db.cleanupExpired now s).2 !! rid = authRequests s !! rid
  \/ authRequests (Db.cleanupExpired now s).2 !! rid = None.
Proof.
  unfold Db.cleanupExpired. simpl.
  destruct (authRequests s !! rid) as [ar|] eqn:Hlook.
  - destruct (decide (AuthRequest.expires_at ar < now)) as [Hexp|Hexp].
    + right. apply map_lookup_filter_None. right. intros x Hx. simpl.
      assert (x = ar) as -> by congruence. tauto.
    + left. apply map_lookup_filter_Some. done.
  - right. apply map_lookup_filter_None. by left.
Qed.

(** The server follows the life cycle: every event moves every request
    along one of the transitions. *)
Lemma server_request_step (L : Lib) (now : Z) (e : Event) (s : InMemoryStore)
    (rid : string) :
  request_step now e rid (authRequests s !! rid)
               (authRequests (step L now e s).2 !! rid).
Proof.
  destruct e as [r|].
  - simpl. unfold bind, ret.
    destruct (handle L now r s) as [resp s'] eqn:Hh. simpl.
    assert (s' = (handle L now r s).2) as -> by by rewrite Hh. clear Hh.
    destruct r; simpl.
    + destruct (authorize_requests L now rnd q s) as [->|(ar & Hst & ->)];
        [constructor|].
      destruct (decide (Crypto.generateRequestId rnd = rid)) as [<-|Hne].
      * rewrite lookup_insert_eq. by apply step_created.
      * rewrite lookup_insert_ne by done. constructor.
    + destruct (agentAuthenticate_requests L now rnd request_id agent_id
                  agent_secret model s)
        as [->|(rid' & ar & patch & Hr & Hlook & -> & Hcase)]; [constructor|].
      destruct (decide (rid' = rid)) as [->|Hne];
        [|rewrite lookup_insert_ne by done; constructor].
      rewrite lookup_insert_eq, Hlook.
      destruct Hcase as [[Hexp ->]|(Hexp & Hst & [->|(a & m & c & ->)])].
      * by apply step_agent_expired.
      * by apply step_agent_refused.
      * by apply step_agent_accepted.
    + destruct (checkStatus_requests now request_id s)
        as [->|(rid' & ar & patch & Hlook & -> & Hcase)]; [constructor|].
      destruct (decide (rid' = rid)) as [->|Hne];
        [|rewrite lookup_insert_ne by done; constructor].
      rewrite lookup_insert_eq, Hlook.
      destruct Hcase as [(Hst & Hexp & ->)|(Hst & ->)].
      * by apply step_poll_expired.
      * by apply step_poll_delivered.
    + destruct (tokenHandler_requests L now tokRnd rtRnd b s) as [->|(rid' & ->)];
        [constructor|].
      destruct (decide (rid' = rid)) as [->|Hne].
      * rewrite lookup_delete_eq. constructor.
      * rewrite lookup_delete_ne by done. constructor.
    + rewrite introspect_store. constructor.
    + rewrite revoke_requests. constructor.
  - change (step L now Sweep s).2 with (Db.cleanupExpired now s).2.
    destruct (cleanup_requests now s rid) as [->| ->]; constructor.
Qed.

(** A request in a terminal status keeps its status, or is removed, under
    every transition but the creation of a request under its id and an
    authentication call that finds it past its [expires_at]. *)
Lemma request_step_terminal (now : Z) (e : Event) (rid : string)
    (ar : AuthRequest.t) (o' : option AuthRequest.t) :
  request_step now e rid (Some ar) o' ->
  terminal (AuthRequest.status ar) ->
  ~ creates e rid ->
  (authenticates e rid -> ~ AuthRequest.expires_at ar < now) ->
  o' = None
  \/ exists ar', o' = Some ar' /\ AuthRequest.status ar' = AuthRequest.status ar.
Proof.
  intros Hstep Hterm Hfresh Hauth.
  inversion Hstep; subst; eauto;
    try (exfalso; unfold terminal in Hterm; intuition congruence).
Qed.

(** A spent request stays spent as long as no request is created under
    its id. *)
Lemma request_step_spent (now : Z) (e : Event) (rid : string)
    (o o' : option AuthRequest.t) :
  request_step now e rid o o' -> spent o -> ~ creates e rid -> spent o'.
Proof.
  intros Hstep Hspent Hfresh.
  inversion Hstep; subst; simpl in *; try done;
    try (exfalso; unfold terminal in Hspent; intuition congruence).
  unfold terminal. auto.
Qed.

Lemma run_spent (L : Lib) (rid : string) (trace : list (Z * Event)) :
  forall s : InMemoryStore,
    Forall (fun ne => ~ creates ne.2 rid) trace ->
    spent (authRequests s !! rid) ->
    spent (authRequests (run L trace s) !! rid).
Proof.
  induction trace as [|[now e] rest IH]; intros s Hfresh Hspent; [done|].
  inversion Hfresh as [|? ? Hhead Hrest]; subst. simpl.
  apply IH; [done|].
  eapply request_step_spent; [apply server_request_step|done|done].
Qed.

(** The poll of a spent request hands out no code. *)
Lemma checkStatus_spent (now : Z) (rid : string) (s : InMemoryStore) :
  rid <> "" ->
  spent (authRequests s !! rid) ->
  code_of (CheckStatus.checkStatusHandler now (Some rid) s).1 = None.
Proof.
  intros Hrid Hspent.
  destruct (authRequests s !! rid) as [ar|] eqn:Hlook.
  - destruct (code_of _) as [c|] eqn:Hc; [|done].
    destruct (checkStatus_code _ _ _ _ _ Hrid Hlook Hc) as [Hst _].
    simpl in Hspent. unfold terminal in Hspent. intuition congruence.
  - apply checkStatus_absent. intros rid' [[= <-] _]%truthy_val_Some. done.
Qed.

(** Terminal statuses in a run of whole calls.  [step] takes each call
    from its first line to its last, so this is about calls that no other
    request overlaps.  There a request in [completed], [expired] or
    [error] keeps its status (or is removed) under every event, except
    that an authentication call made after its [expires_at] sets it to
    [expired]; and an authentication call on a request that is not
    [pending], made before its [expires_at], leaves the store as it was
    and answers [invalid_request] (400) naming the current status. *)
Lemma sequential_terminal_status (L : Lib) (now : Z) (s : InMemoryStore)
    (rid : string) (ar : AuthRequest.t) :
  authRequests s !! rid = Some ar ->
  (forall e : Event,
      terminal (AuthRequest.status ar) ->
      ~ creates e rid ->
      (authenticates e rid -> ~ AuthRequest.expires_at ar < now) ->
      authRequests (step L now e s).2 !! rid = None
      \/ exists ar', authRequests (step L now e s).2 !! rid = Some ar'
                     /\ AuthRequest.status ar' = AuthRequest.status ar)
  /\ (forall rnd agent_id agent_secret model : string,
         rid <> "" -> agent_id <> "" -> agent_secret <> "" -> model <> "" ->
         AuthRequest.status ar <> AuthRequest.pending ->
         ~ AuthRequest.expires_at ar < now ->
         AgentAuth.agentAuthenticateHandler L now rnd (Some rid) (Some agent_id)
                                            (Some agent_secret) (Some model) s
         = ({| http_status := 400;
               body := AgentFailure "invalid_request"
                         ("Auth request is already "
                          +:+ AuthRequest.Status_str (AuthRequest.status ar)) |}, s)).
Proof.
  intros Hlook. split.
  - intros e Hterm Hfresh Hauth.
    eapply request_step_terminal; [|done..].
    rewrite <- Hlook. apply server_request_step.
  - intros rnd aid asec model Hrid Haid Hasec Hmodel Hst Hexp.
    rewrite (agentAuthenticate_found L now rnd rid aid asec model s ar) by done.
    destruct (Z.ltb_spec (AuthRequest.expires_at ar) now); [lia|].
    apply Status_eqb_neq in Hst. by rewrite Hst.
Qed.

(** C5. An authentication call on a request past its [expires_at] answers
    [request_expired] (400) and leaves the request in [expired]; the code
    then answers every later poll of that request with [status: "pending"]
    and leaves the store as it is, where the specification has
    [status: "error"]. *)
Theorem poll_after_request_expired (L : Lib) (now : Z)
    (rnd rid agent_id agent_secret model : string) (s : InMemoryStore)
    (ar : AuthRequest.t) :
  rid <> "" -> agent_id <> "" -> agent_secret <> "" -> model <> "" ->
  authRequests s !! rid = Some ar ->
  AuthRequest.expires_at ar < now ->
  let after :=
    AgentAuth.agentAuthenticateHandler L now rnd (Some rid) (Some agent_id)
                                       (Some agent_secret) (Some model) s in
  after.1 = {| http_status := 400;
               body := AgentFailure "request_expired" "Auth request has expired" |}
  /\ AuthRequest.status <$> authRequests after.2 !! rid = Some AuthRequest.expired
  /\ forall now' : Z,
       CheckStatus.checkStatusHandler now' (Some rid) after.2
       = ({| http_status := 200; body := StatusPending |}, after.2).
Proof.
  intros Hrid Haid Hasec Hmodel Hlook Hexp. simpl.
  rewrite (agentAuthenticate_found L now rnd rid agent_id agent_secret model s ar)
    by done.
  apply Z.ltb_lt in Hexp. rewrite Hexp. simpl.
  rewrite lookup_insert_eq. split_and!; [done..|].
  intros now'.
  erewrite checkStatus_found; [|done|simpl; apply lookup_insert_eq].
  simpl. by rewrite andb_false_r.
Qed.

(** Single delivery in a run of whole calls.  The first poll that finds
    the request in [authenticated] answers with the code, the state and
    the redirect URI and leaves the request in [completed]; after that,
    whatever whole calls follow (none of them creating a request under the
    same id, none of them begun before the poll), no poll of that request
    id hands out a code. *)
Lemma sequential_single_delivery (L : Lib) (now : Z) (rid : string)
    (s : InMemoryStore) (ar : AuthRequest.t) (c : string) :
  rid <> "" ->
  authRequests s !! rid = Some ar ->
  AuthRequest.status ar = AuthRequest.authenticated ->
  Js.truthy_val (AuthRequest.code ar) = Some c ->
  let first := CheckStatus.checkStatusHandler now (Some rid) s in
  first.1 = {| http_status := 200;
               body := StatusAuthenticated c (AuthRequest.state ar)
                                           (AuthRequest.redirect_uri ar) |}
  /\ AuthRequest.status <$> authRequests first.2 !! rid = Some AuthRequest.completed
  /\ forall (trace : list (Z * Event)) (now' : Z),
       Forall (fun ne => ~ creates ne.2 rid) trace ->
       code_of (CheckStatus.checkStatusHandler now' (Some rid)
                                               (run L trace first.2)).1 = None.
Proof.
  intros Hrid Hlook Hst Hcode. simpl.
  rewrite (checkStatus_found _ _ _ _ Hrid Hlook), Hst, Hcode. simpl.
  rewrite andb_false_r. simpl. rewrite lookup_insert_eq.
  split_and!; [done..|].
  intros trace now' Hfresh.
  apply checkStatus_spent; [done|].
  apply run_spent; [done|].
  simpl. rewrite lookup_insert_eq. simpl. unfold terminal. auto.
Qed.

(** ** Overlapping calls

    [agentAuthenticateHandler] and [createClientHandler] each give the
    event loop back once, at the bcrypt call.  What follows is about the
    two parts of each handler taken apart, with other requests served in
    between. *)

(** A call for a stored, pending request that has not expired, by a
    stored agent, reaches [await verifySecret] without a write. *)
Lemma beforeVerifySecret_pending (now : Z) (rid aid asec model : string)
    (s : InMemoryStore) (ar : AuthRequest.t) (ag : Agent.t) :
  rid <> "" -> aid <> "" -> asec <> "" -> model <> "" ->
  authRequests s !! rid = Some ar ->
  AuthRequest.status ar = AuthRequest.pending ->
  ~ AuthRequest.expires_at ar < now ->
  agents s !! aid = Some ag ->
  AgentAuth.beforeVerifySecret now (Some rid) (Some aid) (Some asec) (Some model) s
  = (AgentAuth.Verifying rid aid asec model ag, s).
Proof.
  intros Hrid Haid Hasec Hmodel Har Hpending Hlive Hag.
  unfold AgentAuth.beforeVerifySecret. rewrite !truthy_val_intro by done.
  unfold_db. rewrite Har.
  destruct (Z.ltb_spec (AuthRequest.expires_at ar) now) as [?|_]; [lia|].
  rewrite Hpending. cbn [AuthRequest.Status_eqb negb]. by rewrite Hag.
Qed.

(** What the second part of the handler does, on any store. *)
Lemma afterVerifySecret_spec (rnd rid aid model : string) (isValidSecret : bool)
    (s : InMemoryStore) :
  AgentAuth.afterVerifySecret rnd rid aid model isValidSecret s
  = if isValidSecret
    then (json200 (AgentSuccess "Agent authenticated successfully"),
          Db.with_authorizationCodes
            (insert (Crypto.generateAuthCode rnd) rid)
            (patched rid (authenticatedPatch aid model (Crypto.generateAuthCode rnd)) s))
    else (json (AgentFailure "invalid_client" "Invalid agent credentials") 401,
          patched rid errorPatch s).
Proof.
  unfold AgentAuth.afterVerifySecret, patched. unfold_db.
  destruct isValidSecret; cbn [negb]; by destruct (authRequests s !! rid).
Qed.

Lemma patched_lookup (rid : string) (patch : AuthRequest.Partial) (s : InMemoryStore)
    (ar : AuthRequest.t) :
  authRequests s !! rid = Some ar ->
  authRequests (patched rid patch s) !! rid = Some (AuthRequest.spread ar patch).
Proof.
  intros Har. unfold patched. rewrite Har.
  cbn [authRequests Db.with_authRequests]. by rewrite lookup_insert_eq.
Qed.

(** Two calls for one pending request that both reach [await verifySecret]
    before either goes on, the first with the right secret; the page
    polls between the two continuations.  The stores along the way. *)
Lemma overlapped_calls (L : Lib) (t1 t2 t3 : Z)
    (rnd1 rnd2 rid aid asec1 asec2 model1 model2 : string) (s : InMemoryStore)
    (ar : AuthRequest.t) (ag : Agent.t) :
  rid <> "" -> aid <> "" -> asec1 <> "" -> asec2 <> "" ->
  model1 <> "" -> model2 <> "" ->
  authRequests s !! rid = Some ar ->
  AuthRequest.status ar = AuthRequest.pending ->
  ~ AuthRequest.expires_at ar < t1 -> ~ AuthRequest.expires_at ar < t2 ->
  agents s !! aid = Some ag ->
  bcrypt_compare L asec1 (Agent.agent_secret_hash ag) = true ->
  let begun1 := AgentAuth.beforeVerifySecret t1 (Some rid) (Some aid) (Some asec1)
                                             (Some model1) s in
  let begun2 := AgentAuth.beforeVerifySecret t2 (Some rid) (Some aid) (Some asec2)
                                             (Some model2) begun1.2 in
  let ended1 := AgentAuth.resume L rnd1 begun1.1 begun2.2 in
  let poll1 := CheckStatus.checkStatusHandler t3 (Some rid) ended1.2 in
  let ended2 := AgentAuth.resume L rnd2 begun2.1 poll1.2 in
  let code1 := Crypto.generateAuthCode rnd1 in
  let delivered :=
    AuthRequest.spread (AuthRequest.spread ar (authenticatedPatch aid model1 code1))
                       completedPatch in
  begun2.2 = s
  /\ ended1.1 = json200 (AgentSuccess "Agent authenticated successfully")
  /\ poll1.1 = json200 (StatusAuthenticated code1 (AuthRequest.state ar)
                                            (AuthRequest.redirect_uri ar))
  /\ authRequests poll1.2 !! rid = Some delivered
  /\ ended2
     = AgentAuth.afterVerifySecret rnd2 rid aid model2
         (bcrypt_compare L asec2 (Agent.agent_secret_hash ag)) poll1.2.
Proof.
  intros Hrid Haid Hasec1 Hasec2 Hmodel1 Hmodel2 Har Hpending Hlive1 Hlive2 Hag
    Hsecret.
  cbn zeta.
  rewrite (beforeVerifySecret_pending t1 rid aid asec1 model1 s ar ag) by done.
  cbn [fst snd].
  rewrite (beforeVerifySecret_pending t2 rid aid asec2 model2 s ar ag) by done.
  cbn [fst snd AgentAuth.resume]. rewrite Hsecret.
  rewrite afterVerifySecret_spec. cbn [fst snd].
  set (code1 := Crypto.generateAuthCode rnd1).
  set (s1 := Db.with_authorizationCodes _ _).
  assert (authRequests s1 !! rid
          = Some (AuthRequest.spread ar (authenticatedPatch aid model1 code1)))
    as Har1 by (by apply patched_lookup).
  rewrite (checkStatus_found t3 rid s1 _ Hrid Har1).
  cbn [AuthRequest.spread AuthRequest.status AuthRequest.code AuthRequest.expires_at
       AuthRequest.state AuthRequest.redirect_uri authenticatedPatch
       AuthRequest.p_status AuthRequest.p_code AuthRequest.over AuthRequest.over_opt
       AuthRequest.Status_eqb].
  rewrite andb_false_r.
  rewrite truthy_val_intro by (by apply generated_nonempty).
  cbn [fst snd]. split_and!; try reflexivity.
  cbn [authRequests Db.with_authRequests]. by rewrite lookup_insert_eq.
Qed.

(** C6. The code is handed out more than once when two calls of the
    agent's endpoint overlap: both pass the status test before either
    writes; the first authenticates the request and a poll delivers its
    code and marks the request [completed]; the second then writes
    [authenticated] and a new code over the completed request, and the
    next poll of the same request id delivers a code again. *)
Theorem overlapping_calls_deliver_code_twice (L : Lib) (t1 t2 t3 t4 : Z)
    (rnd1 rnd2 rid aid asec model1 model2 : string) (s : InMemoryStore)
    (ar : AuthRequest.t) (ag : Agent.t) :
  rid <> "" -> aid <> "" -> asec <> "" -> model1 <> "" -> model2 <> "" ->
  authRequests s !! rid = Some ar ->
  AuthRequest.status ar = AuthRequest.pending ->
  ~ AuthRequest.expires_at ar < t1 -> ~ AuthRequest.expires_at ar < t2 ->
  agents s !! aid = Some ag ->
  bcrypt_compare L asec (Agent.agent_secret_hash ag) = true ->
  let begun1 := AgentAuth.beforeVerifySecret t1 (Some rid) (Some aid) (Some asec)
                                             (Some model1) s in
  let begun2 := AgentAuth.beforeVerifySecret t2 (Some rid) (Some aid) (Some asec)
                                             (Some model2) begun1.2 in
  let ended1 := AgentAuth.resume L rnd1 begun1.1 begun2.2 in
  let poll1 := CheckStatus.checkStatusHandler t3 (Some rid) ended1.2 in
  let ended2 := AgentAuth.resume L rnd2 begun2.1 poll1.2 in
  let poll2 := CheckStatus.checkStatusHandler t4 (Some rid) ended2.2 in
  ended1.1 = json200 (AgentSuccess "Agent authenticated successfully")
  /\ poll1.1 = json200 (StatusAuthenticated (Crypto.generateAuthCode rnd1)
                          (AuthRequest.state ar) (AuthRequest.redirect_uri ar))
  /\ AuthRequest.status <$> authRequests poll1.2 !! rid = Some AuthRequest.completed
  /\ ended2.1 = json200 (AgentSuccess "Agent authenticated successfully")
  /\ poll2.1 = json200 (StatusAuthenticated (Crypto.generateAuthCode rnd2)
                          (AuthRequest.state ar) (AuthRequest.redirect_uri ar)).
Proof.
  intros Hrid Haid Hasec Hmodel1 Hmodel2 Har Hpending Hlive1 Hlive2 Hag Hsecret.
  destruct (overlapped_calls L t1 t2 t3 rnd1 rnd2 rid aid asec asec model1 model2
              s ar ag) as (_ & Hended1 & Hpoll1 & Hdelivered & Hended2); try done.
  cbn zeta in *. rewrite Hended2, Hsecret, afterVerifySecret_spec.
  cbn [fst snd].
  split_and!; [done|done|by rewrite Hdelivered|done|].
  set (code2 := Crypto.generateAuthCode rnd2).
  erewrite checkStatus_found;
    [|done|cbn [authRequests Db.with_authorizationCodes];
           by apply patched_lookup, Hdelivered].
  cbn [AuthRequest.spread AuthRequest.status AuthRequest.code AuthRequest.expires_at
       AuthRequest.state AuthRequest.redirect_uri authenticatedPatch completedPatch
       AuthRequest.p_status AuthRequest.p_code AuthRequest.over AuthRequest.over_opt
       AuthRequest.Status_eqb].
  rewrite andb_false_r.
  by rewrite truthy_val_intro by (by apply generated_nonempty).
Qed.

(** C4. A terminal status does not last, in two ways.  An authentication
    call made after [expires_at] tests the expiry before the status: it
    answers [request_expired] before it reaches [await verifySecret] and
    sets the status to [expired] whatever it was, so [completed] and
    [error] become [expired].  And of two overlapping calls for a pending
    request, the second goes on after a poll has completed the request
    and writes without testing the status again, leaving the request
    [authenticated] when its secret verifies and [error] when it does
    not, whatever the time. *)
Theorem terminal_status_overwritten (L : Lib) (t1 t2 t3 : Z)
    (rnd1 rnd2 rid aid asec1 asec2 model1 model2 : string) (s : InMemoryStore)
    (ar : AuthRequest.t) (ag : Agent.t) :
  rid <> "" -> aid <> "" -> asec1 <> "" -> asec2 <> "" ->
  model1 <> "" -> model2 <> "" ->
  authRequests s !! rid = Some ar ->
  (forall now : Z,
      AuthRequest.expires_at ar < now ->
      let late := AgentAuth.beforeVerifySecret now (Some rid) (Some aid) (Some asec1)
                                               (Some model1) s in
      late.1 = AgentAuth.Answered
                 (json (AgentFailure "request_expired" "Auth request has expired") 400)
      /\ AuthRequest.status <$> authRequests late.2 !! rid = Some AuthRequest.expired)
  /\ (AuthRequest.status ar = AuthRequest.pending ->
      ~ AuthRequest.expires_at ar < t1 -> ~ AuthRequest.expires_at ar < t2 ->
      agents s !! aid = Some ag ->
      bcrypt_compare L asec1 (Agent.agent_secret_hash ag) = true ->
      let begun1 := AgentAuth.beforeVerifySecret t1 (Some rid) (Some aid) (Some asec1)
                                                 (Some model1) s in
      let begun2 := AgentAuth.beforeVerifySecret t2 (Some rid) (Some aid) (Some asec2)
                                                 (Some model2) begun1.2 in
      let ended1 := AgentAuth.resume L rnd1 begun1.1 begun2.2 in
      let poll1 := CheckStatus.checkStatusHandler t3 (Some rid) ended1.2 in
      let ended2 := AgentAuth.resume L rnd2 begun2.1 poll1.2 in
      AuthRequest.status <$> authRequests poll1.2 !! rid = Some AuthRequest.completed
      /\ AuthRequest.expires_at <$> authRequests poll1.2 !! rid
         = Some (AuthRequest.expires_at ar)
      /\ AuthRequest.status <$> authRequests ended2.2 !! rid
         = Some (if bcrypt_compare L asec2 (Agent.agent_secret_hash ag)
                 then AuthRequest.authenticated else AuthRequest.error)).
Proof.
  intros Hrid Haid Hasec1 Hasec2 Hmodel1 Hmodel2 Har. split.
  - intros now Hexpired. cbn zeta.
    unfold AgentAuth.beforeVerifySecret. rewrite !truthy_val_intro by done.
    unfold_db. rewrite Har.
    destruct (Z.ltb_spec (AuthRequest.expires_at ar) now) as [_|?]; [|lia].
    rewrite Har. cbn [fst snd authRequests Db.with_authRequests].
    by rewrite lookup_insert_eq.
  - intros Hpending Hlive1 Hlive2 Hag Hsecret.
    destruct (overlapped_calls L t1 t2 t3 rnd1 rnd2 rid aid asec1 asec2 model1 model2
                s ar ag) as (_ & _ & _ & Hdelivered & Hended2); try done.
    cbn zeta in *. rewrite Hended2, afterVerifySecret_spec, Hdelivered.
    split_and!; [done|done|].
    destruct (bcrypt_compare L asec2 (Agent.agent_secret_hash ag)); cbn [snd].
    + cbn [authRequests Db.with_authorizationCodes].
      by rewrite (patched_lookup _ _ _ _ Hdelivered).
    + by rewrite (patched_lookup _ _ _ _ Hdelivered).
Qed.

(** ** Refresh, then revoke *)

Lemma tokens_get_Some (k : string) (l : list Token.t) (t : Token.t) :
  Db.tokens_get k l = Some t -> In t l /\ Token.token_id t = k.
Proof.
  unfold Db.tokens_get. intros [Hin Heq]%List.find_some.
  by apply String.eqb_eq in Heq.
Qed.

Lemma tokens_set_fresh (k : string) (v : Token.t) (l : list Token.t) :
  List.Forall (fun t => Token.token_id t <> k) l ->
  Db.tokens_set k v l = l ++ [v].
Proof.
  induction 1 as [|t l Ht _ IH]; simpl; [done|].
  apply String.eqb_neq in Ht. by rewrite Ht, IH.
Qed.

Lemma tokens_set_app (k : string) (v o : Token.t) (l l2 : list Token.t) :
  Db.tokens_get k l = Some o ->
  Db.tokens_set k v (l ++ l2) = Db.tokens_set k v l ++ l2.
Proof.
  unfold Db.tokens_get. induction l as [|t l IH]; simpl; [done|].
  destruct (String.eqb (Token.token_id t) k); [done|].
  intros Hfind. by rewrite IH.
Qed.

Lemma tokens_set_Forall (P : Token.t -> Prop) (k : string) (v : Token.t)
    (l : list Token.t) :
  P v -> List.Forall P l -> List.Forall P (Db.tokens_set k v l).
Proof.
  intros Hv. induction 1 as [|t l Ht Hl IH]; simpl; [by repeat constructor|].
  destruct (String.eqb (Token.token_id t) k); by constructor.
Qed.

Lemma tokens_get_app (k : string) (o : Token.t) (l l2 : list Token.t) :
  Db.tokens_get k l = Some o -> Db.tokens_get k (l ++ l2) = Some o.
Proof.
  unfold Db.tokens_get. induction l as [|t l IH]; simpl; [done|].
  destruct (String.eqb (Token.token_id t) k); [done|]. exact IH.
Qed.

Lemma find_access_last (a : string) (v : Token.t) (l : list Token.t) :
  List.Forall (fun t => Token.access_token t <> a) l ->
  Token.access_token v = a ->
  List.find (fun x => String.eqb (Token.access_token x) a) (l ++ [v]) = Some v.
Proof.
  intros Hl Hv. induction Hl as [|t l Ht _ IH]; simpl.
  - apply String.eqb_eq in Hv. by rewrite Hv.
  - apply String.eqb_neq in Ht. by rewrite Ht.
Qed.

(** The refresh grant for a live refresh token of the authenticated client. *)
Lemma refreshTokenGrant_found (L : Lib) (now : Z) (tokRnd rt cid csec : string)
    (s : InMemoryStore) (cl : Client.t) (entry : RefreshTokenEntry.t)
    (original : Token.t) :
  rt <> "" -> cid <> "" -> csec <> "" ->
  clients s !! cid = Some cl ->
  bcrypt_compare L csec (Client.client_secret_hash cl) = true ->
  refreshTokens s !! rt = Some entry ->
  RefreshTokenEntry.revoked entry = false ->
  ~ RefreshTokenEntry.expires_at entry < now ->
  RefreshTokenEntry.client_id entry = cid ->
  Db.tokens_get (RefreshTokenEntry.token_id entry) (tokens s) = Some original ->
  TokenEndpoint.handleRefreshTokenGrant L now tokRnd (Some rt) (Some cid) (Some csec) s
  = (json200 (TokenResponse (jwt_sign L (refreshedPayload now cid entry original))
                            "Bearer" CONFIG.ACCESS_TOKEN_EXPIRES_IN rt
                            (Token.scope original)),
     Db.with_tokens
       (Db.tokens_set (Crypto.generateTokenId tokRnd)
                      (refreshedToken L now tokRnd rt cid entry original)) s).
Proof.
  intros Hrt Hcid Hcsec Hcl Hsecret Hentry Hrev Hexp Hclient Horig.
  unfold TokenEndpoint.handleRefreshTokenGrant.
  rewrite !truthy_val_intro by done.
  unfold_db. rewrite Hcl, Hsecret. simpl. rewrite Hentry, Hrev.
  destruct (Z.ltb_spec (RefreshTokenEntry.expires_at entry) now); [lia|].
  rewrite Hclient, String.eqb_refl. simpl. by rewrite Horig.
Qed.

(** The revocation of a stored refresh token by its client: the entry is
    flagged, and so is the one token record the entry points to. *)
Lemma revokeRefreshToken_found (L : Lib) (rt cid csec : string) (s : InMemoryStore)
    (cl : Client.t) (entry : RefreshTokenEntry.t) (linked : Token.t) :
  rt <> "" -> cid <> "" -> csec <> "" ->
  clients s !! cid = Some cl ->
  bcrypt_compare L csec (Client.client_secret_hash cl) = true ->
  refreshTokens s !! rt = Some entry ->
  RefreshTokenEntry.client_id entry = cid ->
  Db.tokens_get (RefreshTokenEntry.token_id entry) (tokens s) = Some linked ->
  Revoke.revokeHandler L (Some rt) (Some "refresh_token") (Some cid) (Some csec) s
  = (json200 EmptyObject,
     Db.with_tokens
       (Db.tokens_set (RefreshTokenEntry.token_id entry) (Token.revoke linked))
       (Db.with_refreshTokens (insert rt (RefreshTokenEntry.revoke entry)) s)).
Proof.
  intros Hrt Hcid Hcsec Hcl Hsecret Hentry Hclient Hlinked.
  destruct (tokens_get_Some _ _ _ Hlinked) as [_ Hid].
  unfold Revoke.revokeHandler, Revoke.revokeRefreshToken.
  rewrite !truthy_val_intro by done.
  unfold_db. rewrite Hcl, Hsecret. simpl. rewrite Hentry.
  rewrite Hclient, String.eqb_refl. simpl. rewrite Hentry. simpl.
  rewrite Hlinked. simpl. rewrite Hid, Hlinked. done.
Qed.

(** The introspection of an access token that passes every check. *)
Lemma introspectAccessToken_active (L : Lib) (now : Z) (token cid csec : string)
    (s : InMemoryStore) (cl : Client.t) (payload : JWTPayload.t)
    (tokenEntry : Token.t) :
  token <> "" -> cid <> "" -> csec <> "" ->
  clients s !! cid = Some cl ->
  bcrypt_compare L csec (Client.client_secret_hash cl) = true ->
  jwt_decode L token = Some payload ->
  JWTPayload.iss payload = CONFIG.JWT_ISSUER ->
  now / 1000 < JWTPayload.exp payload ->
  List.find (fun x => String.eqb (Token.access_token x) token) (tokens s)
  = Some tokenEntry ->
  Token.revoked tokenEntry = false ->
  Token.client_id tokenEntry = cid ->
  Introspect.introspectHandler L now (Some token) None (Some cid) (Some csec) s
  = (json200 (Introspection
                (ActiveAccess (JWTPayload.scope payload) (JWTPayload.client_id payload)
                              (JWTPayload.exp payload) (JWTPayload.iat payload)
                              (JWTPayload.sub payload) (JWTPayload.iss payload)
                              (JWTPayload.model payload))), s).
Proof.
  intros Htoken Hcid Hcsec Hcl Hsecret Hdecode Hiss Hexp Hfind Hrev Hclient.
  unfold Introspect.introspectHandler, Introspect.introspectAccessToken,
    Jwt.verifyAccessToken.
  rewrite !truthy_val_intro by done.
  unfold_db. rewrite Hcl, Hsecret, Hdecode, Hiss, String.eqb_refl. simpl.
  destruct (Z.leb_spec (JWTPayload.exp payload) (now / 1000)); [lia|]. simpl.
  rewrite Hfind, Hrev, Hclient, String.eqb_refl. simpl.
  destruct (Z.ltb_spec (JWTPayload.exp payload) (now / 1000)); [lia|].
  by rewrite Hiss.
Qed.

(** The introspection of a revoked refresh token. *)
Lemma introspectRefreshToken_revoked (L : Lib) (now : Z) (rt cid csec : string)
    (s : InMemoryStore) (cl : Client.t) (entry : RefreshTokenEntry.t) :
  rt <> "" -> cid <> "" -> csec <> "" ->
  clients s !! cid = Some cl ->
  bcrypt_compare L csec (Client.client_secret_hash cl) = true ->
  refreshTokens s !! rt = Some entry ->
  RefreshTokenEntry.revoked entry = true ->
  Introspect.introspectHandler L now (Some rt) (Some "refresh_token")
                               (Some cid) (Some csec) s
  = (json200 (Introspection Inactive), s).
Proof.
  intros Hrt Hcid Hcsec Hcl Hsecret Hentry Hrev.
  unfold Introspect.introspectHandler, Introspect.introspectRefreshToken.
  rewrite !truthy_val_intro by done.
  unfold_db. rewrite Hcl, Hsecret. simpl. by rewrite Hentry, Hrev.
Qed.

(** C1. A client refreshes with a live refresh token and receives a new
    access token with the same refresh token; it then revokes the refresh
    token.  The refresh token is inactive afterwards, but the code still
    reports the new access token as active: the revocation flags only the
    token record the refresh entry points to, which is the one of the
    first exchange. *)
Theorem refresh_revocation_misses_refreshed_token (L : Lib) (now later : Z)
    (tokRnd rt cid csec : string) (s : InMemoryStore) (cl : Client.t)
    (entry : RefreshTokenEntry.t) (original : Token.t) :
  rt <> "" -> cid <> "" -> csec <> "" ->
  clients s !! cid = Some cl ->
  bcrypt_compare L csec (Client.client_secret_hash cl) = true ->
  refreshTokens s !! rt = Some entry ->
  RefreshTokenEntry.revoked entry = false ->
  ~ RefreshTokenEntry.expires_at entry < now ->
  RefreshTokenEntry.client_id entry = cid ->
  Db.tokens_get (RefreshTokenEntry.token_id entry) (tokens s) = Some original ->
  let payload := refreshedPayload now cid entry original in
  let access := jwt_sign L payload in
  access <> "" ->
  jwt_decode L access = Some payload ->
  List.Forall (fun t => Token.token_id t <> Crypto.generateTokenId tokRnd) (tokens s) ->
  List.Forall (fun t => Token.access_token t <> access) (tokens s) ->
  later / 1000 < now / 1000 + 3600 ->
  let refreshed :=
    TokenEndpoint.handleRefreshTokenGrant L now tokRnd (Some rt) (Some cid) (Some csec) s in
  let revoked :=
    Revoke.revokeHandler L (Some rt) (Some "refresh_token") (Some cid) (Some csec)
                         refreshed.2 in
  refreshed.1 = {| http_status := 200;
                   body := TokenResponse access "Bearer" 3600 rt (Token.scope original) |}
  /\ revoked.1 = {| http_status := 200; body := EmptyObject |}
  /\ (Introspect.introspectHandler L later (Some rt) (Some "refresh_token")
                                   (Some cid) (Some csec) revoked.2).1
     = {| http_status := 200; body := Introspection Inactive |}
  /\ (Introspect.introspectHandler L later (Some access) None
                                   (Some cid) (Some csec) revoked.2).1
     = {| http_status := 200;
          body := Introspection
                    (ActiveAccess (Token.scope original) cid
                                  (now / 1000 + 3600) (now / 1000)
                                  (RefreshTokenEntry.agent_id entry)
                                  CONFIG.JWT_ISSUER (Token.model original)) |}.
Proof.
  intros Hrt Hcid Hcsec Hcl Hsecret Hentry Hrev Hexp Hclient Horig
         payload access Haccess Hdecode Hfreshid Hfreshjwt Hlater refreshed revoked.
  subst refreshed revoked.
  rewrite (refreshTokenGrant_found L now tokRnd rt cid csec s cl entry original)
    by done.
  cbn [fst snd].
  set (t2 := refreshedToken L now tokRnd rt cid entry original).
  set (s1 := Db.with_tokens (Db.tokens_set (Crypto.generateTokenId tokRnd) t2) s).
  assert (tokens s1 = tokens s ++ [t2]) as Htokens
    by (subst s1; cbn [tokens Db.with_tokens]; by apply tokens_set_fresh).
  rewrite (revokeRefreshToken_found L rt cid csec s1 cl entry original);
    [|done|done|done|exact Hcl|exact Hsecret|exact Hentry|exact Hclient
     |rewrite Htokens; by apply tokens_get_app].
  cbn [fst snd]. split_and!; [reflexivity|reflexivity|..].
  - erewrite introspectRefreshToken_revoked;
      [done|done|done|done|exact Hcl|exact Hsecret
       |cbn [refreshTokens Db.with_tokens Db.with_refreshTokens];
        apply lookup_insert_eq
       |done].
  - erewrite (introspectAccessToken_active L later access cid csec _ cl payload t2);
      [done|done|done|done|exact Hcl|exact Hsecret|exact Hdecode|done
       |simpl; unfold CONFIG.ACCESS_TOKEN_EXPIRES_IN; lia| |done|done].
    cbn [tokens Db.with_tokens Db.with_refreshTokens]. rewrite Htokens.
    rewrite (tokens_set_app _ _ original) by done.
    apply find_access_last; [|done].
    apply tokens_set_Forall; [|done].
    destruct (tokens_get_Some _ _ _ Horig) as [Hin _].
    rewrite List.Forall_forall in Hfreshjwt. exact (Hfreshjwt original Hin).
Qed.

(** ** The concrete runs *)

Lemma sim_pending : authRequests Sim.s_pending !! "req_r1" = Some Sim.request_pending.
Proof. vm_compute. reflexivity. Qed.

Lemma sim_authenticated :
  authRequests Sim.s_authenticated !! "req_r1" = Some Sim.request_authenticated.
Proof. vm_compute. reflexivity. Qed.

Lemma sim_delivered :
  authRequests Sim.s_delivered !! "req_r1" = Some Sim.request_completed.
Proof. vm_compute. reflexivity. Qed.

Lemma sim_delivered_code :
  authorizationCodes Sim.s_delivered !! "code_c1" = Some "req_r1".
Proof. vm_compute. reflexivity. Qed.

Lemma sim_client (s : InMemoryStore) :
  s = Sim.s_pending \/ s = Sim.s_authenticated \/ s = Sim.s_delivered
  \/ s = Sim.s_exchanged ->
  clients s !! "client_shop" = Some Sim.client.
Proof. intros [->|[->|[->| ->]]]; vm_compute; reflexivity. Qed.

Lemma sim_exchanged_tokens : tokens Sim.s_exchanged = [Sim.token1].
Proof. vm_compute. reflexivity. Qed.

Lemma sim_exchanged_refresh :
  refreshTokens Sim.s_exchanged !! "rt_f1" = Some Sim.entry1.
Proof. vm_compute. reflexivity. Qed.

(** *** Refresh, then revoke (C1) *)

Lemma refresh_revocation_misses_refreshed_token_witness :
  let access := "jwt|agent_ada|client_shop|model-x|openid profile|9|3609|auth-agent.com" in
  let refreshed :=
    TokenEndpoint.handleRefreshTokenGrant Sim.lib 9000 "t2" (Some "rt_f1")
      (Some "client_shop") (Some "shop-secret") Sim.s_exchanged in
  let revoked :=
    Revoke.revokeHandler Sim.lib (Some "rt_f1") (Some "refresh_token")
      (Some "client_shop") (Some "shop-secret") refreshed.2 in
  refreshed.1 = {| http_status := 200;
                   body := TokenResponse access "Bearer" 3600 "rt_f1" "openid profile" |}
  /\ revoked.1 = {| http_status := 200; body := EmptyObject |}
  /\ (Introspect.introspectHandler Sim.lib 10000 (Some "rt_f1") (Some "refresh_token")
        (Some "client_shop") (Some "shop-secret") revoked.2).1
     = {| http_status := 200; body := Introspection Inactive |}
  /\ (Introspect.introspectHandler Sim.lib 10000 (Some access) None
        (Some "client_shop") (Some "shop-secret") revoked.2).1
     = {| http_status := 200;
          body := Introspection
                    (ActiveAccess "openid profile" "client_shop" 3609 9
                                  "agent_ada" "auth-agent.com" "model-x") |}.
Proof.
  apply (refresh_revocation_misses_refreshed_token Sim.lib 9000 10000
           "t2" "rt_f1" "client_shop" "shop-secret" Sim.s_exchanged
           Sim.client Sim.entry1 Sim.token1).
  - discriminate.
  - discriminate.
  - discriminate.
  - apply sim_client. tauto.
  - reflexivity.
  - apply sim_exchanged_refresh.
  - reflexivity.
  - vm_compute. discriminate.
  - reflexivity.
  - rewrite sim_exchanged_tokens. reflexivity.
  - discriminate.
  - vm_compute. reflexivity.
  - rewrite sim_exchanged_tokens. repeat constructor. discriminate.
  - rewrite sim_exchanged_tokens. repeat constructor. discriminate.
  - vm_compute. reflexivity.
Defined.

(** The same run from the empty store on, event by event: the last two
    responses are the introspection of the new access token and of the
    refresh token after the revocation. *)
Example refresh_then_revoke_run :
  responses Sim.lib
    [ (1000, Sim.authorize); (2000, Sim.authenticate); (3000, Sim.poll);
      (5000, Sim.exchange Sim.verifier); (9000, Sim.refresh);
      (9500, Sim.revoke "rt_f1");
      (10000, Sim.introspect
                "jwt|agent_ada|client_shop|model-x|openid profile|9|3609|auth-agent.com"
                None);
      (10000, Sim.introspect "rt_f1" (Some "refresh_token")) ]
    Sim.store0
  = [ Some (html (spinningPage "req_r1" "Shop"));
      Some (json200 (AgentSuccess "Agent authenticated successfully"));
      Some (json200 (StatusAuthenticated "code_c1" "xyz" "https://shop.example/callback"));
      Some (json200 (TokenResponse
                       "jwt|agent_ada|client_shop|model-x|openid profile|5|3605|auth-agent.com"
                       "Bearer" 3600 "rt_f1" "openid profile"));
      Some (json200 (TokenResponse
                       "jwt|agent_ada|client_shop|model-x|openid profile|9|3609|auth-agent.com"
                       "Bearer" 3600 "rt_f1" "openid profile"));
      Some (json200 EmptyObject);
      Some (json200 (Introspection
                       (ActiveAccess "openid profile" "client_shop" 3609 9
                                     "agent_ada" "auth-agent.com" "model-x")));
      Some (json200 (Introspection Inactive)) ].
Proof. vm_compute. reflexivity. Qed.

(** *** A wrong verifier (C2) *)

(** The exchange with a wrong verifier is refused, and the exchange of the
    same code with the right verifier that follows is granted. *)
Lemma wrong_verifier_then_right_verifier :
  responses Sim.lib
    [ (4000, Sim.exchange "wrong"); (5000, Sim.exchange Sim.verifier) ]
    Sim.s_delivered
  = [ Some {| http_status := 400;
              body := OAuthError "invalid_grant" "Invalid PKCE code_verifier" |};
      Some {| http_status := 200;
              body := TokenResponse
                        "jwt|agent_ada|client_shop|model-x|openid profile|5|3605|auth-agent.com"
                        "Bearer" 3600 "rt_f1" "openid profile" |} ].
Proof. vm_compute. reflexivity. Qed.

Lemma wrong_verifier_keeps_code_witness :
  TokenEndpoint.handleAuthorizationCodeGrant Sim.lib 4000 "t1" "f1"
    (Some "code_c1") (Some "wrong") (Some "client_shop") (Some "shop-secret")
    Sim.s_delivered
  = ({| http_status := 400;
        body := OAuthError "invalid_grant" "Invalid PKCE code_verifier" |},
     Sim.s_delivered)
  /\ exists access_token refresh_token scope,
       (TokenEndpoint.handleAuthorizationCodeGrant Sim.lib 5000 "t1" "f1"
          (Some "code_c1") (Some Sim.verifier) (Some "client_shop")
          (Some "shop-secret") Sim.s_delivered).1
       = {| http_status := 200;
            body := TokenResponse access_token "Bearer" 3600 refresh_token scope |}.
Proof.
  destruct (wrong_verifier_keeps_code Sim.lib 4000 "t1" "f1" "code_c1" "wrong"
              "client_shop" "shop-secret" Sim.s_delivered Sim.client "req_r1"
              Sim.request_completed) as [Hrefused Hlater].
  - discriminate.
  - discriminate.
  - discriminate.
  - discriminate.
  - apply sim_client. tauto.
  - reflexivity.
  - rewrite sim_delivered_code. reflexivity.
  - apply sim_delivered.
  - reflexivity.
  - reflexivity.
  - vm_compute. reflexivity.
  - split; [exact Hrefused|].
    apply Hlater.
    + discriminate.
    + vm_compute. reflexivity.
    + vm_compute. discriminate.
    + vm_compute. eauto.
    + vm_compute. eauto.
Defined.

(** *** A poll after expiry (C3) *)

(** The request was authenticated at 2 s and expires at 601 s; a first
    poll at 700 s hands out its code. *)
Lemma expired_authenticated_request_yields_code :
  AuthRequest.expires_at <$> authRequests Sim.s_authenticated !! "req_r1" = Some 601000
  /\ 601000 < 700000
  /\ (CheckStatus.checkStatusHandler 700000 (Some "req_r1") Sim.s_authenticated).1
     = {| http_status := 200;
          body := StatusAuthenticated "code_c1" "xyz" "https://shop.example/callback" |}.
Proof. vm_compute. done. Qed.

Lemma expired_poll_yields_code_iff_authenticated_witness :
  (code_of (CheckStatus.checkStatusHandler 700000 (Some "req_r1")
                                           Sim.s_authenticated).1 = Some "code_c1"
   <-> AuthRequest.status Sim.request_authenticated = AuthRequest.authenticated
       /\ Js.truthy_val (AuthRequest.code Sim.request_authenticated) = Some "code_c1")
  /\ (CheckStatus.checkStatusHandler 700000 (Some "req_r1") Sim.s_pending).1
     = {| http_status := 200; body := StatusError "request_expired" |}.
Proof.
  split.
  - apply (expired_poll_yields_code_iff_authenticated 700000 "req_r1"
             Sim.s_authenticated Sim.request_authenticated "code_c1").
    + discriminate.
    + apply sim_authenticated.
    + vm_compute. reflexivity.
  - apply (expired_poll_yields_code_iff_authenticated 700000 "req_r1"
             Sim.s_pending Sim.request_pending "code_c1").
    + discriminate.
    + apply sim_pending.
    + vm_compute. reflexivity.
    + reflexivity.
Defined.

(** *** Terminal statuses (C4) *)

(** The request is [completed] after the poll at 3 s and expires at 601 s;
    an authentication call at 700 s answers [request_expired] and sets it
    to [expired]. *)
Lemma completed_request_becomes_expired :
  let after := step Sim.lib 700000 Sim.authenticate Sim.s_delivered in
  AuthRequest.status <$> authRequests Sim.s_delivered !! "req_r1"
  = Some AuthRequest.completed
  /\ after.1 = Some {| http_status := 400;
                       body := AgentFailure "request_expired"
                                            "Auth request has expired" |}
  /\ AuthRequest.status <$> authRequests after.2 !! "req_r1"
     = Some AuthRequest.expired.
Proof. vm_compute. done. Qed.

Lemma sequential_terminal_status_witness :
  (authRequests (step Sim.lib 4000 Sim.poll Sim.s_delivered).2 !! "req_r1" = None
   \/ exists ar', authRequests (step Sim.lib 4000 Sim.poll Sim.s_delivered).2 !! "req_r1"
                  = Some ar'
                  /\ AuthRequest.status ar' = AuthRequest.completed)
  /\ AgentAuth.agentAuthenticateHandler Sim.lib 4000 "c2" (Some "req_r1")
       (Some "agent_ada") (Some "ada-secret") (Some "model-x") Sim.s_delivered
     = ({| http_status := 400;
           body := AgentFailure "invalid_request" "Auth request is already completed" |},
        Sim.s_delivered).
Proof.
  destruct (sequential_terminal_status Sim.lib 4000 Sim.s_delivered "req_r1"
              Sim.request_completed sim_delivered) as [Hevents Hagent].
  split.
  - apply (Hevents Sim.poll).
    + left. reflexivity.
    + simpl. tauto.
    + simpl. tauto.
  - apply Hagent; discriminate.
Defined.

(** The request is [completed] after the poll at 3 s and expires at 601 s;
    a call at 700 s sets it to [expired].  And from the pending request at
    1 s: two calls at 2 s overlap, the second with a wrong secret; after
    the poll the request is [completed], and the second call leaves it in
    [error]. *)
Lemma terminal_status_overwritten_witness :
  AuthRequest.status <$> authRequests Sim.s_delivered !! "req_r1"
  = Some AuthRequest.completed
  /\ (let late :=
        AgentAuth.beforeVerifySecret 700000 (Some "req_r1") (Some "agent_ada")
          (Some "ada-secret") (Some "model-x") Sim.s_delivered in
      late.1 = AgentAuth.Answered
                 (json (AgentFailure "request_expired" "Auth request has expired") 400)
      /\ AuthRequest.status <$> authRequests late.2 !! "req_r1"
         = Some AuthRequest.expired)
  /\ (let begun1 := AgentAuth.beforeVerifySecret 2000 (Some "req_r1")
                      (Some "agent_ada") (Some "ada-secret") (Some "model-x")
                      Sim.s_pending in
      let begun2 := AgentAuth.beforeVerifySecret 2001 (Some "req_r1")
                      (Some "agent_ada") (Some "not-the-secret") (Some "model-y")
                      begun1.2 in
      let ended1 := AgentAuth.resume Sim.lib "c1" begun1.1 begun2.2 in
      let poll1 := CheckStatus.checkStatusHandler 3000 (Some "req_r1") ended1.2 in
      let ended2 := AgentAuth.resume Sim.lib "c2" begun2.1 poll1.2 in
      AuthRequest.status <$> authRequests poll1.2 !! "req_r1"
      = Some AuthRequest.completed
      /\ AuthRequest.status <$> authRequests ended2.2 !! "req_r1"
         = Some AuthRequest.error).
Proof.
  split; [vm_compute; reflexivity|]. split.
  - destruct (terminal_status_overwritten Sim.lib 2000 2001 3000 "c2" "c3" "req_r1"
                "agent_ada" "ada-secret" "ada-secret" "model-x" "model-x"
                Sim.s_delivered Sim.request_completed Sim.agent) as [Hlate _].
    + discriminate.
    + discriminate.
    + discriminate.
    + discriminate.
    + discriminate.
    + discriminate.
    + apply sim_delivered.
    + apply (Hlate 700000). vm_compute. reflexivity.
  - destruct (terminal_status_overwritten Sim.lib 2000 2001 3000 "c1" "c2" "req_r1"
                "agent_ada" "ada-secret" "not-the-secret" "model-x" "model-y"
                Sim.s_pending Sim.request_pending Sim.agent) as [_ Hoverlap].
    + discriminate.
    + discriminate.
    + discriminate.
    + discriminate.
    + discriminate.
    + discriminate.
    + apply sim_pending.
    + destruct Hoverlap as (Hcompleted & _ & Hfinal).
      * reflexivity.
      * vm_compute. discriminate.
      * vm_compute. discriminate.
      * vm_compute. reflexivity.
      * reflexivity.
      * split; [exact Hcompleted|exact Hfinal].
Defined.

(** *** The expired request (C5) *)

Lemma poll_after_request_expired_witness :
  let after :=
    AgentAuth.agentAuthenticateHandler Sim.lib 700000 "c1" (Some "req_r1")
      (Some "agent_ada") (Some "ada-secret") (Some "model-x") Sim.s_pending in
  after.1 = {| http_status := 400;
               body := AgentFailure "request_expired" "Auth request has expired" |}
  /\ AuthRequest.status <$> authRequests after.2 !! "req_r1" = Some AuthRequest.expired
  /\ forall now' : Z,
       CheckStatus.checkStatusHandler now' (Some "req_r1") after.2
       = ({| http_status := 200; body := StatusPending |}, after.2).
Proof.
  apply (poll_after_request_expired Sim.lib 700000 "c1" "req_r1" "agent_ada"
           "ada-secret" "model-x" Sim.s_pending Sim.request_pending).
  - discriminate.
  - discriminate.
  - discriminate.
  - discriminate.
  - apply sim_pending.
  - vm_compute. reflexivity.
Defined.

(** The run of the specification's scenario: authorize, wait beyond the
    TTL, authenticate, poll twice. *)
Example expired_request_run :
  responses Sim.lib
    [ (1000, Sim.authorize); (700000, Sim.authenticate);
      (700500, Sim.poll); (701000, Sim.poll) ]
    Sim.store0
  = [ Some (html (spinningPage "req_r1" "Shop"));
      Some (json (AgentFailure "request_expired" "Auth request has expired") 400);
      Some (json200 StatusPending);
      Some (json200 StatusPending) ].
Proof. vm_compute. reflexivity. Qed.

(** *** Single delivery (C6) *)

Lemma sequential_single_delivery_witness :
  let first := CheckStatus.checkStatusHandler 3000 (Some "req_r1") Sim.s_authenticated in
  first.1 = {| http_status := 200;
               body := StatusAuthenticated "code_c1" "xyz"
                                           "https://shop.example/callback" |}
  /\ code_of (CheckStatus.checkStatusHandler 900000 (Some "req_r1")
                (run Sim.lib
                   [ (3500, Sim.poll); (4000, Sim.exchange "wrong");
                     (700000, Sim.authenticate); (800000, Sweep) ]
                   first.2)).1 = None.
Proof.
  destruct (sequential_single_delivery Sim.lib 3000 "req_r1" Sim.s_authenticated
              Sim.request_authenticated "code_c1") as (Hfirst & _ & Hlater).
  - discriminate.
  - apply sim_authenticated.
  - reflexivity.
  - reflexivity.
  - split; [exact Hfirst|].
    apply Hlater. repeat constructor; simpl; tauto.
Defined.

(** Two calls at 2 s overlap, both with the right secret; the polls at 3 s
    and at 4 s both deliver a code. *)
Lemma overlapping_calls_deliver_code_twice_witness :
  let begun1 := AgentAuth.beforeVerifySecret 2000 (Some "req_r1") (Some "agent_ada")
                  (Some "ada-secret") (Some "model-x") Sim.s_pending in
  let begun2 := AgentAuth.beforeVerifySecret 2001 (Some "req_r1") (Some "agent_ada")
                  (Some "ada-secret") (Some "model-x") begun1.2 in
  let ended1 := AgentAuth.resume Sim.lib "c1" begun1.1 begun2.2 in
  let poll1 := CheckStatus.checkStatusHandler 3000 (Some "req_r1") ended1.2 in
  let ended2 := AgentAuth.resume Sim.lib "c2" begun2.1 poll1.2 in
  let poll2 := CheckStatus.checkStatusHandler 4000 (Some "req_r1") ended2.2 in
  ended1.1 = json200 (AgentSuccess "Agent authenticated successfully")
  /\ poll1.1 = json200 (StatusAuthenticated "code_c1" "xyz"
                                            "https://shop.example/callback")
  /\ AuthRequest.status <$> authRequests poll1.2 !! "req_r1"
     = Some AuthRequest.completed
  /\ ended2.1 = json200 (AgentSuccess "Agent authenticated successfully")
  /\ poll2.1 = json200 (StatusAuthenticated "code_c2" "xyz"
                                            "https://shop.example/callback").
Proof.
  apply (overlapping_calls_deliver_code_twice Sim.lib 2000 2001 3000 4000 "c1" "c2"
           "req_r1" "agent_ada" "ada-secret" "model-x" "model-x" Sim.s_pending
           Sim.request_pending Sim.agent).
  - discriminate.
  - discriminate.
  - discriminate.
  - discriminate.
  - discriminate.
  - apply sim_pending.
  - reflexivity.
  - vm_compute. discriminate.
  - vm_compute. discriminate.
  - vm_compute. reflexivity.
  - reflexivity.
Defined.

(** *** Single use (C7) *)

Lemma code_single_use_witness :
  let first :=
    TokenEndpoint.handleAuthorizationCodeGrant Sim.lib 5000 "t1" "f1"
      (Some "code_c1") (Some Sim.verifier) (Some "client_shop") (Some "shop-secret")
      Sim.s_delivered in
  authorizationCodes first.2 !! "code_c1" = None
  /\ authRequests first.2 !! "req_r1" = None
  /\ (TokenEndpoint.handleAuthorizationCodeGrant Sim.lib 5500 "t3" "f3"
        (Some "code_c1") (Some Sim.verifier) (Some "client_shop") (Some "shop-secret")
        first.2).1
     = {| http_status := 400;
          body := OAuthError "invalid_grant" "Invalid or expired authorization code" |}.
Proof.
  destruct (code_single_use Sim.lib 5000 "t1" "f1" "code_c1" (Some Sim.verifier)
              (Some "client_shop") (Some "shop-secret") Sim.s_delivered
              (TokenEndpoint.handleAuthorizationCodeGrant Sim.lib 5000 "t1" "f1"
                 (Some "code_c1") (Some Sim.verifier) (Some "client_shop")
                 (Some "shop-secret") Sim.s_delivered).2
              (TokenEndpoint.handleAuthorizationCodeGrant Sim.lib 5000 "t1" "f1"
                 (Some "code_c1") (Some Sim.verifier) (Some "client_shop")
                 (Some "shop-secret") Sim.s_delivered).1)
    as (Hcode & Hrequest & Hsecond).
  - apply surjective_pairing.
  - vm_compute. reflexivity.
  - split_and!.
    + exact Hcode.
    + apply Hrequest, sim_delivered_code.
    + apply (Hsecond 5500 "t3" "f3" Sim.verifier "client_shop" "shop-secret" Sim.client);
        [discriminate|discriminate|discriminate|vm_compute; reflexivity|reflexivity].
Defined.

(** *** Token expiries (C8) *)

(** The refresh entry of the exchange at 5 s expires at 2 592 005 s. A
    refresh grant five seconds before that is granted and stores a token
    record whose access token outlives its refresh token. *)
Lemma refresh_near_expiry_breaks_order :
  let after := step Sim.lib 2592000000 Sim.refresh Sim.s_exchanged in
  http_status <$> after.1 = Some 200
  /\ exists t : Token.t,
       tokens after.2 = tokens Sim.s_exchanged ++ [t]
       /\ Token.created_at t = 2592000000
       /\ Token.access_token_expires_at t = 2595600000
       /\ Token.refresh_token_expires_at t = Some 2592005000
       /\ ~ 2592005000 >= 2595600000.
Proof.
  split; [vm_compute; reflexivity|].
  eexists. split; [vm_compute; reflexivity|]. vm_compute. split_and!; congruence.
Qed.

Lemma new_token_expiries_witness :
  exists t : Token.t,
    tokens (TokenEndpoint.tokenHandler Sim.lib 2592000000 "t2" "f2" Sim.refreshBody
                                       Sim.s_exchanged).2
    = Db.tokens_set (Token.token_id t) t (tokens Sim.s_exchanged)
    /\ Token.created_at t = 2592000000
    /\ Token.access_token_expires_at t = 2592000000 + 3600000
    /\ Token.refresh_token_expires_at t = Some 2592005000.
Proof.
  destruct (new_token_expiries Sim.lib 2592000000 "t2" "f2" Sim.refreshBody
              Sim.s_exchanged
              (TokenEndpoint.tokenHandler Sim.lib 2592000000 "t2" "f2" Sim.refreshBody
                                          Sim.s_exchanged).2
              (TokenEndpoint.tokenHandler Sim.lib 2592000000 "t2" "f2" Sim.refreshBody
                                          Sim.s_exchanged).1)
    as (t & Htokens & Hcreated & Haccess & _
        & [[Hgrant _]|(_ & rt & entry & Hrt & Hentry & Hrefresh & _)]).
  - apply surjective_pairing.
  - vm_compute. reflexivity.
  - discriminate Hgrant.
  - exists t. split_and!; [exact Htokens|exact Hcreated|exact Haccess|].
    assert (rt = "rt_f1") as -> by (vm_compute in Hrt; congruence).
    rewrite sim_exchanged_refresh in Hentry.
    assert (entry = Sim.entry1) as -> by congruence.
    exact Hrefresh.
Defined.

(** * Further properties of the server *)

(** ** Introspection *)

(** An introspection request that gets past the client authentication. *)
Lemma introspect_authenticated (L : Lib) (now : Z) (token cid csec : string)
    (hint : option string) (s : InMemoryStore) (cl : Client.t) :
  token <> "" -> cid <> "" -> csec <> "" ->
  clients s !! cid = Some cl ->
  bcrypt_compare L csec (Client.client_secret_hash cl) = true ->
  Introspect.introspectHandler L now (Some token) hint (Some cid) (Some csec) s
  = if Js.opt_eqb hint "refresh_token"
    then let '(r, s') := Introspect.introspectRefreshToken now token cid s in
         (json200 (Introspection r), s')
    else let '(r, s') := Introspect.introspectAccessToken L now token cid s in
         (json200 (Introspection r), s').
Proof.
  intros Htoken Hcid Hcsec Hcl Hsecret.
  unfold Introspect.introspectHandler.
  rewrite !truthy_val_intro by done.
  unfold bind, ret, Db.getClient. rewrite Hcl, Hsecret. simpl.
  by destruct (Js.opt_eqb hint "refresh_token").
Qed.

(** X1. An access token is reported active only to a client that
    authenticates, for a token that verifies under the server's key and
    issuer, whose first record in the store is not revoked and belongs to
    that client, before the token's [exp]; the answer echoes the claims of
    the token, and the store is not touched. *)
Theorem introspect_active_access_sound (L : Lib) (now : Z)
    (token token_type_hint client_id client_secret : option string)
    (s s' : InMemoryStore) (r : Response)
    (scope cid : string) (exp iat : Z) (sub iss model : string) :
  Introspect.introspectHandler L now token token_type_hint client_id client_secret s
  = (r, s') ->
  body r = Introspection (ActiveAccess scope cid exp iat sub iss model) ->
  s' = s
  /\ http_status r = 200
  /\ exists tok requester secret cl record,
       token = Some tok
       /\ client_id = Some requester
       /\ client_secret = Some secret
       /\ clients s !! requester = Some cl
       /\ bcrypt_compare L secret (Client.client_secret_hash cl) = true
       /\ jwt_decode L tok
          = Some (JWTPayload.mk sub cid model scope iat exp iss)
       /\ iss = CONFIG.JWT_ISSUER
       /\ now / 1000 < exp
       /\ List.find (fun x => String.eqb (Token.access_token x) tok) (tokens s)
          = Some record
       /\ Token.revoked record = false
       /\ Token.client_id record = requester.
Proof.
  unfold Introspect.introspectHandler, Introspect.introspectRefreshToken,
    Introspect.introspectAccessToken, Jwt.verifyAccessToken.
  unfold_db. intros Hrun Hbody.
  repeat (case_match; simplify_eq/=; try done).
  repeat match goal with
         | H : Js.truthy_val _ = Some _ |- _ => apply truthy_val_Some in H as [-> _]
         | H : negb _ = false |- _ => apply negb_false_iff in H
         | H : negb _ = true |- _ => apply negb_true_iff in H
         | H : _ && _ = true |- _ => apply andb_true_iff in H as [? ?]
         | H : String.eqb _ _ = true |- _ => apply String.eqb_eq in H
         | H : (_ <=? _) = false |- _ => apply Z.leb_gt in H
         | p : JWTPayload.t |- _ => destruct p; simpl in *
         end.
  match goal with
  | H : ActiveAccess _ _ _ _ _ _ _ = _ |- _ => injection H as <- <- <- <- <- <- <-
  end.
  split_and!; [done..|].
  eexists _, _, _, _, _. split_and!; eauto.
Qed.

(** X2. A refresh token is reported active only to a client that
    authenticates, for a stored entry that is not revoked, belongs to that
    client and has not passed its [expires_at]; the answer carries the
    entry's agent and expiry (in seconds) and the model and scope of the
    token record the entry points to, if that record exists; the store is
    not touched. *)
Theorem introspect_active_refresh_sound (L : Lib) (now : Z)
    (token token_type_hint client_id client_secret : option string)
    (s s' : InMemoryStore) (r : Response)
    (cid sub : string) (exp : Z) (model scope : option string) :
  Introspect.introspectHandler L now token token_type_hint client_id client_secret s
  = (r, s') ->
  body r = Introspection (ActiveRefresh cid sub exp model scope) ->
  s' = s
  /\ token_type_hint = Some "refresh_token"
  /\ exists rt secret cl entry,
       token = Some rt
       /\ client_id = Some cid
       /\ client_secret = Some secret
       /\ clients s !! cid = Some cl
       /\ bcrypt_compare L secret (Client.client_secret_hash cl) = true
       /\ refreshTokens s !! rt = Some entry
       /\ RefreshTokenEntry.revoked entry = false
       /\ RefreshTokenEntry.client_id entry = cid
       /\ RefreshTokenEntry.agent_id entry = sub
       /\ ~ RefreshTokenEntry.expires_at entry < now
       /\ exp = RefreshTokenEntry.expires_at entry / 1000
       /\ model = Token.model
                    <$> Db.tokens_get (RefreshTokenEntry.token_id entry) (tokens s)
       /\ scope = Token.scope
                    <$> Db.tokens_get (RefreshTokenEntry.token_id entry) (tokens s).
Proof.
  unfold Introspect.introspectHandler, Introspect.introspectRefreshToken,
    Introspect.introspectAccessToken, Jwt.verifyAccessToken.
  unfold_db. intros Hrun Hbody.
  repeat (case_match; simplify_eq/=; try done).
  repeat match goal with
         | H : Js.truthy_val _ = Some _ |- _ => apply truthy_val_Some in H as [-> _]
         | H : negb _ = false |- _ => apply negb_false_iff in H
         | H : String.eqb _ _ = true |- _ => apply String.eqb_eq in H
         | H : (_ <? _) = false |- _ => apply Z.ltb_ge in H
         | H : ActiveRefresh _ _ _ _ _ = _ |- _ => injection H as <- <- <- <- <-
         end.
  split; [done|]. split.
  - unfold Js.opt_eqb in *. destruct token_type_hint as [h|]; [|done].
    match goal with H : String.eqb h _ = true |- _ => apply String.eqb_eq in H end.
    by subst.
  - subst. eexists _, _, _, _. split_and!; try done. lia.
Qed.

(** ** Client binding *)

(** X3. A refresh token bound to one client is of no use to another
    client, even one that authenticates: its refresh grant is refused with
    [invalid_grant] (400), its introspection answers [active: false], its
    revocation request is answered 200 with an empty object, and none of
    the three changes the store. *)
Theorem refresh_token_client_binding (L : Lib) (now : Z)
    (tokRnd rt other secret : string) (s : InMemoryStore)
    (cl : Client.t) (entry : RefreshTokenEntry.t) :
  rt <> "" -> other <> "" -> secret <> "" ->
  clients s !! other = Some cl ->
  bcrypt_compare L secret (Client.client_secret_hash cl) = true ->
  refreshTokens s !! rt = Some entry ->
  RefreshTokenEntry.client_id entry <> other ->
  (exists description,
      TokenEndpoint.handleRefreshTokenGrant L now tokRnd (Some rt) (Some other)
                                            (Some secret) s
      = ({| http_status := 400; body := OAuthError "invalid_grant" description |}, s))
  /\ Introspect.introspectHandler L now (Some rt) (Some "refresh_token")
                                  (Some other) (Some secret) s
     = ({| http_status := 200; body := Introspection Inactive |}, s)
  /\ Revoke.revokeHandler L (Some rt) (Some "refresh_token") (Some other)
                          (Some secret) s
     = ({| http_status := 200; body := EmptyObject |}, s).
Proof.
  intros Hrt Hother Hsecret Hcl Hcompare Hentry Hbound.
  apply String.eqb_neq in Hbound.
  split_and!.
  - unfold TokenEndpoint.handleRefreshTokenGrant.
    rewrite !truthy_val_intro by done.
    unfold_db. rewrite Hcl, Hcompare. simpl. rewrite Hentry.
    destruct (RefreshTokenEntry.revoked entry); [by eexists|].
    destruct (_ <? _); [by eexists|].
    rewrite Hbound. simpl. by eexists.
  - unfold Introspect.introspectHandler, Introspect.introspectRefreshToken.
    rewrite !truthy_val_intro by done.
    unfold_db. rewrite Hcl, Hcompare. simpl. rewrite Hentry.
    destruct (RefreshTokenEntry.revoked entry); [done|].
    by rewrite Hbound.
  - unfold Revoke.revokeHandler, Revoke.revokeRefreshToken.
    rewrite !truthy_val_intro by done.
    unfold_db. rewrite Hcl, Hcompare. simpl. rewrite Hentry.
    by rewrite Hbound.
Qed.

(** X4. An access token bound to one client is of no use to another
    client that authenticates: its introspection answers [active: false],
    and its revocation request (the token not being a refresh token of that
    other client) is answered 200 with an empty object; neither changes
    the store. *)
Theorem access_token_client_binding (L : Lib) (now : Z)
    (access other secret : string) (s : InMemoryStore)
    (cl : Client.t) (record : Token.t) :
  access <> "" -> other <> "" -> secret <> "" ->
  clients s !! other = Some cl ->
  bcrypt_compare L secret (Client.client_secret_hash cl) = true ->
  List.find (fun x => String.eqb (Token.access_token x) access) (tokens s)
  = Some record ->
  Token.client_id record <> other ->
  Introspect.introspectHandler L now (Some access) None (Some other) (Some secret) s
  = ({| http_status := 200; body := Introspection Inactive |}, s)
  /\ (refreshTokens s !! access = None ->
      Revoke.revokeHandler L (Some access) None (Some other) (Some secret) s
      = ({| http_status := 200; body := EmptyObject |}, s)).
Proof.
  intros Haccess Hother Hsecret Hcl Hcompare Hfind Hbound.
  apply String.eqb_neq in Hbound.
  split.
  - unfold Introspect.introspectHandler, Introspect.introspectAccessToken.
    rewrite !truthy_val_intro by done.
    unfold_db. rewrite Hcl, Hcompare. simpl.
    destruct (Jwt.verifyAccessToken L now access); [|done].
    rewrite Hfind. destruct (Token.revoked record); [done|]. by rewrite Hbound.
  - intros Hnorefresh.
    unfold Revoke.revokeHandler, Revoke.revokeAccessToken, Revoke.revokeRefreshToken.
    rewrite !truthy_val_intro by done.
    unfold_db. rewrite Hcl, Hcompare. simpl. rewrite Hfind, Hbound. simpl.
    by rewrite Hnorefresh.
Qed.

(** ** Revocation *)

Lemma tokens_get_set_revoke (k : string) (t : Token.t) (l : list Token.t) :
  Db.tokens_get k l = Some t ->
  Db.tokens_get k (Db.tokens_set k (Token.revoke t) l) = Some (Token.revoke t).
Proof.
  unfold Db.tokens_get. induction l as [|x l IH]; simpl; [done|].
  destruct (String.eqb (Token.token_id x) k) eqn:Hx.
  - intros [= ->]. simpl. by rewrite Hx.
  - intros Hfind. simpl. rewrite Hx. by apply IH.
Qed.

Lemma tokens_set_twice (k : string) (v : Token.t) (l : list Token.t) :
  Token.token_id v = k ->
  Db.tokens_set k v (Db.tokens_set k v l) = Db.tokens_set k v l.
Proof.
  intros Hv. induction l as [|x l IH]; simpl.
  - apply String.eqb_eq in Hv. by rewrite Hv.
  - destruct (String.eqb (Token.token_id x) k) eqn:Hx; simpl.
    + apply String.eqb_eq in Hv. by rewrite Hv.
    + by rewrite Hx, IH.
Qed.

(** Flagging the first record with id [k] leaves the access-token strings
    and the client ids where they were. *)
Lemma find_access_after_flag (a k : string) (t : Token.t) (l : list Token.t) :
  Db.tokens_get k l = Some t ->
  Token.client_id
    <$> List.find (fun x => String.eqb (Token.access_token x) a)
                  (Db.tokens_set k (Token.revoke t) l)
  = Token.client_id <$> List.find (fun x => String.eqb (Token.access_token x) a) l.
Proof.
  unfold Db.tokens_get. induction l as [|x l IH]; simpl; [done|].
  destruct (String.eqb (Token.token_id x) k) eqn:Hx.
  - intros [= ->]. simpl. by destruct (String.eqb (Token.access_token t) a).
  - intros Hfind. simpl.
    destruct (String.eqb (Token.access_token x) a); [done|]. by apply IH.
Qed.

(** Flagging the record an access token resolves to: the access token then
    resolves to the flagged record. *)
Lemma find_access_flagged (a : string) (u : Token.t) (l : list Token.t) :
  List.find (fun x => String.eqb (Token.access_token x) a) l = Some u ->
  List.find (fun x => String.eqb (Token.access_token x) a)
            (Db.tokens_set (Token.token_id u) (Token.revoke u) l)
  = Some (Token.revoke u).
Proof.
  intros Hfind.
  assert (String.eqb (Token.access_token u) a = true) as Hu
    by (by apply List.find_some in Hfind as [_ ?]).
  revert Hfind. induction l as [|x l IH]; simpl; [done|].
  destruct (String.eqb (Token.access_token x) a) eqn:Ha.
  - intros [= ->]. rewrite String.eqb_refl. simpl. by rewrite Hu.
  - intros Hfind.
    destruct (String.eqb (Token.token_id x) (Token.token_id u)); simpl.
    + by rewrite Hu.
    + rewrite Ha. by apply IH.
Qed.

(** [revokeAccessToken], branch by branch. *)
Lemma revokeAccessToken_spec (token clientId : string) (s : InMemoryStore) :
  Revoke.revokeAccessToken token clientId s =
    match List.find (fun x => String.eqb (Token.access_token x) token) (tokens s) with
    | None => (false, s)
    | Some u =>
        if negb (String.eqb (Token.client_id u) clientId) then (false, s)
        else
          let s1 := Db.with_tokens
                      (Db.tokens_set (Token.token_id u) (Token.revoke u)) s in
          (true,
           match Js.truthy_val (Token.refresh_token u) with
           | None => s1
           | Some rt =>
               match refreshTokens s !! rt with
               | None => s1
               | Some e =>
                   Db.with_refreshTokens (insert rt (RefreshTokenEntry.revoke e)) s1
               end
           end)
    end.
Proof.
  unfold Revoke.revokeAccessToken. unfold_db.
  destruct (List.find _ (tokens s)) as [u|] eqn:Hfind; [|done].
  destruct (negb _); [done|]. rewrite Hfind.
  destruct (Js.truthy_val (Token.refresh_token u)) as [rt|]; simpl; [|done].
  by destruct (refreshTokens s !! rt).
Qed.

(** [revokeRefreshToken], branch by branch. *)
Lemma revokeRefreshToken_spec (token clientId : string) (s : InMemoryStore) :
  Revoke.revokeRefreshToken token clientId s =
    match refreshTokens s !! token with
    | None => (false, s)
    | Some e =>
        if negb (String.eqb (RefreshTokenEntry.client_id e) clientId) then (false, s)
        else
          let s1 := Db.with_refreshTokens
                      (insert token (RefreshTokenEntry.revoke e)) s in
          (true,
           match Db.tokens_get (RefreshTokenEntry.token_id e) (tokens s) with
           | None => s1
           | Some t =>
               Db.with_tokens
                 (Db.tokens_set (RefreshTokenEntry.token_id e) (Token.revoke t)) s1
           end)
    end.
Proof.
  unfold Revoke.revokeRefreshToken. unfold_db.
  destruct (refreshTokens s !! token) as [e|] eqn:He; [|done].
  destruct (negb _); [done|]. rewrite He. simpl.
  destruct (Db.tokens_get _ (tokens s)) as [t|] eqn:Ht; simpl; [|done].
  destruct (tokens_get_Some _ _ _ Ht) as [_ Hid].
  by rewrite Hid, Ht.
Qed.

(** A revocation request that gets past the client authentication. *)
Lemma revoke_authenticated (L : Lib) (token cid csec : string)
    (hint : option string) (s : InMemoryStore) (cl : Client.t) :
  token <> "" -> cid <> "" -> csec <> "" ->
  clients s !! cid = Some cl ->
  bcrypt_compare L csec (Client.client_secret_hash cl) = true ->
  Revoke.revokeHandler L (Some token) hint (Some cid) (Some csec) s
  = (json200 EmptyObject,
     if Js.opt_eqb hint "refresh_token" then (Revoke.revokeRefreshToken token cid s).2
     else
       let '(revokedAccess, s1) := Revoke.revokeAccessToken token cid s in
       if negb revokedAccess then (Revoke.revokeRefreshToken token cid s1).2 else s1).
Proof.
  intros Htoken Hcid Hcsec Hcl Hsecret.
  unfold Revoke.revokeHandler.
  rewrite !truthy_val_intro by done.
  unfold bind, ret, Db.getClient. rewrite Hcl, Hsecret. simpl.
  destruct (Js.opt_eqb hint "refresh_token").
  - by destruct (Revoke.revokeRefreshToken token cid s).
  - destruct (Revoke.revokeAccessToken token cid s) as [b s1].
    destruct b; simpl; [done|]. by destruct (Revoke.revokeRefreshToken token cid s1).
Qed.

(** ** Consistency of the store *)

Lemma tokens_set_ids (k : string) (v : Token.t) (l : list Token.t) (i : string) :
  Token.token_id v = k ->
  In i (List.map Token.token_id (Db.tokens_set k v l)) ->
  i = k \/ In i (List.map Token.token_id l).
Proof.
  intros Hv. induction l as [|x l IH]; simpl.
  - intros [<-|[]]. by left.
  - destruct (String.eqb_spec (Token.token_id x) k) as [Hx|Hx]; simpl.
    + intros [<-|Hin]; [by left|]. right. by right.
    + intros [<-|Hin]; [right; by left|].
      destruct (IH Hin); [by left|]. right. by right.
Qed.

Lemma tokens_set_NoDup (k : string) (v : Token.t) (l : list Token.t) :
  Token.token_id v = k ->
  List.NoDup (List.map Token.token_id l) ->
  List.NoDup (List.map Token.token_id (Db.tokens_set k v l)).
Proof.
  intros Hv. induction l as [|x l IH]; simpl.
  - intros _. constructor; [intros []|constructor].
  - intros Hnd. apply NoDup_cons_iff in Hnd as [Hx Hnd].
    destruct (String.eqb_spec (Token.token_id x) k) as [Hk|Hk]; simpl.
    + apply NoDup_cons_iff. split; [|done]. by rewrite Hv, <- Hk.
    + apply NoDup_cons_iff. split; [|by apply IH].
      intros Hin. apply tokens_set_ids in Hin as [?|?]; done.
Qed.

Lemma store_wf_with_tokens (k : string) (v : Token.t) (s : InMemoryStore) :
  Token.token_id v = k -> store_wf s ->
  store_wf (Db.with_tokens (Db.tokens_set k v) s).
Proof.
  intros Hv [? ? ? ? ?]. split; simpl; try done. by apply tokens_set_NoDup.
Qed.

Lemma store_wf_with_request (k : string) (r : AuthRequest.t) (s : InMemoryStore) :
  AuthRequest.request_id r = k -> store_wf s ->
  store_wf (Db.with_authRequests (insert k r) s).
Proof.
  intros Hr [? Hreq ? ? ?]. split; simpl; try done.
  intros k' r'. destruct (decide (k = k')) as [<-|Hne].
  - rewrite lookup_insert_eq. by intros [= <-].
  - rewrite lookup_insert_ne by done. apply Hreq.
Qed.

Lemma store_wf_without_request (k : string) (s : InMemoryStore) :
  store_wf s -> store_wf (Db.with_authRequests (delete k) s).
Proof.
  intros [? Hreq ? ? ?]. split; simpl; try done.
  intros k' r'. destruct (decide (k = k')) as [<-|Hne].
  - by rewrite lookup_delete_eq.
  - rewrite lookup_delete_ne by done. apply Hreq.
Qed.

Lemma store_wf_with_refresh (k : string) (e : RefreshTokenEntry.t) (s : InMemoryStore) :
  RefreshTokenEntry.refresh_token e = k -> store_wf s ->
  store_wf (Db.with_refreshTokens (insert k e) s).
Proof.
  intros He [? ? Href ? ?]. split; simpl; try done.
  intros k' e'. destruct (decide (k = k')) as [<-|Hne].
  - rewrite lookup_insert_eq. by intros [= <-].
  - rewrite lookup_insert_ne by done. apply Href.
Qed.

Lemma store_wf_with_codes f (s : InMemoryStore) :
  store_wf s -> store_wf (Db.with_authorizationCodes f s).
Proof. by intros [? ? ? ? ?]. Qed.

Lemma store_wf_cleanup (now : Z) (s : InMemoryStore) :
  store_wf s -> store_wf (Db.cleanupExpired now s).2.
Proof.
  intros [? Hreq Href ? ?]. split; simpl; try done.
  - intros k r [Hk _]%map_lookup_filter_Some. by apply Hreq.
  - intros k e [Hk _]%map_lookup_filter_Some. by apply Href.
Qed.

Ltac store_wf_step :=
  first
    [ assumption
    | apply store_wf_with_codes
    | apply store_wf_without_request
    | apply store_wf_with_tokens; [simpl; first [reflexivity | eassumption | idtac] |]
    | apply store_wf_with_refresh; [simpl; first [reflexivity | eassumption | idtac] |]
    | apply store_wf_with_request; [simpl; first [reflexivity | eassumption | idtac] |] ].

Lemma step_http_store (L : Lib) (now : Z) (r : Request) (s : InMemoryStore) :
  (step L now (Http r) s).2 = (handle L now r s).2.
Proof. simpl. unfold bind, ret. by destruct (handle L now r s). Qed.

(** One event keeps the store consistent. *)
Lemma step_store_wf (L : Lib) (now : Z) (e : Event) (s : InMemoryStore) :
  store_wf s -> store_wf (step L now e s).2.
Proof.
  intros Hwf. destruct e as [r|]; [|by apply store_wf_cleanup].
  pose proof (wf_requests _ Hwf) as Hreq.
  pose proof (wf_refresh _ Hwf) as Href.
  rewrite step_http_store. destruct r; simpl.
  - unfold Authorize.authorizeHandler. unfold_db.
    repeat (case_match; simplify_eq/=; try done).
    by apply store_wf_with_request.
  - unfold AgentAuth.agentAuthenticateHandler, AgentAuth.resume,
    AgentAuth.beforeVerifySecret, AgentAuth.afterVerifySecret. unfold_db.
    repeat (case_match; simplify_eq/=; try done);
      repeat store_wf_step; eauto.
  - unfold CheckStatus.checkStatusHandler. unfold_db.
    repeat (case_match; simplify_eq/=; try done);
      repeat store_wf_step; eauto.
  - unfold TokenEndpoint.tokenHandler, TokenEndpoint.handleAuthorizationCodeGrant,
      TokenEndpoint.handleRefreshTokenGrant. unfold_db.
    repeat (case_match; simplify_eq/=; try done);
      repeat store_wf_step; eauto.
  - by rewrite introspect_store.
  - unfold Revoke.revokeHandler.
    destruct (Js.truthy_val token) as [tok|]; [|done].
    destruct (Js.truthy_val client_id) as [cid|]; [|done].
    destruct (Js.truthy_val client_secret) as [csec|]; [|done].
    unfold bind at 1. unfold Db.getClient at 1.
    destruct (clients s !! cid) as [cl|]; [|done].
    destruct (negb _); [done|].
    assert (forall s0, store_wf s0 -> store_wf (Revoke.revokeRefreshToken tok cid s0).2)
      as Hrefresh.
    { intros s0 Hwf0. rewrite revokeRefreshToken_spec.
      destruct (refreshTokens s0 !! tok) as [en|] eqn:Hen; [|done].
      destruct (negb _); [done|]. simpl.
      pose proof (wf_refresh _ Hwf0 _ _ Hen).
      destruct (Db.tokens_get _ (tokens s0)) as [t|] eqn:Ht.
      - destruct (tokens_get_Some _ _ _ Ht) as [_ Hid].
        apply store_wf_with_tokens; [done|]. by apply store_wf_with_refresh.
      - by apply store_wf_with_refresh. }
    assert (store_wf (Revoke.revokeAccessToken tok cid s).2) as Haccess.
    { rewrite revokeAccessToken_spec.
      destruct (List.find _ (tokens s)) as [u|]; [|done].
      destruct (negb _); [done|]. simpl.
      assert (store_wf (Db.with_tokens
                          (Db.tokens_set (Token.token_id u) (Token.revoke u)) s))
        by by apply store_wf_with_tokens.
      destruct (Js.truthy_val (Token.refresh_token u)) as [rt|]; [|done].
      destruct (refreshTokens s !! rt) as [en|] eqn:Hen; [|done].
      apply store_wf_with_refresh; [|done]. simpl. by apply Href. }
    destruct (Js.opt_eqb token_type_hint "refresh_token").
    + unfold bind, ret.
      destruct (Revoke.revokeRefreshToken tok cid s) as [b s1] eqn:Hr. simpl.
      specialize (Hrefresh s Hwf). by rewrite Hr in Hrefresh.
    + unfold bind, ret.
      destruct (Revoke.revokeAccessToken tok cid s) as [b s1] eqn:Ha. simpl in *.
      destruct b; simpl; [done|].
      destruct (Revoke.revokeRefreshToken tok cid s1) as [b2 s2] eqn:Hr. simpl.
      specialize (Hrefresh s1 Haccess). by rewrite Hr in Hrefresh.
Qed.

(** X5. Every run of the server keeps the store consistent: whatever the
    requests and sweeps, token ids stay distinct, and every request,
    refresh entry, client and agent stays filed under its own id. *)
Theorem run_preserves_store_wf (L : Lib) (trace : list (Z * Event))
    (s : InMemoryStore) :
  store_wf s -> store_wf (run L trace s).
Proof.
  revert s. induction trace as [|[now e] trace IH]; intros s Hwf; [done|].
  cbn [run]. apply IH. by apply step_store_wf.
Qed.

Lemma Forall2_same {A} (R : A -> A -> Prop) (l : list A) :
  (forall x, R x x) -> List.Forall2 R l l.
Proof. intros HR. induction l; by constructor. Qed.

(** With distinct ids, flagging a record of the list changes that record
    and nothing else. *)
Lemma tokens_set_flag (u : Token.t) (l : list Token.t) :
  List.NoDup (List.map Token.token_id l) ->
  In u l ->
  List.Forall2 (fun t t' => t' = t \/ t' = Token.revoke t)
               l (Db.tokens_set (Token.token_id u) (Token.revoke u) l).
Proof.
  induction l as [|x l IH]; simpl; [done|].
  intros [Hx Hnd]%NoDup_cons_iff Hin.
  destruct (String.eqb_spec (Token.token_id x) (Token.token_id u)) as [Hid|Hid].
  - assert (u = x) as ->.
    { destruct Hin as [|Hin]; [done|]. destruct Hx. rewrite Hid.
      by apply List.in_map. }
    constructor; [by right|]. apply Forall2_same. by left.
  - constructor; [by left|]. apply IH; [done|].
    destruct Hin as [->|]; done.
Qed.

(** X6. A revocation request only ever sets [revoked] flags: whatever its
    parameters, it leaves the agents, the clients, the requests and the
    codes alone, keeps every token record in place, each one unchanged or
    flagged, and keeps every refresh entry, unchanged or flagged. *)
Theorem revoke_only_sets_flags (L : Lib)
    (token token_type_hint client_id client_secret : option string)
    (s : InMemoryStore) :
  store_wf s ->
  let s' := (Revoke.revokeHandler L token token_type_hint client_id client_secret s).2 in
  agents s' = agents s
  /\ clients s' = clients s
  /\ authRequests s' = authRequests s
  /\ authorizationCodes s' = authorizationCodes s
  /\ List.Forall2 (fun t t' => t' = t \/ t' = Token.revoke t) (tokens s) (tokens s')
  /\ forall k,
       refreshTokens s' !! k = refreshTokens s !! k
       \/ exists e, refreshTokens s !! k = Some e
                    /\ refreshTokens s' !! k = Some (RefreshTokenEntry.revoke e).
Proof.
  intros Hwf.
  set (P := fun s s' : InMemoryStore =>
    agents s' = agents s
    /\ clients s' = clients s
    /\ authRequests s' = authRequests s
    /\ authorizationCodes s' = authorizationCodes s
    /\ List.Forall2 (fun t t' => t' = t \/ t' = Token.revoke t) (tokens s) (tokens s')
    /\ forall k,
         refreshTokens s' !! k = refreshTokens s !! k
         \/ exists e, refreshTokens s !! k = Some e
                      /\ refreshTokens s' !! k = Some (RefreshTokenEntry.revoke e)).
  assert (forall s0, P s0 s0) as Hrefl.
  { intros s0. unfold P. split_and!; try done.
    - apply Forall2_same. by left.
    - by left. }
  assert (forall k e s0, refreshTokens s0 !! k = Some e ->
            forall k', <[k:=RefreshTokenEntry.revoke e]> (refreshTokens s0) !! k'
                       = refreshTokens s0 !! k'
                       \/ exists e', refreshTokens s0 !! k' = Some e'
                          /\ <[k:=RefreshTokenEntry.revoke e]> (refreshTokens s0) !! k'
                             = Some (RefreshTokenEntry.revoke e')) as Hins.
  { intros k e s0 He k'. destruct (decide (k = k')) as [<-|Hne].
    - right. exists e. by rewrite lookup_insert_eq.
    - left. by rewrite lookup_insert_ne. }
  assert (forall tok cid s0, store_wf s0 ->
            P s0 (Revoke.revokeRefreshToken tok cid s0).2) as Hrefresh.
  { intros tok cid s0 Hwf0. rewrite revokeRefreshToken_spec.
    destruct (refreshTokens s0 !! tok) as [en|] eqn:Hen; [|apply Hrefl].
    destruct (negb _); [apply Hrefl|]. simpl.
    destruct (Db.tokens_get _ (tokens s0)) as [t|] eqn:Ht; unfold P; simpl.
    - destruct (tokens_get_Some _ _ _ Ht) as [Hin Hid].
      split_and!; try done; [|by apply Hins].
      rewrite <- Hid. apply tokens_set_flag; [apply Hwf0|done].
    - split_and!; try done; [|by apply Hins]. apply Forall2_same. by left. }
  assert (forall tok cid s0, store_wf s0 ->
            P s0 (Revoke.revokeAccessToken tok cid s0).2) as Haccess.
  { intros tok cid s0 Hwf0. rewrite revokeAccessToken_spec.
    destruct (List.find _ (tokens s0)) as [u|] eqn:Hu; [|apply Hrefl].
    destruct (negb _); [apply Hrefl|]. simpl.
    apply List.find_some in Hu as [Hin _].
    pose proof (tokens_set_flag u (tokens s0) (wf_tokens _ Hwf0) Hin) as Hflag.
    destruct (Js.truthy_val (Token.refresh_token u)) as [rt|];
      [destruct (refreshTokens s0 !! rt) as [en|] eqn:Hen|];
      unfold P; simpl; split_and!; try done; try (by left). by apply Hins. }
  change (P s (Revoke.revokeHandler L token token_type_hint client_id client_secret s).2).
  unfold Revoke.revokeHandler.
  destruct (Js.truthy_val token) as [tok|]; [|exact (Hrefl s)].
  destruct (Js.truthy_val client_id) as [cid|]; [|exact (Hrefl s)].
  destruct (Js.truthy_val client_secret) as [csec|]; [|exact (Hrefl s)].
  unfold bind at 1. unfold Db.getClient at 1.
  destruct (clients s !! cid) as [cl|]; [|exact (Hrefl s)].
  destruct (negb _); [exact (Hrefl s)|].
  destruct (Js.opt_eqb token_type_hint "refresh_token"); unfold bind, ret.
  - specialize (Hrefresh tok cid s Hwf).
    by destruct (Revoke.revokeRefreshToken tok cid s).
  - specialize (Haccess tok cid s Hwf).
    destruct (Revoke.revokeAccessToken tok cid s) as [b s1] eqn:Ha.
    destruct b; simpl in *; [done|].
    assert (s1 = s) as ->.
    { rewrite revokeAccessToken_spec in Ha.
      destruct (List.find _ (tokens s)); [|by simplify_eq].
      destruct (negb _); by simplify_eq. }
    specialize (Hrefresh tok cid s Hwf).
    by destruct (Revoke.revokeRefreshToken tok cid s).
Qed.

Lemma revokeRefreshToken_twice (tok cid : string) (s : InMemoryStore) :
  Revoke.revokeRefreshToken tok cid (Revoke.revokeRefreshToken tok cid s).2
  = Revoke.revokeRefreshToken tok cid s.
Proof.
  rewrite (revokeRefreshToken_spec tok cid s).
  destruct (refreshTokens s !! tok) as [en|] eqn:Hen.
  2: { cbn [snd]. by rewrite revokeRefreshToken_spec, Hen. }
  destruct (negb _) eqn:Hc.
  { cbn [snd]. by rewrite revokeRefreshToken_spec, Hen, Hc. }
  cbn [snd]. rewrite revokeRefreshToken_spec.
  destruct (Db.tokens_get _ (tokens s)) as [t|] eqn:Ht.
  - cbn [refreshTokens tokens Db.with_tokens Db.with_refreshTokens].
    rewrite lookup_insert_eq.
    cbn [RefreshTokenEntry.client_id RefreshTokenEntry.token_id
         RefreshTokenEntry.revoke].
    rewrite Hc, (tokens_get_set_revoke _ _ _ Ht).
    destruct (tokens_get_Some _ _ _ Ht) as [_ Hid].
    unfold Db.with_tokens, Db.with_refreshTokens. simpl.
    rewrite insert_insert_eq.
    rewrite (tokens_set_twice _ (Token.revoke t)) by done. done.
  - cbn [refreshTokens tokens Db.with_tokens Db.with_refreshTokens].
    rewrite lookup_insert_eq.
    cbn [RefreshTokenEntry.client_id RefreshTokenEntry.token_id
         RefreshTokenEntry.revoke].
    rewrite Hc, Ht.
    unfold Db.with_refreshTokens. simpl. by rewrite insert_insert_eq.
Qed.

Lemma revokeRefreshToken_clients (tok cid : string) (s : InMemoryStore) :
  clients (Revoke.revokeRefreshToken tok cid s).2 = clients s.
Proof. rewrite revokeRefreshToken_spec. by repeat case_match. Qed.

(** The refresh path leaves the client of the record an access token
    resolves to as it was. *)
Lemma revokeRefreshToken_find_access (a tok cid : string) (s : InMemoryStore) :
  Token.client_id
    <$> List.find (fun x => String.eqb (Token.access_token x) a)
                  (tokens (Revoke.revokeRefreshToken tok cid s).2)
  = Token.client_id
      <$> List.find (fun x => String.eqb (Token.access_token x) a) (tokens s).
Proof.
  rewrite revokeRefreshToken_spec.
  destruct (refreshTokens s !! tok) as [en|]; [|done].
  destruct (negb _); [done|]. cbn [snd].
  destruct (Db.tokens_get _ (tokens s)) as [t|] eqn:Ht; [|done].
  cbn [tokens Db.with_tokens Db.with_refreshTokens].
  by apply find_access_after_flag.
Qed.

Lemma revokeAccessToken_twice (tok cid : string) (s : InMemoryStore) :
  (Revoke.revokeAccessToken tok cid s).1 = true ->
  Revoke.revokeAccessToken tok cid (Revoke.revokeAccessToken tok cid s).2
  = Revoke.revokeAccessToken tok cid s.
Proof.
  rewrite (revokeAccessToken_spec tok cid s).
  destruct (List.find _ (tokens s)) as [u|] eqn:Hu; [|done].
  destruct (negb _) eqn:Hc; [done|]. intros _. cbn [snd].
  rewrite revokeAccessToken_spec.
  pose proof (find_access_flagged _ _ _ Hu) as Hflag.
  destruct (Js.truthy_val (Token.refresh_token u)) as [rt|] eqn:Hrt.
  - destruct (refreshTokens s !! rt) as [en|] eqn:Hen.
    + cbn [refreshTokens tokens Db.with_tokens Db.with_refreshTokens].
      rewrite Hflag.
      cbn [Token.client_id Token.token_id Token.refresh_token Token.revoke].
      rewrite Hc, Hrt, lookup_insert_eq.
      unfold Db.with_tokens, Db.with_refreshTokens. simpl.
      rewrite insert_insert_eq.
      by rewrite (tokens_set_twice _ (Token.revoke u)).
    + cbn [refreshTokens tokens Db.with_tokens Db.with_refreshTokens].
      rewrite Hflag.
      cbn [Token.client_id Token.token_id Token.refresh_token Token.revoke].
      rewrite Hc, Hrt, Hen.
      unfold Db.with_tokens. simpl.
      by rewrite (tokens_set_twice _ (Token.revoke u)).
  - cbn [refreshTokens tokens Db.with_tokens Db.with_refreshTokens].
    rewrite Hflag.
    cbn [Token.client_id Token.token_id Token.refresh_token Token.revoke].
    rewrite Hc, Hrt.
    unfold Db.with_tokens. simpl.
    by rewrite (tokens_set_twice _ (Token.revoke u)).
Qed.

(** When the access path declines, it leaves the store as it was. *)
Lemma revokeAccessToken_declined (tok cid : string) (s : InMemoryStore) :
  (Revoke.revokeAccessToken tok cid s).1 = false ->
  Revoke.revokeAccessToken tok cid s = (false, s).
Proof. rewrite revokeAccessToken_spec. by repeat case_match. Qed.

(** The access path declines after the refresh path if it declined before. *)
Lemma revokeAccessToken_declined_after (tok cid : string) (s : InMemoryStore) :
  (Revoke.revokeAccessToken tok cid s).1 = false ->
  (Revoke.revokeAccessToken tok cid (Revoke.revokeRefreshToken tok cid s).2).1 = false.
Proof.
  rewrite !revokeAccessToken_spec.
  pose proof (revokeRefreshToken_find_access tok tok cid s) as Hsame.
  destruct (List.find _ (tokens s)) as [u|];
    destruct (List.find _ (tokens (Revoke.revokeRefreshToken tok cid s).2)) as [u1|];
    simplify_eq/=; try done.
  rewrite Hsame. by destruct (negb _).
Qed.

(** X7. Revocation is idempotent: a revocation request repeated on the
    store it produced gets the same response and leaves that store as it
    is. *)
Theorem revoke_idempotent (L : Lib)
    (token token_type_hint client_id client_secret : option string)
    (s : InMemoryStore) :
  let first := Revoke.revokeHandler L token token_type_hint client_id client_secret s in
  Revoke.revokeHandler L token token_type_hint client_id client_secret first.2 = first.
Proof.
  cbv zeta. unfold Revoke.revokeHandler.
  destruct (Js.truthy_val token) as [tok|]; [|done].
  destruct (Js.truthy_val client_id) as [cid|]; [|done].
  destruct (Js.truthy_val client_secret) as [csec|]; [|done].
  unfold bind, ret, Db.getClient.
  destruct (clients s !! cid) as [cl|] eqn:Hcl; [|simpl; by rewrite Hcl].
  destruct (negb _) eqn:Hsecret; [simpl; by rewrite Hcl, Hsecret|].
  destruct (Js.opt_eqb token_type_hint "refresh_token").
  - pose proof (revokeRefreshToken_twice tok cid s) as Htwice.
    pose proof (revokeRefreshToken_clients tok cid s) as Hclients.
    destruct (Revoke.revokeRefreshToken tok cid s) as [b s1]. simpl in *.
    rewrite Hclients, Hcl, Hsecret. by rewrite Htwice.
  - destruct (Revoke.revokeAccessToken tok cid s) as [b s1] eqn:Ha.
    destruct b; simpl.
    + pose proof (revokeAccessToken_twice tok cid s) as Htwice.
      rewrite Ha in Htwice. simpl in Htwice.
      assert (clients s1 = clients s) as ->.
      { rewrite revokeAccessToken_spec in Ha. repeat case_match; by simplify_eq/=. }
      rewrite Hcl, Hsecret, Htwice by done. done.
    + pose proof (revokeAccessToken_declined tok cid s) as Hdecl.
      rewrite Ha in Hdecl. specialize (Hdecl eq_refl). simplify_eq.
      pose proof (revokeRefreshToken_twice tok cid s) as Htwice.
      pose proof (revokeRefreshToken_clients tok cid s) as Hclients.
      pose proof (revokeAccessToken_declined_after tok cid s) as Hafter.
      rewrite Ha in Hafter. specialize (Hafter eq_refl).
      apply revokeAccessToken_declined in Hafter.
      destruct (Revoke.revokeRefreshToken tok cid s) as [b2 s2]. simpl in *.
      rewrite Hclients, Hcl, Hsecret, Hafter. simpl. by rewrite Htwice.
Qed.

(** X8. Revoking an access token cascades: once the client it belongs to
    has revoked it, its introspection answers [active: false] at any time,
    and the refresh token of its record, if stored, is flagged, so that a
    refresh grant with it is refused with [invalid_grant] and its
    introspection answers [active: false] as well. *)
Theorem access_revocation_cascades (L : Lib) (access cid secret : string)
    (hint : option string) (s : InMemoryStore) (cl : Client.t) (record : Token.t) :
  access <> "" -> cid <> "" -> secret <> "" ->
  clients s !! cid = Some cl ->
  bcrypt_compare L secret (Client.client_secret_hash cl) = true ->
  Js.opt_eqb hint "refresh_token" = false ->
  List.find (fun x => String.eqb (Token.access_token x) access) (tokens s)
  = Some record ->
  Token.client_id record = cid ->
  let after := Revoke.revokeHandler L (Some access) hint (Some cid) (Some secret) s in
  after.1 = {| http_status := 200; body := EmptyObject |}
  /\ (forall now : Z,
        Introspect.introspectHandler L now (Some access) None (Some cid) (Some secret)
                                     after.2
        = ({| http_status := 200; body := Introspection Inactive |}, after.2))
  /\ (forall (rt : string) (entry : RefreshTokenEntry.t),
        Js.truthy_val (Token.refresh_token record) = Some rt ->
        refreshTokens s !! rt = Some entry ->
        refreshTokens after.2 !! rt = Some (RefreshTokenEntry.revoke entry)
        /\ (forall (now : Z) (tokRnd : string),
              TokenEndpoint.handleRefreshTokenGrant L now tokRnd (Some rt) (Some cid)
                                                    (Some secret) after.2
              = ({| http_status := 400;
                    body := OAuthError "invalid_grant"
                                       "Refresh token has been revoked" |}, after.2))
        /\ (forall now : Z,
              Introspect.introspectHandler L now (Some rt) (Some "refresh_token")
                                           (Some cid) (Some secret) after.2
              = ({| http_status := 200; body := Introspection Inactive |}, after.2))).
Proof.
  intros Haccess Hcid Hsecret Hcl Hcompare Hhint Hfind Hbound. cbv zeta.
  rewrite (revoke_authenticated L access cid secret hint s cl) by done.
  rewrite Hhint, revokeAccessToken_spec, Hfind, Hbound, String.eqb_refl.
  cbn [negb fst snd].
  set (s1 := Db.with_tokens
               (Db.tokens_set (Token.token_id record) (Token.revoke record)) s).
  set (s2 := match Js.truthy_val (Token.refresh_token record) with
             | Some rt =>
                 match refreshTokens s !! rt with
                 | Some e =>
                     Db.with_refreshTokens (insert rt (RefreshTokenEntry.revoke e)) s1
                 | None => s1
                 end
             | None => s1
             end).
  assert (clients s2 = clients s) as Hclients by (subst s2 s1; by repeat case_match).
  assert (tokens s2 = Db.tokens_set (Token.token_id record) (Token.revoke record)
                                    (tokens s)) as Htokens
    by (subst s2 s1; by repeat case_match).
  split_and!; [done|..].
  - intros now.
    rewrite (introspect_authenticated L now access cid secret None s2 cl)
      by (by rewrite ?Hclients).
    cbn [Js.opt_eqb]. unfold Introspect.introspectAccessToken.
    destruct (Jwt.verifyAccessToken L now access); [|done].
    unfold_db. by rewrite Htokens, (find_access_flagged _ _ _ Hfind).
  - intros rt entry Hrt Hentry.
    assert (refreshTokens s2 !! rt = Some (RefreshTokenEntry.revoke entry)) as Hflagged.
    { subst s2 s1. rewrite Hrt, Hentry. simpl. apply lookup_insert_eq. }
    apply truthy_val_Some in Hrt as [_ Hne].
    split_and!; [done|..].
    + intros now tokRnd. unfold TokenEndpoint.handleRefreshTokenGrant.
      rewrite !truthy_val_intro by done.
      unfold_db. rewrite Hclients, Hcl, Hcompare. cbn [negb].
      by rewrite Hflagged.
    + intros now.
      rewrite (introspect_authenticated L now rt cid secret _ s2 cl)
        by (by rewrite ?Hclients).
      cbn [Js.opt_eqb]. rewrite String.eqb_refl.
      unfold Introspect.introspectRefreshToken. unfold_db. by rewrite Hflagged.
Qed.

(** ** The token endpoint, read backwards *)

Lemma validatePKCE_true (verifier challenge method : string) :
  Crypto.validatePKCE verifier challenge method = true ->
  method = "S256" /\ Sha256.sha256_base64url verifier = challenge.
Proof.
  unfold Crypto.validatePKCE.
  destruct (String.eqb_spec method "S256") as [->|]; simpl; [|done].
  by intros ?%String.eqb_eq.
Qed.

(** X9. The authorization-code grant issues tokens only when every check
    of the exchange has passed: the client authenticates, the code
    resolves to a stored request that holds this very code and belongs to
    this client, the request's challenge method is S256 and its challenge
    is the base64url SHA-256 of the presented verifier, the request is not
    past its [expires_at], and it carries an agent and a model. *)
Theorem authorization_code_grant_sound (L : Lib) (now : Z) (tokRnd rtRnd : string)
    (code code_verifier client_id client_secret : option string)
    (s s' : InMemoryStore) (r : Response) :
  TokenEndpoint.handleAuthorizationCodeGrant L now tokRnd rtRnd
    code code_verifier client_id client_secret s = (r, s') ->
  http_status r = 200 ->
  exists c verifier cid secret cl rid ar agent_id model,
    code = Some c /\ code_verifier = Some verifier
    /\ client_id = Some cid /\ client_secret = Some secret
    /\ clients s !! cid = Some cl
    /\ bcrypt_compare L secret (Client.client_secret_hash cl) = true
    /\ authorizationCodes s !! c = Some rid
    /\ authRequests s !! rid = Some ar
    /\ AuthRequest.code ar = Some c
    /\ AuthRequest.client_id ar = cid
    /\ AuthRequest.code_challenge_method ar = "S256"
    /\ Sha256.sha256_base64url verifier = AuthRequest.code_challenge ar
    /\ ~ AuthRequest.expires_at ar < now
    /\ AuthRequest.agent_id ar = Some agent_id
    /\ AuthRequest.model ar = Some model
    /\ body r = TokenResponse
                  (Jwt.generateAccessToken L now agent_id cid model
                                           (AuthRequest.scope ar))
                  "Bearer" 3600 (Crypto.generateRefreshToken rtRnd)
                  (AuthRequest.scope ar).
Proof.
  unfold TokenEndpoint.handleAuthorizationCodeGrant. unfold_db.
  intros Hrun Hok.
  repeat (case_match; simplify_eq/=; try done).
  repeat match goal with
         | H : Js.truthy_val _ = Some _ |- _ => apply truthy_val_Some in H as [? _]
         | H : negb _ = false |- _ => apply negb_false_iff in H
         | H : String.eqb _ _ = true |- _ => apply String.eqb_eq in H
         | H : (_ <? _) = false |- _ => apply Z.ltb_ge in H
         | H : Crypto.validatePKCE _ _ _ = true |- _ =>
             apply validatePKCE_true in H as [? ?]
         | H : Js.opt_eqb ?x _ = true |- _ =>
             destruct x eqn:?; simpl in H; [apply String.eqb_eq in H|done]
         end.
  subst. eexists _, _, _, _, _, _, _, _, _. split_and!; try done; eauto. lia.
Qed.

(** X10. The refresh grant issues a token only to a client that
    authenticates, for a stored refresh entry that is not revoked, not past
    its [expires_at] and bound to that client.  It does not rotate: the
    response echoes the presented refresh token, the refresh entries, the
    requests and the codes stay as they were, and the only change is one
    token record stored under the new id, whose agent comes from the entry
    and whose model and scope come from the record the entry points to. *)
Theorem refresh_grant_sound (L : Lib) (now : Z) (tokRnd : string)
    (refresh_token client_id client_secret : option string)
    (s s' : InMemoryStore) (r : Response) :
  TokenEndpoint.handleRefreshTokenGrant L now tokRnd
    refresh_token client_id client_secret s = (r, s') ->
  http_status r = 200 ->
  exists rt cid secret cl entry original,
    refresh_token = Some rt /\ client_id = Some cid /\ client_secret = Some secret
    /\ clients s !! cid = Some cl
    /\ bcrypt_compare L secret (Client.client_secret_hash cl) = true
    /\ refreshTokens s !! rt = Some entry
    /\ RefreshTokenEntry.revoked entry = false
    /\ ~ RefreshTokenEntry.expires_at entry < now
    /\ RefreshTokenEntry.client_id entry = cid
    /\ Db.tokens_get (RefreshTokenEntry.token_id entry) (tokens s) = Some original
    /\ body r = TokenResponse
                  (Jwt.generateAccessToken L now (RefreshTokenEntry.agent_id entry)
                     cid (Token.model original) (Token.scope original))
                  "Bearer" 3600 rt (Token.scope original)
    /\ refreshTokens s' = refreshTokens s
    /\ authRequests s' = authRequests s
    /\ authorizationCodes s' = authorizationCodes s
    /\ clients s' = clients s
    /\ tokens s' = Db.tokens_set (Crypto.generateTokenId tokRnd)
                     (refreshedToken L now tokRnd rt cid entry original) (tokens s).
Proof.
  unfold TokenEndpoint.handleRefreshTokenGrant. unfold_db.
  intros Hrun Hok.
  repeat (case_match; simplify_eq/=; try done).
  repeat match goal with
         | H : Js.truthy_val _ = Some _ |- _ => apply truthy_val_Some in H as [? _]
         | H : negb _ = false |- _ => apply negb_false_iff in H
         | H : String.eqb _ _ = true |- _ => apply String.eqb_eq in H
         | H : (_ <? _) = false |- _ => apply Z.ltb_ge in H
         end.
  subst. eexists _, _, _, _, _, _. split_and!; try done; eauto. lia.
Qed.

(** X11. A token request that is not granted issues nothing: when the
    response is not a 200, the token records, the refresh entries, the
    clients and the agents are as before, and so is the whole store unless
    the response is [invalid_grant] for an expired authorization code, in
    which case that code and its request are removed. *)
Theorem token_request_refused (L : Lib) (now : Z) (tokRnd rtRnd : string)
    (b : TokenEndpoint.Body) (s s' : InMemoryStore) (r : Response) :
  TokenEndpoint.tokenHandler L now tokRnd rtRnd b s = (r, s') ->
  http_status r <> 200 ->
  tokens s' = tokens s
  /\ refreshTokens s' = refreshTokens s
  /\ clients s' = clients s
  /\ agents s' = agents s
  /\ (s' = s
      \/ exists code rid,
           body r = OAuthError "invalid_grant" "Authorization code expired"
           /\ TokenEndpoint.code b = Some code
           /\ authorizationCodes s !! code = Some rid
           /\ s' = Db.with_authRequests (delete rid)
                     (Db.with_authorizationCodes (delete code) s)).
Proof.
  unfold TokenEndpoint.tokenHandler, TokenEndpoint.handleAuthorizationCodeGrant,
    TokenEndpoint.handleRefreshTokenGrant. unfold_db.
  intros Hrun Hrefused.
  repeat (case_match; simplify_eq/=; try done); split_and!; try done; eauto.
  right.
  repeat match goal with
         | H : Js.truthy_val _ = Some _ |- _ => apply truthy_val_Some in H as [? _]
         end.
  eauto 10.
Qed.

(** X12. The expiry of a request is enforced at the token endpoint,
    whether the sweeper has run or not: an exchange that passes the client,
    code and PKCE checks for a request past its [expires_at] is refused
    with [invalid_grant], removes the code and the request, and leaves the
    code unusable from then on. *)
Theorem expired_code_exchange (L : Lib) (now : Z)
    (tokRnd rtRnd code verifier cid csec : string) (s : InMemoryStore)
    (cl : Client.t) (rid : string) (ar : AuthRequest.t) :
  code <> "" -> verifier <> "" -> cid <> "" -> csec <> "" ->
  clients s !! cid = Some cl ->
  bcrypt_compare L csec (Client.client_secret_hash cl) = true ->
  Js.truthy_val (authorizationCodes s !! code) = Some rid ->
  authRequests s !! rid = Some ar ->
  AuthRequest.code ar = Some code ->
  AuthRequest.client_id ar = cid ->
  Crypto.validatePKCE verifier (AuthRequest.code_challenge ar)
                      (AuthRequest.code_challenge_method ar) = true ->
  AuthRequest.expires_at ar < now ->
  let after :=
    TokenEndpoint.handleAuthorizationCodeGrant L now tokRnd rtRnd
      (Some code) (Some verifier) (Some cid) (Some csec) s in
  after.1 = {| http_status := 400;
               body := OAuthError "invalid_grant" "Authorization code expired" |}
  /\ authorizationCodes after.2 !! code = None
  /\ authRequests after.2 !! rid = None
  /\ tokens after.2 = tokens s
  /\ refreshTokens after.2 = refreshTokens s
  /\ forall (now2 : Z) (tokRnd2 rtRnd2 verifier2 : string),
       verifier2 <> "" ->
       TokenEndpoint.handleAuthorizationCodeGrant L now2 tokRnd2 rtRnd2
         (Some code) (Some verifier2) (Some cid) (Some csec) after.2
       = ({| http_status := 400;
             body := OAuthError "invalid_grant"
                                "Invalid or expired authorization code" |}, after.2).
Proof.
  intros Hcode Hver Hcid Hcsec Hcl Hsecret Hrid Hlook Hc Hclient Hpkce Hexp.
  cbv zeta.
  rewrite (authorizationCodeGrant_found L now tokRnd rtRnd code verifier cid csec
             s cl rid ar) by done.
  rewrite Hpkce. apply Z.ltb_lt in Hexp. rewrite Hexp. cbn [negb fst snd].
  split_and!; try done.
  - simpl. apply lookup_delete_eq.
  - simpl. apply lookup_delete_eq.
  - intros now2 tokRnd2 rtRnd2 verifier2 Hver2.
    set (s1 := Db.with_authRequests (delete rid)
                 (Db.with_authorizationCodes (delete code) s)).
    assert (authorizationCodes s1 !! code = None) as Hgone
      by apply lookup_delete_eq.
    assert (clients s1 !! cid = Some cl) as Hcl1 by exact Hcl.
    clearbody s1.
    unfold TokenEndpoint.handleAuthorizationCodeGrant.
    rewrite !truthy_val_intro by done.
    unfold_db. rewrite Hcl1, Hsecret. simpl. by rewrite Hgone.
Qed.

(** ** The sweeper *)

(** X13. The sweeper removes exactly the requests and the refresh entries
    whose [expires_at] is before [now]: what it keeps is unchanged and not
    expired, what is not expired is kept; it leaves the tokens, the codes,
    the clients and the agents alone, and a second sweep at the same
    instant changes nothing. *)
Theorem cleanupExpired_spec (now : Z) (s : InMemoryStore) :
  let s' := (Db.cleanupExpired now s).2 in
  (forall k r, authRequests s' !! k = Some r
               <-> authRequests s !! k = Some r /\ ~ AuthRequest.expires_at r < now)
  /\ (forall k e, refreshTokens s' !! k = Some e
                  <-> refreshTokens s !! k = Some e
                      /\ ~ RefreshTokenEntry.expires_at e < now)
  /\ tokens s' = tokens s
  /\ authorizationCodes s' = authorizationCodes s
  /\ clients s' = clients s
  /\ agents s' = agents s
  /\ (Db.cleanupExpired now s').2 = s'.
Proof.
  cbv zeta. unfold Db.cleanupExpired. cbn [snd].
  split_and!; try done.
  - intros k r. cbn. by rewrite map_lookup_filter_Some.
  - intros k e. cbn. by rewrite map_lookup_filter_Some.
  - unfold Db.with_refreshTokens, Db.with_authRequests. cbn.
    f_equal; apply map_filter_filter_l; by intros ? ? ? ?.
Qed.

(** X14. The sweeper removes an expired request but not the code that
    points to it: the code stays in the code map, and its exchange is
    refused with [invalid_grant] because the request is gone; that
    exchange changes nothing. *)
Theorem swept_request_code_refused (L : Lib) (sweep now : Z)
    (tokRnd rtRnd code verifier cid csec : string) (s : InMemoryStore)
    (cl : Client.t) (rid : string) (ar : AuthRequest.t) :
  code <> "" -> verifier <> "" -> cid <> "" -> csec <> "" ->
  clients s !! cid = Some cl ->
  bcrypt_compare L csec (Client.client_secret_hash cl) = true ->
  Js.truthy_val (authorizationCodes s !! code) = Some rid ->
  authRequests s !! rid = Some ar ->
  AuthRequest.expires_at ar < sweep ->
  let swept := (step L sweep Sweep s).2 in
  authRequests swept !! rid = None
  /\ authorizationCodes swept !! code = authorizationCodes s !! code
  /\ TokenEndpoint.handleAuthorizationCodeGrant L now tokRnd rtRnd
       (Some code) (Some verifier) (Some cid) (Some csec) swept
     = ({| http_status := 400;
           body := OAuthError "invalid_grant" "Invalid authorization code" |}, swept).
Proof.
  intros Hcode Hver Hcid Hcsec Hcl Hsecret Hrid Hlook Hexp. cbv zeta.
  change (step L sweep Sweep s).2 with (Db.cleanupExpired sweep s).2.
  remember (Db.cleanupExpired sweep s).2 as s1 eqn:Hs1.
  assert (authRequests s1 !! rid = None) as Hgone.
  { subst s1. unfold Db.cleanupExpired. cbn.
    apply map_lookup_filter_None. right. intros r Hr. cbn.
    assert (r = ar) as -> by congruence. tauto. }
  assert (authorizationCodes s1 = authorizationCodes s) as Hcodes by by subst s1.
  assert (clients s1 !! cid = Some cl) as Hcl1 by by subst s1.
  clear Hs1. split_and!; [done|by rewrite Hcodes|].
  unfold TokenEndpoint.handleAuthorizationCodeGrant.
  rewrite !truthy_val_intro by done.
  unfold_db. rewrite Hcl1, Hsecret. simpl. by rewrite Hcodes, Hrid, Hgone.
Qed.

(** ** The shape of a challenge *)

Lemma string_length_app (a b : string) :
  String.length (a +:+ b) = (String.length a + String.length b)%nat.
Proof.
  induction a as [|c a IH]; [reflexivity|].
  change (String c a +:+ b) with (String c (a +:+ b)).
  cbn [String.length]. by rewrite IH.
Qed.

Lemma b64url_char_length (i : Z) :
  0 <= i < 64 -> String.length (Sha256.b64url_char i) = 1%nat.
Proof.
  intros Hi. assert (exists n, (n < 64)%nat /\ i = Z.of_nat n) as (n & Hn & ->).
  { exists (Z.to_nat i). lia. }
  unfold Sha256.b64url_char. rewrite Nat2Z.id.
  do 64 (destruct n as [|n]; [reflexivity|]). lia.
Qed.

Lemma lor_below (n a b : Z) :
  0 <= n -> 0 <= a < 2 ^ n -> 0 <= b < 2 ^ n -> 0 <= Z.lor a b < 2 ^ n.
Proof.
  intros Hn Ha Hb. split; [apply Z.lor_nonneg; lia|].
  destruct (Z.eq_dec (Z.lor a b) 0) as [Hz|Hne]; [rewrite Hz; lia|].
  assert (0 <= Z.lor a b) by (apply Z.lor_nonneg; lia).
  apply Z.log2_lt_pow2; [lia|].
  rewrite Z.log2_lor by lia.
  destruct (Z.eq_dec a 0) as [Ha0|Ha0]; destruct (Z.eq_dec b 0) as [Hb0|Hb0].
  - subst. rewrite Z.lor_0_l in Hne. lia.
  - subst a. rewrite Z.max_r by (change (Z.log2 0) with 0; apply Z.log2_nonneg). apply Z.log2_lt_pow2; lia.
  - subst b. rewrite Z.max_l by (change (Z.log2 0) with 0; apply Z.log2_nonneg). apply Z.log2_lt_pow2; lia.
  - apply Z.max_lub_lt; apply Z.log2_lt_pow2; lia.
Qed.

Lemma land_ones_below (x : Z) (n : Z) : 0 <= n -> 0 <= Z.land x (Z.ones n) < 2 ^ n.
Proof. intros Hn. rewrite Z.land_ones by done. apply Z.mod_pos_bound. lia. Qed.

Lemma be_bytes_bytes (n : nat) (x : Z) : List.Forall is_byte (Sha256.be_bytes n x).
Proof.
  induction n as [|n IH]; simpl; constructor; [|done].
  apply (land_ones_below _ 8). lia.
Qed.

Lemma be_bytes_length (n : nat) (x : Z) : List.length (Sha256.be_bytes n x) = n.
Proof. induction n; simpl; congruence. Qed.

Lemma round_length (st : list Z) (kw : Z * Z) :
  List.length st = 8%nat -> List.length (Sha256.round st kw) = 8%nat.
Proof.
  intros Hst. do 9 (destruct st as [|? st]; try discriminate). reflexivity.
Qed.

Lemma compress_length (st block : list Z) :
  List.length st = 8%nat -> List.length (Sha256.compress st block) = 8%nat.
Proof.
  intros Hst. unfold Sha256.compress.
  rewrite List.length_map, List.length_combine.
  assert (forall l st0, List.length st0 = 8%nat ->
            List.length (List.fold_left Sha256.round l st0) = 8%nat) as Hfold.
  { induction l as [|kw l IH]; intros st0 H0; simpl; [done|].
    apply IH. by apply round_length. }
  rewrite Hfold by done. lia.
Qed.

Lemma digest_bytes_shape (msg : list Z) :
  List.length (Sha256.digest_bytes msg) = 32%nat
  /\ List.Forall is_byte (Sha256.digest_bytes msg).
Proof.
  unfold Sha256.digest_bytes.
  set (blocks := Sha256.chunks16 _ _).
  assert (List.length (List.fold_left Sha256.compress blocks Sha256.H0) = 8%nat) as Hst.
  { assert (forall l st0, List.length st0 = 8%nat ->
              List.length (List.fold_left Sha256.compress l st0) = 8%nat) as Hfold.
    { induction l as [|b l IH]; intros st0 H0; simpl; [done|].
      apply IH. by apply compress_length. }
    by apply Hfold. }
  revert Hst. generalize (List.fold_left Sha256.compress blocks Sha256.H0).
  intros st Hst. split.
  - do 9 (destruct st as [|? st]; try discriminate). reflexivity.
  - clear Hst. induction st as [|w st IH]; cbn [List.map List.concat]; [constructor|].
    apply List.Forall_app. split; [apply be_bytes_bytes|done].
Qed.

(** The length of the base64url text of [n] bytes is ceil(4n/3). *)
Lemma base64url_length (fuel : nat) :
  forall bs : list Z,
    (List.length bs <= fuel)%nat ->
    List.Forall is_byte bs ->
    String.length (Sha256.base64url fuel bs)
    = ((4 * List.length bs + 2) / 3)%nat.
Proof.
  pose proof string_length_app as Happ.
  assert (forall b, is_byte b -> 0 <= Z.shiftr b 2 < 64) as H1.
  { intros b Hb. rewrite Z.shiftr_div_pow2 by lia. unfold is_byte in Hb.
    change (2 ^ 2) with 4. split; [apply Z.div_pos; lia|].
    apply Z.div_lt_upper_bound; lia. }
  assert (forall b, is_byte b -> 0 <= Z.shiftl (Z.land b 3) 4 < 64) as H2.
  { intros b Hb. rewrite Z.shiftl_mul_pow2 by lia.
    pose proof (land_ones_below b 2). change (Z.ones 2) with 3 in *.
    change (2 ^ 2) with 4 in *. change (2 ^ 4) with 16. lia. }
  assert (forall b, is_byte b -> 0 <= Z.shiftr b 4 < 64) as H3.
  { intros b Hb. rewrite Z.shiftr_div_pow2 by lia. unfold is_byte in Hb.
    change (2 ^ 4) with 16. split; [apply Z.div_pos; lia|].
    apply Z.div_lt_upper_bound; lia. }
  assert (forall b, is_byte b -> 0 <= Z.shiftl (Z.land b 15) 2 < 64) as H4.
  { intros b Hb. rewrite Z.shiftl_mul_pow2 by lia.
    pose proof (land_ones_below b 4). change (Z.ones 4) with 15 in *.
    change (2 ^ 4) with 16 in *. change (2 ^ 2) with 4. lia. }
  assert (forall b, is_byte b -> 0 <= Z.shiftr b 6 < 64) as H5.
  { intros b Hb. rewrite Z.shiftr_div_pow2 by lia. unfold is_byte in Hb.
    change (2 ^ 6) with 64. split; [apply Z.div_pos; lia|].
    apply Z.div_lt_upper_bound; lia. }
  assert (forall b, 0 <= Z.land b 63 < 64) as H6.
  { intros b. apply (land_ones_below b 6). lia. }
  assert (forall a b, 0 <= a < 64 -> 0 <= b < 64 -> 0 <= Z.lor a b < 64) as Hlor.
  { intros a b. apply (lor_below 6). lia. }
  induction fuel as [|fuel IH]; intros bs Hlen Hbytes.
  - destruct bs; [reflexivity|simpl in Hlen; lia].
  - destruct bs as [|b0 [|b1 [|b2 rest]]].
    + reflexivity.
    + apply List.Forall_cons_iff in Hbytes as [Hb0 _].
      destruct fuel; cbn [Sha256.base64url]; rewrite Happ, !b64url_char_length; auto.
    + apply List.Forall_cons_iff in Hbytes as [Hb0 Hbytes].
      apply List.Forall_cons_iff in Hbytes as [Hb1 _].
      destruct fuel; cbn [Sha256.base64url]; rewrite !Happ, !b64url_char_length; auto.
    + apply List.Forall_cons_iff in Hbytes as [Hb0 Hbytes].
      apply List.Forall_cons_iff in Hbytes as [Hb1 Hbytes].
      apply List.Forall_cons_iff in Hbytes as [Hb2 Hbytes].
      cbn [Sha256.base64url]. rewrite !Happ, !b64url_char_length by auto.
      rewrite IH by (simpl in Hlen; done || lia).
      cbn [List.length].
      replace (4 * S (S (S (List.length rest))) + 2)%nat
        with (4 * List.length rest + 2 + 4 * 3)%nat by lia.
      rewrite Nat.div_add by lia. lia.
Qed.

(** X17. The challenge computed from a verifier always has 43 characters,
    so [validatePKCE] refuses every stored challenge of another length,
    whatever the verifier. *)
Theorem challenge_has_43_characters (verifier : string) :
  String.length (Sha256.sha256_base64url verifier) = 43%nat
  /\ forall challenge method : string,
       String.length challenge <> 43%nat ->
       Crypto.validatePKCE verifier challenge method = false.
Proof.
  assert (String.length (Sha256.sha256_base64url verifier) = 43%nat) as Hlen.
  { unfold Sha256.sha256_base64url.
    destruct (digest_bytes_shape (Sha256.bytes_of_string verifier)) as [Hlen Hbytes].
    rewrite base64url_length by (done || lia). by rewrite Hlen. }
  split; [done|].
  intros challenge method Hother. unfold Crypto.validatePKCE.
  destruct (negb _); [done|].
  apply String.eqb_neq. intros Heq. by rewrite <- Heq in Hother.
Qed.

Lemma challenge_nonempty (verifier : string) : Sha256.sha256_base64url verifier <> "".
Proof.
  destruct (digest_bytes_shape (Sha256.bytes_of_string verifier)) as [Hlen Hbytes].
  intros Hempty.
  assert (String.length (Sha256.sha256_base64url verifier) = 43%nat) as Hl.
  { unfold Sha256.sha256_base64url.
    rewrite base64url_length by (done || lia). by rewrite Hlen. }
  by rewrite Hempty in Hl.
Qed.

(** ** The authorization endpoint *)

Lemma isAllowedRedirectUri_In (uri : string) (allowed : list string) :
  Validation.isAllowedRedirectUri uri allowed = true <-> In uri allowed.
Proof.
  unfold Validation.isAllowedRedirectUri. rewrite List.existsb_exists. split.
  - intros (x & Hin & ->%String.eqb_eq). done.
  - intros Hin. exists uri. by rewrite String.eqb_refl.
Qed.

(** [/authorize] for a request that passes every check. *)
Lemma authorize_accepted (L : Lib) (now : Z)
    (rnd cid redirect state challenge method : string) (scope : option string)
    (s : InMemoryStore) (cl : Client.t) :
  cid <> "" -> redirect <> "" -> state <> "" -> challenge <> "" ->
  Validation.isValidClientId cid = true ->
  url_parses L redirect = true ->
  method = "S256" ->
  clients s !! cid = Some cl ->
  In redirect (Client.allowed_redirect_uris cl) ->
  Authorize.authorizeHandler L now rnd
    (Authorize.mkQuery (Some cid) (Some redirect) (Some state) (Some challenge)
                       (Some method) scope (Some "code")) s
  = (html (spinningPage (Crypto.generateRequestId rnd) (Client.client_name cl)),
     Db.with_authRequests
       (insert (Crypto.generateRequestId rnd)
               (pendingRequest now rnd cid redirect state challenge method scope)) s).
Proof.
  intros Hcid Hredirect Hstate Hchallenge Hformat Hurl -> Hcl Hin.
  apply isAllowedRedirectUri_In in Hin.
  unfold Authorize.authorizeHandler. cbn [Authorize.client_id Authorize.redirect_uri
    Authorize.state Authorize.code_challenge Authorize.code_challenge_method
    Authorize.scope Authorize.response_type].
  rewrite !truthy_val_intro by done.
  unfold Validation.isValidUrl, Validation.isValidCodeChallengeMethod.
  rewrite Hformat, Hurl. cbn [Js.opt_eqb]. rewrite !String.eqb_refl. cbn [negb].
  unfold_db. rewrite Hcl, Hin. reflexivity.
Qed.

(** X15. [/authorize] either answers an error page and leaves the store as
    it was, or answers the spinning page and stores one request under the
    new id: a [pending] request without code or agent, created at [now] and
    expiring 600 s later, for a stored client, with challenge method
    ["S256"] and a redirect URI that is literally one of the client's
    registered URIs, and only when [response_type] is ["code"]. *)
Theorem authorize_outcome (L : Lib) (now : Z) (rnd : string) (q : Authorize.Query)
    (s : InMemoryStore) :
  let out := Authorize.authorizeHandler L now rnd q s in
  (exists error description,
      out = (html (errorPage error description), s))
  \/ (exists cid redirect state challenge cl,
        Authorize.client_id q = Some cid
        /\ Authorize.redirect_uri q = Some redirect
        /\ Authorize.state q = Some state
        /\ Authorize.code_challenge q = Some challenge
        /\ Authorize.code_challenge_method q = Some "S256"
        /\ Authorize.response_type q = Some "code"
        /\ Validation.isValidClientId cid = true
        /\ clients s !! cid = Some cl
        /\ In redirect (Client.allowed_redirect_uris cl)
        /\ out = (html (spinningPage (Crypto.generateRequestId rnd)
                                     (Client.client_name cl)),
                  Db.with_authRequests
                    (insert (Crypto.generateRequestId rnd)
                            (pendingRequest now rnd cid redirect state challenge
                                            "S256" (Authorize.scope q))) s)).
Proof.
  cbv zeta. unfold Authorize.authorizeHandler. unfold_db.
  repeat (case_match; simplify_eq/=; try (left; by eauto)).
  right.
  repeat match goal with
         | H : Js.truthy_val _ = Some _ |- _ => apply truthy_val_Some in H as [? _]
         | H : negb _ = false |- _ => apply negb_false_iff in H
         | H : Validation.isValidCodeChallengeMethod _ = true |- _ =>
             apply String.eqb_eq in H
         | H : Validation.isAllowedRedirectUri _ _ = true |- _ =>
             apply isAllowedRedirectUri_In in H
         | H : Js.opt_eqb ?x _ = true |- _ =>
             destruct x eqn:?; simpl in H; [apply String.eqb_eq in H|done]
         end.
  subst. eexists _, _, _, _, _. split_and!; try done; eauto.
Qed.

(** ** The whole flow *)

(** X16. The flow of the authorization-code grant succeeds end to end on
    every store that holds the client and the agent: [/authorize] with a
    registered redirect URI and the S256 challenge of a verifier, the
    agent's authentication and the exchange both no later than 600 s after
    the authorization, a poll in between at any time.  The poll hands out
    the generated code with the state and the redirect URI of the
    authorization request, and the exchange with that code and the
    verifier returns a bearer token response with the requested scope. *)
Theorem authorization_code_flow (L : Lib) (t0 t1 t2 t3 : Z)
    (reqRnd codeRnd tokRnd rtRnd : string)
    (cid csec redirect state verifier aid asec model : string)
    (scope : option string) (s : InMemoryStore) (cl : Client.t) (ag : Agent.t) :
  cid <> "" -> csec <> "" -> redirect <> "" -> state <> "" -> verifier <> "" ->
  aid <> "" -> asec <> "" -> model <> "" ->
  Validation.isValidClientId cid = true ->
  url_parses L redirect = true ->
  clients s !! cid = Some cl ->
  In redirect (Client.allowed_redirect_uris cl) ->
  bcrypt_compare L csec (Client.client_secret_hash cl) = true ->
  agents s !! aid = Some ag ->
  bcrypt_compare L asec (Agent.agent_secret_hash ag) = true ->
  ~ t0 + 600000 < t1 -> ~ t0 + 600000 < t3 ->
  responses L
    [ (t0, Http (GET_authorize reqRnd
                   (Authorize.mkQuery (Some cid) (Some redirect) (Some state)
                      (Some (Sha256.sha256_base64url verifier)) (Some "S256")
                      scope (Some "code"))));
      (t1, Http (POST_agent_authenticate codeRnd
                   (Some (Crypto.generateRequestId reqRnd))
                   (Some aid) (Some asec) (Some model)));
      (t2, Http (GET_check_status (Some (Crypto.generateRequestId reqRnd))));
      (t3, Http (POST_token tokRnd rtRnd
                   (TokenEndpoint.mkBody (Some "authorization_code")
                      (Some (Crypto.generateAuthCode codeRnd)) (Some verifier)
                      (Some cid) (Some csec) None))) ]
    s
  = [ Some (html (spinningPage (Crypto.generateRequestId reqRnd)
                               (Client.client_name cl)));
      Some (json200 (AgentSuccess "Agent authenticated successfully"));
      Some (json200 (StatusAuthenticated (Crypto.generateAuthCode codeRnd)
                                         state redirect));
      Some (json200 (TokenResponse
                       (Jwt.generateAccessToken L t3 aid cid model
                          (Js.or_default scope CONFIG.DEFAULT_SCOPE))
                       "Bearer" 3600 (Crypto.generateRefreshToken rtRnd)
                       (Js.or_default scope CONFIG.DEFAULT_SCOPE))) ].
Proof.
  intros Hcid Hcsec Hredirect Hstate Hverifier Haid Hasec Hmodel Hformat Hurl
         Hcl Hin Hcsecret Hag Hasecret Ht1 Ht3.
  pose proof (challenge_nonempty verifier) as Hchallenge.
  assert (Crypto.generateRequestId reqRnd <> "") as Hrid
    by (by apply generated_nonempty).
  assert (Crypto.generateAuthCode codeRnd <> "") as Hcode
    by (by apply generated_nonempty).
  set (rid := Crypto.generateRequestId reqRnd) in *.
  set (code := Crypto.generateAuthCode codeRnd) in *.
  set (challenge := Sha256.sha256_base64url verifier) in *.
  set (ar0 := pendingRequest t0 reqRnd cid redirect state challenge "S256" scope).
  set (ar1 := AuthRequest.spread ar0 (authenticatedPatch aid model code)).
  set (ar2 := AuthRequest.spread ar1 completedPatch).
  (* authorize *)
  cbn [responses step handle]. unfold bind at 1, ret at 1.
  rewrite (authorize_accepted L t0 reqRnd cid redirect state challenge "S256"
             scope s cl) by done.
  fold rid ar0. set (s1 := Db.with_authRequests (insert rid ar0) s).
  (* authenticate *)
  unfold bind at 1, ret at 1.
  rewrite (agentAuthenticate_found L t1 codeRnd rid aid asec model s1 ar0)
    by (try done; apply lookup_insert_eq).
  replace (AuthRequest.expires_at ar0 <? t1) with false
    by (symmetry; apply Z.ltb_ge; simpl;
        unfold CONFIG.AUTH_REQUEST_EXPIRES_IN; lia).
  cbn [AuthRequest.status ar0 pendingRequest AuthRequest.Status_eqb negb].
  change (agents s1) with (agents s). rewrite Hag, Hasecret. cbn [negb].
  fold code ar1.
  set (s2 := Db.with_authorizationCodes (insert code rid)
               (Db.with_authRequests (insert rid ar1) s1)).
  (* poll *)
  unfold bind at 1, ret at 1.
  rewrite (checkStatus_found t2 rid s2 ar1) by (try done; apply lookup_insert_eq).
  cbn [AuthRequest.status AuthRequest.code AuthRequest.state AuthRequest.redirect_uri
       ar1 ar0 pendingRequest AuthRequest.spread authenticatedPatch
       AuthRequest.over AuthRequest.over_opt AuthRequest.p_status AuthRequest.p_code
       AuthRequest.Status_eqb andb].
  rewrite andb_false_r, (truthy_val_intro _ Hcode).
  fold ar0 ar1 ar2.
  set (s3 := Db.with_authRequests (insert rid ar2) s2).
  (* exchange *)
  unfold bind at 1, ret at 1.
  unfold TokenEndpoint.tokenHandler.
  cbn [TokenEndpoint.grant_type TokenEndpoint.code TokenEndpoint.code_verifier
       TokenEndpoint.client_id TokenEndpoint.client_secret TokenEndpoint.refresh_token].
  rewrite truthy_val_intro by done. rewrite String.eqb_refl.
  rewrite (authorizationCodeGrant_found L t3 tokRnd rtRnd code verifier cid csec
             s3 cl rid ar2);
    [|done|done|done|done|exact Hcl|done
     |change (authorizationCodes s3) with (<[code:=rid]> (authorizationCodes s));
      rewrite lookup_insert_eq; by apply truthy_val_intro
     |apply lookup_insert_eq|done|done].
  assert (Crypto.validatePKCE verifier (AuthRequest.code_challenge ar2)
                              (AuthRequest.code_challenge_method ar2) = true) as ->.
  { unfold Crypto.validatePKCE. cbn. apply String.eqb_refl. }
  replace (AuthRequest.expires_at ar2 <? t3) with false
    by (symmetry; apply Z.ltb_ge; simpl;
        unfold CONFIG.AUTH_REQUEST_EXPIRES_IN; lia).
  cbn [negb AuthRequest.agent_id AuthRequest.model ar2 ar1 ar0 pendingRequest
       AuthRequest.spread authenticatedPatch completedPatch
       AuthRequest.over AuthRequest.over_opt AuthRequest.p_agent_id
       AuthRequest.p_model].
  rewrite !truthy_val_intro by done.
  reflexivity.
Qed.

(** ** The agent's authentication, part by part *)

(** What the first part of the handler can do. *)
Lemma beforeVerifySecret_cases (now : Z)
    (request_id agent_id agent_secret model : option string) (s : InMemoryStore) :
  let begun := AgentAuth.beforeVerifySecret now request_id agent_id agent_secret
                                            model s in
  (exists r, begun.1 = AgentAuth.Answered r /\ http_status r <> 200
             /\ (begun.2 = s
                 \/ exists rid ar,
                      request_id = Some rid
                      /\ authRequests s !! rid = Some ar
                      /\ (AuthRequest.expires_at ar < now
                          /\ begun.2 = patched rid expiredPatch s
                          \/ ~ AuthRequest.expires_at ar < now
                             /\ AuthRequest.status ar = AuthRequest.pending
                             /\ (exists aid, agent_id = Some aid
                                             /\ agents s !! aid = None)
                             /\ begun.2 = patched rid errorPatch s)))
  \/ (exists rid aid asec m ar ag,
        request_id = Some rid /\ agent_id = Some aid
        /\ agent_secret = Some asec /\ model = Some m
        /\ begun.1 = AgentAuth.Verifying rid aid asec m ag
        /\ begun.2 = s
        /\ authRequests s !! rid = Some ar
        /\ AuthRequest.status ar = AuthRequest.pending
        /\ ~ AuthRequest.expires_at ar < now
        /\ agents s !! aid = Some ag).
Proof.
  unfold AgentAuth.beforeVerifySecret, patched. unfold_db. cbn zeta.
  destruct (Js.truthy_val request_id) as [rid|] eqn:Hrid;
    [|left; eexists; split_and!; [reflexivity|done|by left]].
  destruct (Js.truthy_val agent_id) as [aid|] eqn:Haid;
    [|left; eexists; split_and!; [reflexivity|done|by left]].
  destruct (Js.truthy_val agent_secret) as [asec|] eqn:Hasec;
    [|left; eexists; split_and!; [reflexivity|done|by left]].
  destruct (Js.truthy_val model) as [m|] eqn:Hmodel;
    [|left; eexists; split_and!; [reflexivity|done|by left]].
  apply truthy_val_Some in Hrid as [-> _]. apply truthy_val_Some in Haid as [-> _].
  apply truthy_val_Some in Hasec as [-> _]. apply truthy_val_Some in Hmodel as [-> _].
  destruct (authRequests s !! rid) as [ar|] eqn:Har;
    [|left; eexists; split_and!; [reflexivity|done|by left]].
  destruct (Z.ltb_spec (AuthRequest.expires_at ar) now) as [Hexpired|Hlive].
  { left. rewrite Har. cbn [fst snd]. eexists. split_and!; [reflexivity|done|].
    right. exists rid, ar. rewrite !Har. split_and!; try done. by left. }
  destruct (AuthRequest.Status_eqb (AuthRequest.status ar) AuthRequest.pending)
    eqn:Hstatus; cbn [negb];
    [|left; eexists; split_and!; [reflexivity|done|by left]].
  apply Status_eqb_eq in Hstatus.
  destruct (agents s !! aid) as [ag|] eqn:Hag.
  - right. exists rid, aid, asec, m, ar, ag. split_and!; try done. lia.
  - left. rewrite Har. cbn [fst snd]. eexists. split_and!; [reflexivity|done|].
    right. exists rid, ar. rewrite !Har. split_and!; try done. right.
    split_and!; try done; [lia|by exists aid].
Qed.

(** X18. The agent's authentication decides before it verifies the secret
    and writes after.  It answers 200 only when, on the store it read at
    [now], the request was stored, [pending] and not past its
    [expires_at] and the agent was stored, and when the agent's secret
    verifies.  The write that follows the suspension is unconditional: on
    the store [s2] the other requests have left, it files the new code
    under the request id and patches whatever request is then stored
    under that id with the agent, the model, the code and
    [authenticated]. *)
Theorem agent_authentication_sound (L : Lib) (now : Z) (rnd : string)
    (request_id agent_id agent_secret model : option string)
    (s s1 s2 s3 : InMemoryStore) (k : AgentAuth.Suspended) (r : Response) :
  AgentAuth.beforeVerifySecret now request_id agent_id agent_secret model s = (k, s1) ->
  AgentAuth.resume L rnd k s2 = (r, s3) ->
  http_status r = 200 ->
  exists rid aid asec m ar ag,
    request_id = Some rid /\ agent_id = Some aid
    /\ agent_secret = Some asec /\ model = Some m
    /\ k = AgentAuth.Verifying rid aid asec m ag
    /\ s1 = s
    /\ authRequests s !! rid = Some ar
    /\ AuthRequest.status ar = AuthRequest.pending
    /\ ~ AuthRequest.expires_at ar < now
    /\ agents s !! aid = Some ag
    /\ bcrypt_compare L asec (Agent.agent_secret_hash ag) = true
    /\ body r = AgentSuccess "Agent authenticated successfully"
    /\ s3 = Db.with_authorizationCodes
              (insert (Crypto.generateAuthCode rnd) rid)
              (patched rid
                 (authenticatedPatch aid m (Crypto.generateAuthCode rnd)) s2).
Proof.
  intros Hbegun Hended Hok.
  pose proof (beforeVerifySecret_cases now request_id agent_id agent_secret model s)
    as Hcases.
  cbn zeta in Hcases. rewrite Hbegun in Hcases. cbn [fst snd] in Hcases.
  destruct Hcases as [(r0 & -> & Hrefused & _)|Hverifying].
  { cbn [AgentAuth.resume] in Hended. unfold ret in Hended.
    injection Hended as <- _. done. }
  destruct Hverifying as (rid & aid & asec & m & ar & ag & -> & -> & -> & -> & ->
                          & -> & Har & Hpending & Hlive & Hag).
  cbn [AgentAuth.resume] in Hended. rewrite afterVerifySecret_spec in Hended.
  destruct (bcrypt_compare L asec (Agent.agent_secret_hash ag)) eqn:Hsecret;
    injection Hended as <- <-; [|done].
  by exists rid, aid, asec, m, ar, ag.
Qed.

(** X19. A refused authentication hands out nothing, in either part:
    when the answer is not a 200, no code is filed and the tokens, the
    refresh entries, the clients and the agents are as they were.  Before
    the suspension the call leaves the store alone, or marks the request
    it read [expired] (past its [expires_at]) or [error] (pending, not
    expired, agent unknown).  After the suspension, when the secret does
    not verify, it marks [error] whatever request is then stored under
    the id, without looking at its status. *)
Theorem agent_authentication_refused (L : Lib) (now : Z) (rnd : string)
    (request_id agent_id agent_secret model : option string)
    (s s1 s2 s3 : InMemoryStore) (k : AgentAuth.Suspended) (r : Response) :
  AgentAuth.beforeVerifySecret now request_id agent_id agent_secret model s = (k, s1) ->
  AgentAuth.resume L rnd k s2 = (r, s3) ->
  http_status r <> 200 ->
  (authorizationCodes s1 = authorizationCodes s /\ tokens s1 = tokens s
   /\ refreshTokens s1 = refreshTokens s /\ clients s1 = clients s
   /\ agents s1 = agents s)
  /\ (authorizationCodes s3 = authorizationCodes s2 /\ tokens s3 = tokens s2
      /\ refreshTokens s3 = refreshTokens s2 /\ clients s3 = clients s2
      /\ agents s3 = agents s2)
  /\ (k = AgentAuth.Answered r /\ s3 = s2
      /\ (s1 = s
          \/ exists rid ar,
               request_id = Some rid
               /\ authRequests s !! rid = Some ar
               /\ (AuthRequest.expires_at ar < now
                   /\ s1 = patched rid expiredPatch s
                   \/ ~ AuthRequest.expires_at ar < now
                      /\ AuthRequest.status ar = AuthRequest.pending
                      /\ (exists aid, agent_id = Some aid /\ agents s !! aid = None)
                      /\ s1 = patched rid errorPatch s))
      \/ exists rid aid asec m ag,
           k = AgentAuth.Verifying rid aid asec m ag
           /\ s1 = s
           /\ agents s !! aid = Some ag
           /\ bcrypt_compare L asec (Agent.agent_secret_hash ag) = false
           /\ s3 = patched rid errorPatch s2).
Proof.
  intros Hbegun Hended Hrefused.
  assert (forall rid patch s0,
             authorizationCodes (patched rid patch s0) = authorizationCodes s0
             /\ tokens (patched rid patch s0) = tokens s0
             /\ refreshTokens (patched rid patch s0) = refreshTokens s0
             /\ clients (patched rid patch s0) = clients s0
             /\ agents (patched rid patch s0) = agents s0) as Hkeeps.
  { intros rid patch s0. unfold patched. by destruct (authRequests s0 !! rid). }
  pose proof (beforeVerifySecret_cases now request_id agent_id agent_secret model s)
    as Hcases.
  cbn zeta in Hcases. rewrite Hbegun in Hcases. cbn [fst snd] in Hcases.
  destruct Hcases as [(r0 & -> & _ & Hstore)|Hverifying].
  - cbn [AgentAuth.resume] in Hended. unfold ret in Hended.
    injection Hended as <- <-.
    split; [|split; [done|]].
    + destruct Hstore as [->|(rid & ar & _ & _ & [[_ ->]|(_ & _ & _ & ->)])];
        [done|apply Hkeeps..].
    + left. by split_and!.
  - destruct Hverifying as (rid & aid & asec & m & ar & ag & -> & -> & -> & -> & ->
                            & -> & Har & Hpending & Hlive & Hag).
    cbn [AgentAuth.resume] in Hended. rewrite afterVerifySecret_spec in Hended.
    destruct (bcrypt_compare L asec (Agent.agent_secret_hash ag)) eqn:Hsecret;
      injection Hended as <- <-; [done|].
    split; [done|]. split; [apply Hkeeps|].
    right. by exists rid, aid, asec, m, ag.
Qed.

(** X20. What a failed attempt leaves, and for how long.  A call whose
    secret does not verify marks [error] the request stored under the id
    when it goes on.  On every store that holds the request so marked
    (the one the call leaves is one), a new call made before the
    request's [expires_at] is refused before any secret is verified and
    changes nothing, and a poll answers the error and changes nothing.
    The mark is not final: a call made after [expires_at] sets the
    request to [expired] and polls then answer [pending]; a sweep after
    [expires_at] removes the request and polls then answer 404; and a call
    that was suspended when the failure was written still authenticates
    the request when it goes on. *)
Theorem failed_authentication_marks_error (rnd rid aid model : string)
    (s : InMemoryStore) (ar : AuthRequest.t) :
  rid <> "" ->
  authRequests s !! rid = Some ar ->
  let failed := AgentAuth.afterVerifySecret rnd rid aid model false s in
  let marked := AuthRequest.spread ar errorPatch in
  failed.1 = json (AgentFailure "invalid_client" "Invalid agent credentials") 401
  /\ failed.2 = patched rid errorPatch s
  /\ authRequests failed.2 !! rid = Some marked
  /\ forall s' : InMemoryStore,
       authRequests s' !! rid = Some marked ->
       (forall (later : Z) (aid2 asec2 model2 : string),
           aid2 <> "" -> asec2 <> "" -> model2 <> "" ->
           ~ AuthRequest.expires_at ar < later ->
           AgentAuth.beforeVerifySecret later (Some rid) (Some aid2) (Some asec2)
                                        (Some model2) s'
           = (AgentAuth.Answered
                (json (AgentFailure "invalid_request" "Auth request is already error")
                      400), s'))
       /\ (forall later : Z,
             CheckStatus.checkStatusHandler later (Some rid) s'
             = (json200 (StatusError "Invalid agent credentials"), s'))
       /\ (forall (later poll : Z) (aid2 asec2 model2 : string),
             aid2 <> "" -> asec2 <> "" -> model2 <> "" ->
             AuthRequest.expires_at ar < later ->
             let expired := AgentAuth.beforeVerifySecret later (Some rid) (Some aid2)
                              (Some asec2) (Some model2) s' in
             expired.1
             = AgentAuth.Answered
                 (json (AgentFailure "request_expired" "Auth request has expired") 400)
             /\ AuthRequest.status <$> authRequests expired.2 !! rid
                = Some AuthRequest.expired
             /\ CheckStatus.checkStatusHandler poll (Some rid) expired.2
                = (json200 StatusPending, expired.2))
       /\ (forall sweep poll : Z,
             AuthRequest.expires_at ar < sweep ->
             let swept := (Db.cleanupExpired sweep s').2 in
             CheckStatus.checkStatusHandler poll (Some rid) swept
             = (json (OAuthError "not_found" "Auth request not found") 404, swept))
       /\ (forall rnd2 aid2 model2 : string,
             let late := AgentAuth.afterVerifySecret rnd2 rid aid2 model2 true s' in
             late.1 = json200 (AgentSuccess "Agent authenticated successfully")
             /\ AuthRequest.status <$> authRequests late.2 !! rid
                = Some AuthRequest.authenticated).
Proof.
  intros Hrid Har. cbn zeta. rewrite afterVerifySecret_spec. cbn [fst snd].
  split; [done|]. split; [done|]. split; [by apply patched_lookup|].
  intros s1 Har1. split_and!.
  - intros later aid2 asec2 model2 Haid2 Hasec2 Hmodel2 Hlive.
    unfold AgentAuth.beforeVerifySecret. rewrite !truthy_val_intro by done.
    unfold_db. rewrite Har1.
    cbn [AuthRequest.spread AuthRequest.expires_at AuthRequest.status errorPatch
         AuthRequest.p_status AuthRequest.over AuthRequest.Status_eqb negb].
    by destruct (Z.ltb_spec (AuthRequest.expires_at ar) later) as [?|_]; [lia|].
  - intros later. rewrite (checkStatus_found later rid s1 _ Hrid Har1).
    cbn [AuthRequest.spread AuthRequest.expires_at AuthRequest.status errorPatch
         AuthRequest.p_status AuthRequest.over AuthRequest.Status_eqb
         AuthRequest.error_msg AuthRequest.p_error AuthRequest.over_opt
         AuthRequest.code AuthRequest.p_code].
    by rewrite andb_false_r.
  - intros later poll aid2 asec2 model2 Haid2 Hasec2 Hmodel2 Hexpired.
    unfold AgentAuth.beforeVerifySecret. rewrite !truthy_val_intro by done.
    unfold_db. rewrite Har1.
    cbn [AuthRequest.spread AuthRequest.expires_at].
    destruct (Z.ltb_spec (AuthRequest.expires_at ar) later) as [_|?]; [|lia].
    rewrite Har1. cbn [fst snd]. split; [reflexivity|].
    set (s2 := Db.with_authRequests _ s1).
    assert (authRequests s2 !! rid
            = Some (AuthRequest.spread (AuthRequest.spread ar errorPatch)
                                       expiredPatch)) as Har2.
    { unfold s2. cbn [authRequests Db.with_authRequests]. by rewrite lookup_insert_eq. }
    rewrite Har2. split; [reflexivity|].
    rewrite (checkStatus_found poll rid s2 _ Hrid Har2).
    cbn [AuthRequest.spread AuthRequest.expires_at AuthRequest.status errorPatch
         expiredPatch AuthRequest.p_status AuthRequest.over AuthRequest.Status_eqb
         AuthRequest.code AuthRequest.p_code AuthRequest.over_opt].
    by rewrite andb_false_r.
  - intros sweep poll Hexpired.
    unfold CheckStatus.checkStatusHandler. rewrite truthy_val_intro by done.
    unfold_db.
    assert (authRequests (Db.cleanupExpired sweep s1).2 !! rid = None) as ->; [|done].
    unfold Db.cleanupExpired.
    cbn [snd authRequests Db.with_authRequests Db.with_refreshTokens].
    apply map_lookup_filter_None. right. intros ar' Har'.
    rewrite Har1 in Har'. injection Har' as <-.
    intros Hkept. apply Hkept. exact Hexpired.
  - intros rnd2 aid2 model2. rewrite afterVerifySecret_spec. cbn [fst snd].
    split; [reflexivity|].
    cbn [authRequests Db.with_authorizationCodes].
    by rewrite (patched_lookup _ _ _ _ Har1).
Qed.




(** ** Issue, then introspect *)

(** X21. The access token an exchange returns is live for exactly its
    lifetime: when the signing library gives a non-empty token that
    decodes to the claims it signed, and no older record carries the same
    token string or the same token id, the client that got the token
    sees it active, with the claims of the exchange, at every instant
    before [exp] (one hour, in whole seconds, after the exchange), and
    inactive from [exp] on. *)
Theorem issued_token_introspects_active (L : Lib) (now : Z)
    (tokRnd rtRnd code verifier cid csec : string) (s : InMemoryStore)
    (cl : Client.t) (rid : string) (ar : AuthRequest.t) (aid model : string) :
  code <> "" -> verifier <> "" -> cid <> "" -> csec <> "" ->
  clients s !! cid = Some cl ->
  bcrypt_compare L csec (Client.client_secret_hash cl) = true ->
  Js.truthy_val (authorizationCodes s !! code) = Some rid ->
  authRequests s !! rid = Some ar ->
  AuthRequest.code ar = Some code ->
  AuthRequest.client_id ar = cid ->
  Crypto.validatePKCE verifier (AuthRequest.code_challenge ar)
                      (AuthRequest.code_challenge_method ar) = true ->
  ~ AuthRequest.expires_at ar < now ->
  Js.truthy_val (AuthRequest.agent_id ar) = Some aid ->
  Js.truthy_val (AuthRequest.model ar) = Some model ->
  let payload := JWTPayload.mk aid cid model (AuthRequest.scope ar) (now / 1000)
                               (now / 1000 + 3600) CONFIG.JWT_ISSUER in
  let access := jwt_sign L payload in
  access <> "" ->
  jwt_decode L access = Some payload ->
  List.Forall (fun t => Token.token_id t <> Crypto.generateTokenId tokRnd) (tokens s) ->
  List.Forall (fun t => Token.access_token t <> access) (tokens s) ->
  let issued :=
    TokenEndpoint.handleAuthorizationCodeGrant L now tokRnd rtRnd
      (Some code) (Some verifier) (Some cid) (Some csec) s in
  issued.1 = json200 (TokenResponse access "Bearer" 3600
                                    (Crypto.generateRefreshToken rtRnd)
                                    (AuthRequest.scope ar))
  /\ forall later : Z,
       (later / 1000 < now / 1000 + 3600 ->
        Introspect.introspectHandler L later (Some access) None (Some cid)
                                     (Some csec) issued.2
        = (json200 (Introspection
                      (ActiveAccess (AuthRequest.scope ar) cid
                                    (now / 1000 + 3600) (now / 1000)
                                    aid CONFIG.JWT_ISSUER model)), issued.2))
       /\ (now / 1000 + 3600 <= later / 1000 ->
           Introspect.introspectHandler L later (Some access) None (Some cid)
                                        (Some csec) issued.2
           = (json200 (Introspection Inactive), issued.2)).
Proof.
  intros Hcode Hverifier Hcid Hcsec Hcl Hsecret Hrid Har Hsame Hclient Hpkce Hlive
    Haid Hmodel payload access Haccess Hdecode Hids Htokens issued.
  unfold issued.
  rewrite (authorizationCodeGrant_found L now tokRnd rtRnd code verifier cid csec
             s cl rid ar) by done.
  rewrite Hpkce, Haid, Hmodel. cbn [negb].
  destruct (Z.ltb_spec (AuthRequest.expires_at ar) now) as [?|_]; [lia|].
  cbn zeta. cbn [fst snd]. split; [reflexivity|].
  set (s1 := afterExchange _ _ _ _ s).
  assert (clients s1 !! cid = Some cl) as Hcl1 by exact Hcl.
  assert (List.find (fun x => String.eqb (Token.access_token x) access) (tokens s1)
          = Some (issuedToken L now tokRnd rtRnd cid aid model ar)) as Hfind.
  { unfold s1.
    cbn [tokens afterExchange Db.with_authRequests Db.with_authorizationCodes
         Db.with_refreshTokens Db.with_tokens issuedToken Token.token_id].
    rewrite tokens_set_fresh by done. by apply find_access_last. }
  intros later.
  unfold Introspect.introspectHandler, Introspect.introspectAccessToken,
    Jwt.verifyAccessToken.
  rewrite !truthy_val_intro by done.
  unfold_db. rewrite Hcl1, Hsecret. cbn [negb Js.opt_eqb]. rewrite Hdecode.
  unfold payload. cbn [JWTPayload.iss JWTPayload.exp]. rewrite String.eqb_refl.
  cbn [andb].
  split; intros Hlater.
  - destruct (Z.leb_spec (now / 1000 + 3600) (later / 1000)) as [?|_]; [lia|].
    cbn [negb]. rewrite Hfind.
    cbn [issuedToken Token.revoked Token.client_id]. rewrite String.eqb_refl.
    cbn [negb JWTPayload.exp JWTPayload.scope JWTPayload.client_id JWTPayload.iat
         JWTPayload.sub JWTPayload.model JWTPayload.iss].
    destruct (Z.ltb_spec (now / 1000 + 3600) (later / 1000)) as [?|_]; [lia|].
    reflexivity.
  - destruct (Z.leb_spec (now / 1000 + 3600) (later / 1000)) as [_|?]; [|lia].
    reflexivity.
Qed.

(** ** The admin endpoints *)

Lemma firstInvalidUrl_None (L : Lib) (uris : list string) :
  Admin.firstInvalidUrl L uris = None <->
  List.Forall (fun u => url_parses L u = true) uris.
Proof.
  unfold Admin.firstInvalidUrl, Validation.isValidUrl.
  induction uris as [|u uris IH]; simpl.
  - split; [constructor|done].
  - destruct (url_parses L u) eqn:Hu; simpl.
    + rewrite IH. split; [by constructor|by inversion 1].
    + split; [done|]. inversion 1. congruence.
Qed.

(** X22. A registration checks before it hashes the secret and writes
    after.  The first part never changes the store: it answers
    [invalid_request] (400), or reaches [await hashSecret] with an id of
    valid format that is not in use on the store it read (the one asked
    for, or the generated one), a non-empty name and a non-empty list of
    redirect URIs that all parse.  The second part does not look again:
    on any store it sets the client under that id, with both grant types,
    the hash of the secret and the clock of that moment, and answers 201.
    So a registration that no other request overlaps answers 400 and
    leaves the store as it was, or answers 201 and stores a client under
    an id that was not in use; but of two registrations of one id that
    overlap both answer 201, and the one that goes on last replaces the
    client of the other. *)
Theorem createClient_outcome (L : Lib) (bcrypt_hash : string -> string)
    (idRnd secretRnd : string) (client_name : option string)
    (redirect_uris : Admin.RedirectUris) (client_id : option string)
    (s : InMemoryStore) :
  let begun := Admin.beforeHashSecret L idRnd secretRnd client_name redirect_uris
                                      client_id s in
  let registered (now : Z) (cid secret name : string) (uris : list string) :=
    Client.mk cid (bcrypt_hash secret) name uris
              ["authorization_code"; "refresh_token"] now in
  let created (now : Z) (cid secret name : string) (uris : list string) :=
    Admin.json
      (Admin.Created cid secret name uris ["authorization_code"; "refresh_token"] now
         "Save the client_secret securely. It will not be shown again.") 201 in
  begun.2 = s
  /\ ((exists description,
          begun.1 = Admin.Answered
                      (Admin.json (Admin.Error "invalid_request" description) 400))
      \/ exists name uris,
           let cid := Js.or_default client_id ("client_" +:+ idRnd) in
           begun.1 = Admin.Hashing cid secretRnd name uris
           /\ client_name = Some name /\ name <> ""
           /\ redirect_uris = Admin.UriArray uris /\ uris <> []
           /\ List.Forall (fun u => url_parses L u = true) uris
           /\ Validation.isValidClientId cid = true
           /\ clients s !! cid = None)
  /\ (forall (now : Z) (cid secret name : string) (uris : list string)
             (s2 : InMemoryStore),
        Admin.resume bcrypt_hash now (Admin.Hashing cid secret name uris) s2
        = (created now cid secret name uris,
           Db.with_clients (insert cid (registered now cid secret name uris)) s2))
  /\ (forall now : Z,
        let out := Admin.createClientHandler L bcrypt_hash now idRnd secretRnd
                     client_name redirect_uris client_id s in
        (exists description,
            out = (Admin.json (Admin.Error "invalid_request" description) 400, s))
        \/ exists name uris,
             let cid := Js.or_default client_id ("client_" +:+ idRnd) in
             clients s !! cid = None
             /\ out = (created now cid secretRnd name uris,
                       Db.with_clients
                         (insert cid (registered now cid secretRnd name uris)) s))
  /\ (forall (now1 now2 : Z) (cid secret1 secret2 name1 name2 : string)
             (uris1 uris2 : list string) (s2 : InMemoryStore),
        let first := Admin.resume bcrypt_hash now1
                       (Admin.Hashing cid secret1 name1 uris1) s2 in
        let second := Admin.resume bcrypt_hash now2
                        (Admin.Hashing cid secret2 name2 uris2) first.2 in
        first.1 = created now1 cid secret1 name1 uris1
        /\ clients first.2 !! cid = Some (registered now1 cid secret1 name1 uris1)
        /\ second.1 = created now2 cid secret2 name2 uris2
        /\ clients second.2 !! cid = Some (registered now2 cid secret2 name2 uris2)).
Proof.
  cbn zeta.
  assert (forall (now : Z) (cid secret name : string) (uris : list string)
                 (s2 : InMemoryStore),
             Admin.resume bcrypt_hash now (Admin.Hashing cid secret name uris) s2
             = (Admin.json
                  (Admin.Created cid secret name uris
                     ["authorization_code"; "refresh_token"] now
                     "Save the client_secret securely. It will not be shown again.")
                  201,
                Db.with_clients
                  (insert cid (Client.mk cid (bcrypt_hash secret) name uris
                                 ["authorization_code"; "refresh_token"] now)) s2))
    as Hresume by done.
  assert ((Admin.beforeHashSecret L idRnd secretRnd client_name redirect_uris
                                  client_id s).2 = s
          /\ ((exists description,
                  (Admin.beforeHashSecret L idRnd secretRnd client_name redirect_uris
                                          client_id s).1
                  = Admin.Answered
                      (Admin.json (Admin.Error "invalid_request" description) 400))
              \/ exists name uris,
                   (Admin.beforeHashSecret L idRnd secretRnd client_name redirect_uris
                                           client_id s).1
                   = Admin.Hashing (Js.or_default client_id ("client_" +:+ idRnd))
                                   secretRnd name uris
                   /\ client_name = Some name /\ name <> ""
                   /\ redirect_uris = Admin.UriArray uris /\ uris <> []
                   /\ List.Forall (fun u => url_parses L u = true) uris
                   /\ Validation.isValidClientId
                        (Js.or_default client_id ("client_" +:+ idRnd)) = true
                   /\ clients s !! Js.or_default client_id ("client_" +:+ idRnd) = None))
    as [Hstore Hbegun].
  { unfold Admin.beforeHashSecret. unfold_db.
    destruct (Js.truthy_val client_name) as [name|] eqn:Hname;
      [|split; [done|left; eexists; reflexivity]].
    apply truthy_val_Some in Hname as [-> Hname].
    destruct redirect_uris as [truthy|[|uri0 uris]]; cbn [Admin.array_of];
      [split; [done|left; eexists; reflexivity]..|].
    destruct (Admin.firstInvalidUrl L (uri0 :: uris)) as [bad|] eqn:Hurls;
      [split; [done|left; eexists; reflexivity]|].
    apply firstInvalidUrl_None in Hurls.
    destruct (Validation.isValidClientId _) eqn:Hformat; cbn [negb];
      [|split; [done|left; eexists; reflexivity]].
    destruct (clients s !! _) as [existing|] eqn:Hexisting;
      [split; [done|left; eexists; reflexivity]|].
    split; [done|]. right. exists name, (uri0 :: uris). by split_and!. }
  split; [exact Hstore|]. split; [exact Hbegun|]. split; [exact Hresume|]. split.
  - intros now. unfold Admin.createClientHandler, bind.
    rewrite (surjective_pairing
               (Admin.beforeHashSecret L idRnd secretRnd client_name redirect_uris
                                       client_id s)).
    rewrite Hstore.
    destruct Hbegun as [[description ->]|(name & uris & -> & _ & _ & _ & _ & _ & _
                                          & Hnone)].
    + left. by exists description.
    + right. exists name, uris. split; [exact Hnone|]. apply Hresume.
  - intros now1 now2 cid secret1 secret2 name1 name2 uris1 uris2 s2.
    rewrite !Hresume. cbn [fst snd clients Db.with_clients].
    rewrite !lookup_insert_eq. by split_and!.
Qed.

(** What a registration that answers 201 has done. *)
Lemma createClient_created (L : Lib) (bcrypt_hash : string -> string) (now : Z)
    (idRnd secretRnd : string) (client_name : option string)
    (redirect_uris : Admin.RedirectUris) (client_id : option string)
    (s s' : InMemoryStore) (r : Admin.Response) :
  Admin.createClientHandler L bcrypt_hash now idRnd secretRnd
    client_name redirect_uris client_id s = (r, s') ->
  Admin.http_status r = 201 ->
  exists name uris,
    let cid := Js.or_default client_id ("client_" +:+ idRnd) in
    let cl := Client.mk cid (bcrypt_hash secretRnd) name uris
                        ["authorization_code"; "refresh_token"] now in
    Validation.isValidClientId cid = true
    /\ List.Forall (fun u => url_parses L u = true) uris
    /\ Admin.body r
       = Admin.Created cid secretRnd name uris
           ["authorization_code"; "refresh_token"] now
           "Save the client_secret securely. It will not be shown again."
    /\ s' = Db.with_clients (insert cid cl) s.
Proof.
  unfold Admin.createClientHandler, Admin.resume, Admin.beforeHashSecret,
    Admin.afterHashSecret, Db.createClient. unfold_db. cbn zeta.
  destruct (Js.truthy_val client_name) as [name|] eqn:Hname;
    [|intros [= <- <-]; done].
  destruct redirect_uris as [truthy|[|uri0 uris]]; cbn [Admin.array_of];
    [intros [= <- <-]; done..|].
  destruct (Admin.firstInvalidUrl L (uri0 :: uris)) as [bad|] eqn:Hurls;
    [intros [= <- <-]; done|].
  apply firstInvalidUrl_None in Hurls.
  destruct (Validation.isValidClientId _) eqn:Hformat; cbn [negb];
    [|intros [= <- <-]; done].
  destruct (clients s !! _) as [existing|] eqn:Hexisting;
    intros [= <- <-]; [done|].
  intros _. by exists name, (uri0 :: uris).
Qed.

(** X23. The credentials a registration returns work: once the answer is
    201, the client is stored under the returned id with the returned
    redirect URIs, so every [/authorize] for that id with one of these
    URIs, a state, an S256 challenge and response type [code] shows the
    spinning page; and if the hashing library verifies what it hashed,
    the returned secret authenticates the client at the introspection
    endpoint. *)
Theorem registered_client_usable (L : Lib) (bcrypt_hash : string -> string) (now : Z)
    (idRnd secretRnd : string) (client_name : option string)
    (redirect_uris : Admin.RedirectUris) (client_id : option string)
    (s s' : InMemoryStore) (r : Admin.Response) :
  Admin.createClientHandler L bcrypt_hash now idRnd secretRnd
    client_name redirect_uris client_id s = (r, s') ->
  Admin.http_status r = 201 ->
  exists cid name uris grants,
    Admin.body r = Admin.Created cid secretRnd name uris grants now
                     "Save the client_secret securely. It will not be shown again."
    /\ (forall (t : Z) (rnd redirect state challenge : string) (scope : option string),
          In redirect uris -> redirect <> "" -> state <> "" -> challenge <> "" ->
          (Authorize.authorizeHandler L t rnd
             (Authorize.mkQuery (Some cid) (Some redirect) (Some state)
                (Some challenge) (Some "S256") scope (Some "code")) s').1
          = html (spinningPage (Crypto.generateRequestId rnd) name))
    /\ (secretRnd <> "" ->
        bcrypt_compare L secretRnd (bcrypt_hash secretRnd) = true ->
        forall (t : Z) (token : string) (hint : option string),
          token <> "" ->
          http_status (Introspect.introspectHandler L t (Some token) hint (Some cid)
                                                    (Some secretRnd) s').1 = 200).
Proof.
  intros Hrun Hcreated.
  destruct (createClient_created L bcrypt_hash now idRnd secretRnd client_name
              redirect_uris client_id s s' r Hrun Hcreated)
    as (name & uris & Hformat & Hurls & Hbody & ->).
  cbn zeta in *.
  set (cid := Js.or_default client_id ("client_" +:+ idRnd)) in *.
  assert (cid <> "") as Hcid.
  { intros Hempty. rewrite Hempty in Hformat. discriminate. }
  assert (clients (Db.with_clients
                     (insert cid (Client.mk cid (bcrypt_hash secretRnd) name uris
                                    ["authorization_code"; "refresh_token"] now)) s)
          !! cid
          = Some (Client.mk cid (bcrypt_hash secretRnd) name uris
                            ["authorization_code"; "refresh_token"] now)) as Hstored.
  { cbn [clients Db.with_clients]. by rewrite lookup_insert_eq. }
  eexists _, _, _, _. split; [exact Hbody|]. split.
  - intros t rnd redirect state challenge scope Hin Hredirect Hstate Hchallenge.
    rewrite List.Forall_forall in Hurls.
    by rewrite (authorize_accepted L t rnd cid redirect state challenge "S256" scope
                 _ _ Hcid Hredirect Hstate Hchallenge Hformat (Hurls _ Hin) eq_refl
                 Hstored Hin).
  - intros Hsecret Hverifies t token hint Htoken.
    rewrite (introspect_authenticated L t token cid secretRnd hint _ _ Htoken Hcid
               Hsecret Hstored Hverifies).
    destruct (Js.opt_eqb hint "refresh_token").
    + by destruct (Introspect.introspectRefreshToken _ _ _ _).
    + by destruct (Introspect.introspectAccessToken _ _ _ _ _).
Qed.

(** X24. An update changes only what it is given: it answers 404 for an
    unknown client and 400 for redirect URIs that are no array or that
    hold a URL that does not parse, touching nothing; otherwise it answers
    200 and replaces the client by one with the same id, secret hash, grant
    types and creation time, the new name if a non-empty one is given, and
    the new redirect URIs if an array is given (an empty one included). *)
Theorem updateClient_outcome (L : Lib) (clientId : string)
    (client_name : option string) (redirect_uris : Admin.RedirectUris)
    (s : InMemoryStore) :
  let out := Admin.updateClientHandler L clientId client_name redirect_uris s in
  (clients s !! clientId = None
   /\ out = (Admin.json (Admin.Error "not_found" "Client not found") 404, s))
  \/ (exists description,
        Admin.falsy_uris redirect_uris = false
        /\ out = (Admin.json (Admin.Error "invalid_request" description) 400, s))
  \/ (exists cl updated,
        clients s !! clientId = Some cl
        /\ out = (Admin.json (Admin.details updated) 200,
                  Db.with_clients (insert clientId updated) s)
        /\ Client.client_id updated = Client.client_id cl
        /\ Client.client_secret_hash updated = Client.client_secret_hash cl
        /\ Client.allowed_grant_types updated = Client.allowed_grant_types cl
        /\ Client.created_at updated = Client.created_at cl
        /\ Client.client_name updated
           = Js.or_default client_name (Client.client_name cl)
        /\ (Admin.falsy_uris redirect_uris = true
            /\ Client.allowed_redirect_uris updated = Client.allowed_redirect_uris cl
            \/ redirect_uris = Admin.UriArray (Client.allowed_redirect_uris updated)
               /\ List.Forall (fun u => url_parses L u = true)
                              (Client.allowed_redirect_uris updated))).
Proof.
  unfold Admin.updateClientHandler, Admin.updateClient. unfold_db. cbn zeta.
  destruct (clients s !! clientId) as [cl|] eqn:Hcl; [|by left].
  right.
  assert (forall name : option string,
             AuthRequest.over (Js.truthy_val name) (Client.client_name cl)
             = Js.or_default name (Client.client_name cl)) as Hname.
  { intros [n|]; [|done]. unfold Js.truthy_val, Js.or_default.
    by destruct (Js.falsy_str n). }
  destruct redirect_uris as [[|]|uris]; cbn [Admin.falsy_uris Admin.array_of negb].
  - left. eexists. split; [done|reflexivity].
  - right. eexists cl, _. rewrite Hcl. split; [done|]. split; [reflexivity|].
    cbn [Admin.spread Client.client_id Client.client_secret_hash
         Client.allowed_grant_types Client.created_at Client.client_name
         Client.allowed_redirect_uris Admin.p_client_name
         Admin.p_allowed_redirect_uris AuthRequest.over].
    split_and!; try done. by left.
  - destruct (Admin.firstInvalidUrl L uris) as [bad|] eqn:Hurls.
    + left. eexists. split; [done|reflexivity].
    + right. eexists cl, _. rewrite Hcl. split; [done|]. split; [reflexivity|].
      cbn [Admin.spread Client.client_id Client.client_secret_hash
           Client.allowed_grant_types Client.created_at Client.client_name
           Client.allowed_redirect_uris Admin.p_client_name
           Admin.p_allowed_redirect_uris AuthRequest.over].
      split_and!; try done. right. split; [done|]. by apply firstInvalidUrl_None.
Qed.

(** X25. An update can leave a client without redirect URIs, which a
    registration refuses: the empty array is accepted for any stored
    client, and from then on every [/authorize] for that client answers an
    error page and stores nothing. *)
Theorem update_can_empty_redirect_uris (L : Lib) (bcrypt_hash : string -> string)
    (clientId : string) (client_name : option string) (s : InMemoryStore)
    (cl : Client.t) :
  clients s !! clientId = Some cl ->
  let updated := Admin.updateClientHandler L clientId client_name
                   (Admin.UriArray []) s in
  Admin.http_status updated.1 = 200
  /\ (exists cl', clients updated.2 !! clientId = Some cl'
                  /\ Client.allowed_redirect_uris cl' = [])
  /\ (forall (now : Z) (rnd : string) (q : Authorize.Query),
        Authorize.client_id q = Some clientId ->
        exists error description,
          Authorize.authorizeHandler L now rnd q updated.2
          = (html (errorPage error description), updated.2))
  /\ (forall (now : Z) (idRnd secretRnd : string) (name cid : option string)
             (s0 : InMemoryStore),
        Admin.createClientHandler L bcrypt_hash now idRnd secretRnd name
                                  (Admin.UriArray []) cid s0
        = (Admin.json (Admin.Error "invalid_request"
                         "Missing required fields: client_name, redirect_uris (array)")
                      400, s0)).
Proof.
  intros Hcl updated.
  assert (updated
          = (Admin.json (Admin.details
                           (Admin.spread cl (Admin.mkPartial (Js.truthy_val client_name)
                                                             (Some [])))) 200,
             Db.with_clients
               (insert clientId
                  (Admin.spread cl (Admin.mkPartial (Js.truthy_val client_name)
                                                    (Some [])))) s)) as ->.
  { unfold updated, Admin.updateClientHandler, Admin.updateClient. unfold_db.
    rewrite Hcl. cbn [Admin.falsy_uris Admin.array_of Admin.firstInvalidUrl List.find].
    by rewrite Hcl. }
  cbn [fst snd]. set (s1 := Db.with_clients _ s).
  assert (clients s1 !! clientId
          = Some (Admin.spread cl (Admin.mkPartial (Js.truthy_val client_name)
                                                   (Some [])))) as Hstored.
  { unfold s1. cbn [clients Db.with_clients]. by rewrite lookup_insert_eq. }
  split_and!.
  - done.
  - by eexists.
  - intros now rnd [qc qr qs qch qm qsc qrt] Hq. cbn [Authorize.client_id] in Hq.
    subst qc. unfold Authorize.authorizeHandler. unfold_db.
    cbn [Authorize.client_id Authorize.redirect_uri Authorize.state
         Authorize.code_challenge Authorize.code_challenge_method
         Authorize.scope Authorize.response_type].
    destruct (Js.truthy_val (Some clientId)) as [c|] eqn:Hc; [|by eexists _, _].
    apply truthy_val_Some in Hc as [[= <-] _].
    repeat match goal with
           | |- context [match ?x with _ => _ end] =>
               lazymatch x with
               | clients _ !! _ => fail
               | _ => destruct x; try (by eexists _, _)
               end
           end.
    rewrite Hstored.
    cbn [Admin.spread Client.allowed_redirect_uris Admin.p_allowed_redirect_uris
         AuthRequest.over Validation.isAllowedRedirectUri List.existsb negb].
    by eexists _, _.
  - intros now idRnd secretRnd name cid s0.
    unfold Admin.createClientHandler, Admin.resume, Admin.beforeHashSecret.
    cbn [Admin.array_of].
    by destruct (Js.truthy_val name).
Qed.


(** The admin endpoints keep the store consistent: after a registration,
    an update or a deletion every client is still filed under its own id,
    and nothing else has moved. *)
Lemma admin_preserves_store_wf (L : Lib) (bcrypt_hash : string -> string) (now : Z)
    (idRnd secretRnd clientId : string) (client_name client_id : option string)
    (redirect_uris : Admin.RedirectUris) (s : InMemoryStore) :
  store_wf s ->
  store_wf (Admin.createClientHandler L bcrypt_hash now idRnd secretRnd client_name
                                      redirect_uris client_id s).2
  /\ store_wf (Admin.updateClientHandler L clientId client_name redirect_uris s).2
  /\ store_wf (Admin.deleteClientHandler clientId s).2.
Proof.
  intros Hwf.
  assert (forall k c, (forall k' c', clients s !! k' = Some c' -> Client.client_id c' = k')
                      -> Client.client_id c = k ->
                      store_wf (Db.with_clients (insert k c) s)) as Hinsert.
  { intros k c _ Hkc. destruct Hwf. split; try done.
    cbn [clients Db.with_clients]. intros k' c' Hlook.
    destruct (decide (k = k')) as [->|Hne].
    - rewrite lookup_insert_eq in Hlook. by simplify_eq.
    - rewrite lookup_insert_ne in Hlook by done. eauto. }
  split_and!.
  - unfold Admin.createClientHandler, Admin.resume, Admin.beforeHashSecret,
    Admin.afterHashSecret, Db.createClient. unfold_db. cbn zeta.
    destruct (Js.truthy_val client_name); [|done].
    destruct (Admin.array_of redirect_uris) as [[|u0 us]|]; [done| |done].
    destruct (Admin.firstInvalidUrl L (u0 :: us)); [done|].
    destruct (negb _); [done|].
    destruct (clients s !! _); [done|].
    cbn [snd]. apply Hinsert; [apply Hwf|done].
  - unfold Admin.updateClientHandler, Admin.updateClient. unfold_db. cbn zeta.
    destruct (clients s !! clientId) as [cl|] eqn:Hcl; [|done].
    assert (Client.client_id cl = clientId) as Hid by (by apply Hwf).
    destruct (Admin.falsy_uris redirect_uris).
    + rewrite Hcl. cbn [snd]. apply Hinsert; [apply Hwf|done].
    + destruct (Admin.array_of redirect_uris) as [uris|]; [|done].
      destruct (Admin.firstInvalidUrl L uris); [done|].
      rewrite Hcl. cbn [snd]. apply Hinsert; [apply Hwf|done].
  - unfold Admin.deleteClientHandler, Admin.deleteClient. unfold_db.
    assert (store_wf (Db.with_clients (delete clientId) s)) as Hdel.
    { destruct Hwf. split; try done.
      cbn [clients Db.with_clients]. intros k' c' Hlook.
      apply lookup_delete_Some in Hlook as [_ Hlook]. eauto. }
    by destruct (negb _).
Qed.

(** ** The client SDK against the server *)

Lemma replace_all_app (c d : ascii) (a b : string) :
  ClientSdk.replace_all c d (a +:+ b)
  = ClientSdk.replace_all c d a +:+ ClientSdk.replace_all c d b.
Proof.
  induction a as [|x a IH]; [reflexivity|].
  change (String x a +:+ b) with (String x (a +:+ b)).
  cbn [ClientSdk.replace_all]. by rewrite IH.
Qed.

Lemma remove_all_app (c : ascii) (a b : string) :
  ClientSdk.remove_all c (a +:+ b)
  = ClientSdk.remove_all c a +:+ ClientSdk.remove_all c b.
Proof.
  induction a as [|x a IH]; [reflexivity|].
  change (String x a +:+ b) with (String x (a +:+ b)).
  cbn [ClientSdk.remove_all]. rewrite IH. by destruct (Ascii.eqb x c).
Qed.

Lemma urlsafe_app (a b : string) : urlsafe (a +:+ b) = urlsafe a +:+ urlsafe b.
Proof. unfold urlsafe. by rewrite !replace_all_app, remove_all_app. Qed.

Lemma urlsafe_btoa_char (i : Z) :
  urlsafe (ClientSdk.btoa_char i) = Sha256.b64url_char i.
Proof.
  unfold ClientSdk.btoa_char, Sha256.b64url_char.
  generalize (Z.to_nat i). intros n.
  do 64 (destruct n as [|n]; [reflexivity|]). reflexivity.
Qed.

Lemma string_app_empty_r (a : string) : a +:+ "" = a.
Proof.
  induction a as [|x a IH]; [reflexivity|].
  change (String x a +:+ "") with (String x (a +:+ "")). by rewrite IH.
Qed.

Lemma base64UrlEncode_base64url (fuel : nat) (bs : list Z) :
  urlsafe (ClientSdk.btoa fuel bs) = Sha256.base64url fuel bs.
Proof.
  revert bs. induction fuel as [|fuel IH]; intros [|b0 [|b1 [|b2 rest]]];
    cbn [ClientSdk.btoa Sha256.base64url];
    rewrite ?urlsafe_app, ?urlsafe_btoa_char, ?IH; try reflexivity.
  all: change (urlsafe "==") with ""; change (urlsafe "=") with "";
    by rewrite string_app_empty_r.
Qed.

(** X27. The SDK, the server and the Convex action compute the same
    challenge: [btoa] followed by the three replacements is the server's
    base64url encoding, so the challenge the SDK derives from a verifier
    is the one the server recomputes, [validatePKCE] accepts the pair
    under S256, and [validatePKCEAction] answers as [validatePKCE] does on
    every input. *)
Theorem sdk_challenge_accepted (plain : string) :
  (forall buffer : list Z,
      ClientSdk.base64UrlEncode buffer
      = Sha256.base64url (List.length buffer) buffer)
  /\ ClientSdk.sha256 plain = Sha256.sha256_base64url plain
  /\ Crypto.validatePKCE plain (ClientSdk.sha256 plain) "S256" = true
  /\ (forall challenge method : string,
        CryptoActions.validatePKCEAction plain challenge method
        = Crypto.validatePKCE plain challenge method).
Proof.
  assert (forall buffer : list Z,
             ClientSdk.base64UrlEncode buffer
             = Sha256.base64url (List.length buffer) buffer) as Hsame.
  { intros buffer. apply base64UrlEncode_base64url. }
  split; [done|].
  assert (ClientSdk.sha256 plain = Sha256.sha256_base64url plain) as Heq.
  { unfold ClientSdk.sha256, Sha256.sha256_base64url. cbn zeta. apply Hsame. }
  split; [done|]. split.
  - rewrite Heq. unfold Crypto.validatePKCE.
    change (String.eqb "S256" "S256") with true. cbn [negb]. apply String.eqb_refl.
  - intros challenge method.
    unfold CryptoActions.validatePKCEAction, Crypto.validatePKCE. cbn zeta.
    destruct (negb (String.eqb method "S256")); [reflexivity|].
    fold (ClientSdk.base64UrlEncode
            (Sha256.digest_bytes (Sha256.bytes_of_string plain))).
    by rewrite Hsame.
Qed.

Lemma charset_at_unreserved (x : Z) :
  exists c, ClientSdk.charset_at (x mod 66) = String c EmptyString /\ unreserved c.
Proof.
  assert (0 <= x mod 66 < 66) as Hrange by (apply Z.mod_pos_bound; lia).
  assert (exists n, (n < 66)%nat /\ x mod 66 = Z.of_nat n) as (n & Hn & ->).
  { exists (Z.to_nat (x mod 66)). lia. }
  unfold ClientSdk.charset_at. rewrite Nat2Z.id.
  do 66 (destruct n as [|n];
         [eexists; split; [reflexivity|]; unfold unreserved;
          first [by left | by right; left | by right; right]|]).
  lia.
Qed.

Lemma random_chars_shape (f : nat -> Z) (l : list nat) :
  let s := List.fold_right String.append ""
             (List.map (fun i => ClientSdk.charset_at (f i mod 66)) l) in
  String.length s = List.length l
  /\ List.Forall unreserved (list_ascii_of_string s).
Proof.
  induction l as [|i l [IHlen IHall]]; cbn zeta in *.
  - split; [reflexivity|constructor].
  - cbn [List.map List.fold_right List.length].
    destruct (charset_at_unreserved (f i)) as (c & -> & Hc).
    change (String c "" +:+ ?t) with (String c t).
    cbn [String.length list_ascii_of_string]. split; [by rewrite IHlen|].
    by constructor.
Qed.

Lemma generateRandomString_length (n : nat) (random : nat -> Z) :
  String.length (ClientSdk.generateRandomString n random) = n.
Proof.
  unfold ClientSdk.generateRandomString.
  change (Z.of_nat (String.length ClientSdk.charset)) with 66.
  destruct (random_chars_shape random (List.seq 0 n)) as [-> _].
  apply List.length_seq.
Qed.

Lemma generateRandomString_nonempty (n : nat) (random : nat -> Z) :
  ClientSdk.generateRandomString (S n) random <> "".
Proof.
  intros Hempty. pose proof (generateRandomString_length (S n) random) as Hlen.
  by rewrite Hempty in Hlen.
Qed.

(** [generateRandomString(n)] returns exactly [n] characters, all of them
    unreserved; so the verifier of [generatePKCE] has 128 characters, the
    longest RFC 7636 allows, and its challenge has 43. *)
Lemma sdk_random_string_shape (n : nat) (random : nat -> Z) :
  String.length (ClientSdk.generateRandomString n random) = n
  /\ List.Forall unreserved
       (list_ascii_of_string (ClientSdk.generateRandomString n random))
  /\ String.length (ClientSdk.generatePKCE random).1 = 128%nat
  /\ String.length (ClientSdk.generatePKCE random).2 = 43%nat.
Proof.
  pose proof generateRandomString_length as Hlen.
  split_and!.
  - apply Hlen.
  - unfold ClientSdk.generateRandomString.
    change (Z.of_nat (String.length ClientSdk.charset)) with 66.
    apply (random_chars_shape random (List.seq 0 n)).
  - unfold ClientSdk.generatePKCE. cbn [fst]. apply Hlen.
  - unfold ClientSdk.generatePKCE, ClientSdk.sha256. cbn [snd].
    unfold ClientSdk.base64UrlEncode. fold (urlsafe (ClientSdk.btoa
      (List.length (Sha256.digest_bytes (Sha256.bytes_of_string
         (ClientSdk.generateRandomString 128 random))))
      (Sha256.digest_bytes (Sha256.bytes_of_string
         (ClientSdk.generateRandomString 128 random))))).
    rewrite base64UrlEncode_base64url.
    destruct (digest_bytes_shape (Sha256.bytes_of_string
                (ClientSdk.generateRandomString 128 random))) as [Hl Hb].
    rewrite base64url_length by (done || lia). by rewrite Hl.
Qed.


(** X29. The callback gives back what [signIn] stored, once: with the
    state of the authorization request it returns the code together with
    the stored verifier and clears both entries; a second callback, or one
    with another state, throws the state mismatch and leaves the storage
    as it is; without a code or a state it returns [null]. *)
Theorem sdk_callback_once (config : ClientSdk.AuthAgentConfig)
    (randomVerifier randomState : nat -> Z) (storage : ClientSdk.Storage)
    (code : string) :
  code <> "" ->
  let sent := ClientSdk.signIn config randomVerifier randomState storage in
  exists state verifier,
    Authorize.state sent.1 = Some state
    /\ verifier = (ClientSdk.generatePKCE randomVerifier).1
    /\ let back := ClientSdk.handleCallback (Some code) (Some state) sent.2 in
       back.1 = ClientSdk.Callback code state verifier
       /\ back.2 !! "auth_agent_state" = None
       /\ back.2 !! "auth_agent_code_verifier" = None
       /\ ClientSdk.handleCallback (Some code) (Some state) back.2
          = (ClientSdk.Throws "State mismatch - possible CSRF attack", back.2)
       /\ (forall other : string,
             other <> "" -> other <> state ->
             ClientSdk.handleCallback (Some code) (Some other) sent.2
             = (ClientSdk.Throws "State mismatch - possible CSRF attack", sent.2))
       /\ (forall st : ClientSdk.Storage,
             ClientSdk.handleCallback None (Some state) st = (ClientSdk.Null, st)
             /\ ClientSdk.handleCallback (Some code) None st = (ClientSdk.Null, st)).
Proof.
  intros Hcode sent.
  set (verifier := ClientSdk.generateRandomString 128 randomVerifier).
  set (state := ClientSdk.generateRandomString 32 randomState).
  assert (state <> "") as Hstate by apply generateRandomString_nonempty.
  assert (verifier <> "") as Hverifier by apply generateRandomString_nonempty.
  assert (sent.2 = <["auth_agent_state" := state]>
                     (<["auth_agent_code_verifier" := verifier]> storage)
          /\ Authorize.state sent.1 = Some state) as [Hstorage Hq].
  { unfold sent, ClientSdk.signIn, ClientSdk.generatePKCE. cbn zeta. done. }
  exists state, verifier. split; [done|]. split; [reflexivity|].
  rewrite Hstorage. cbn zeta.
  set (st := <["auth_agent_state" := state]> _).
  assert (st !! "auth_agent_state" = Some state) as Hst
    by (unfold st; by rewrite lookup_insert_eq).
  assert (st !! "auth_agent_code_verifier" = Some verifier) as Hsv.
  { unfold st. rewrite lookup_insert_ne by done. by rewrite lookup_insert_eq. }
  assert (ClientSdk.handleCallback (Some code) (Some state) st
          = (ClientSdk.Callback code state verifier,
             delete "auth_agent_code_verifier" (delete "auth_agent_state" st)))
    as ->.
  { unfold ClientSdk.handleCallback. rewrite !truthy_val_intro by done.
    cbn zeta. rewrite Hst, Hsv. cbn [Js.opt_eqb]. rewrite String.eqb_refl.
    cbn [negb]. by rewrite truthy_val_intro. }
  cbn [fst snd].
  assert (delete "auth_agent_code_verifier" (delete "auth_agent_state" st)
          !! "auth_agent_state" = None) as Hgone.
  { rewrite lookup_delete_ne by done. by rewrite lookup_delete_eq. }
  split_and!.
  - reflexivity.
  - exact Hgone.
  - by rewrite lookup_delete_eq.
  - unfold ClientSdk.handleCallback. rewrite !truthy_val_intro by done.
    cbn zeta. by rewrite Hgone.
  - intros other Hother Hdiff.
    unfold ClientSdk.handleCallback. rewrite !truthy_val_intro by done.
    cbn zeta. rewrite Hst. cbn [Js.opt_eqb].
    destruct (String.eqb_spec state other) as [?|_]; [by subst|]. reflexivity.
  - intros st0. unfold ClientSdk.handleCallback. cbn [Js.truthy_val].
    split; [reflexivity|]. by destruct (Js.falsy_str code).
Qed.

(** ** The server SDK against the server *)

Lemma substring_all (s : string) : String.substring 0 (String.length s) s = s.
Proof. induction s as [|c s IH]; [reflexivity|]. simpl. by rewrite IH. Qed.

(** [authHeader.startsWith('Bearer ')] and [authHeader.substring(7)]. *)
Lemma bearer_token (authHeader : string) :
  String.prefix "Bearer " authHeader = true ->
  authHeader
  = "Bearer " +:+ String.substring 7 (String.length authHeader - 7) authHeader.
Proof.
  intros Hprefix.
  do 7 (destruct authHeader as [|? authHeader];
        [cbn [String.prefix] in Hprefix; discriminate|];
        cbn [String.prefix] in Hprefix;
        match type of Hprefix with
        | (if ?d then _ else _) = true => destruct d as [<-|]; [|discriminate]
        end).
  cbn [String.length Nat.sub String.substring].
  rewrite Nat.sub_0_r, substring_all. reflexivity.
Qed.

Lemma bearer_prefix (token : string) :
  String.prefix "Bearer " ("Bearer " +:+ token) = true
  /\ String.substring 7 (String.length ("Bearer " +:+ token) - 7) ("Bearer " +:+ token)
     = token.
Proof.
  change ("Bearer " +:+ token)
    with (String "B" (String "e" (String "a" (String "r" (String "e" (String "r"
            (String " " token))))))).
  split.
  - cbn [String.prefix]. repeat (destruct (ascii_dec _ _); [|done]).
    by destruct token.
  - cbn [String.length Nat.sub String.substring].
    rewrite Nat.sub_0_r. apply substring_all.
Qed.

(** X30. The middleware lets a request through exactly with a live
    token of its own client: it calls [next] only for a header
    ["Bearer <token>"] whose token the server, at that instant, reports
    active to the SDK's client (the token verifies, its first record is
    not revoked and belongs to that client, [exp] is not reached), the
    user it attaches is the server's answer, and the server's store is
    not touched; and for every such token it does call [next]. *)
Theorem middleware_passes_live_tokens (L : Lib)
    (config : ServerSdk.AuthAgentServerConfig) (now : Z) (s : InMemoryStore) :
  (forall (authorization : option string) (user : Body) (s' : InMemoryStore),
      ServerSdk.createAuthMiddleware L config now authorization s
      = (ServerSdk.Next user, s') ->
      s' = s
      /\ exists token cl payload record,
           authorization = Some ("Bearer " +:+ token)
           /\ clients s !! ServerSdk.clientId config = Some cl
           /\ bcrypt_compare L (ServerSdk.clientSecret config)
                             (Client.client_secret_hash cl) = true
           /\ jwt_decode L token = Some payload
           /\ JWTPayload.iss payload = CONFIG.JWT_ISSUER
           /\ now / 1000 < JWTPayload.exp payload
           /\ List.find (fun x => String.eqb (Token.access_token x) token) (tokens s)
              = Some record
           /\ Token.revoked record = false
           /\ Token.client_id record = ServerSdk.clientId config
           /\ user = Introspection
                       (ActiveAccess (JWTPayload.scope payload)
                          (JWTPayload.client_id payload) (JWTPayload.exp payload)
                          (JWTPayload.iat payload) (JWTPayload.sub payload)
                          (JWTPayload.iss payload) (JWTPayload.model payload)))
  /\ (forall (token : string) (cl : Client.t) (payload : JWTPayload.t)
             (record : Token.t),
        token <> "" ->
        ServerSdk.clientId config <> "" -> ServerSdk.clientSecret config <> "" ->
        clients s !! ServerSdk.clientId config = Some cl ->
        bcrypt_compare L (ServerSdk.clientSecret config)
                       (Client.client_secret_hash cl) = true ->
        jwt_decode L token = Some payload ->
        JWTPayload.iss payload = CONFIG.JWT_ISSUER ->
        now / 1000 < JWTPayload.exp payload ->
        List.find (fun x => String.eqb (Token.access_token x) token) (tokens s)
        = Some record ->
        Token.revoked record = false ->
        Token.client_id record = ServerSdk.clientId config ->
        ServerSdk.createAuthMiddleware L config now (Some ("Bearer " +:+ token)) s
        = (ServerSdk.Next
             (Introspection
                (ActiveAccess (JWTPayload.scope payload)
                   (JWTPayload.client_id payload) (JWTPayload.exp payload)
                   (JWTPayload.iat payload) (JWTPayload.sub payload)
                   (JWTPayload.iss payload) (JWTPayload.model payload))), s)).
Proof.
  split.
  - intros authorization user s'.
    unfold ServerSdk.createAuthMiddleware.
    destruct (Js.truthy_val authorization) as [authHeader|] eqn:Hheader; [|done].
    apply truthy_val_Some in Hheader as [-> _].
    destruct (String.prefix "Bearer " authHeader) eqn:Hprefix; [|done].
    apply bearer_token in Hprefix.
    set (token := String.substring 7 (String.length authHeader - 7) authHeader) in *.
    clearbody token. subst authHeader. cbn [negb].
    unfold ServerSdk.getUserInfo, ServerSdk.introspectToken,
      Introspect.introspectHandler, Introspect.introspectRefreshToken,
      Introspect.introspectAccessToken, Jwt.verifyAccessToken, ServerSdk.ok,
      ServerSdk.active.
    unfold_db. intros Hrun.
    repeat (case_match; simplify_eq/=; try done).
    repeat match goal with
           | H : Js.truthy_val _ = Some _ |- _ => apply truthy_val_Some in H as [[= <-] _]
           | H : negb _ = false |- _ => apply negb_false_iff in H
           | H : negb _ = true |- _ => apply negb_true_iff in H
           | H : _ && _ = true |- _ => apply andb_true_iff in H as [? ?]
           | H : String.eqb _ _ = true |- _ => apply String.eqb_eq in H
           | H : (_ <=? _) = false |- _ => apply Z.leb_gt in H
           end.
    split; [done|].
    eexists _, _, _, _. split_and!; eauto.
  - intros token cl payload record Htoken Hid Hsecret Hcl Hverifies Hdecode Hiss
      Hexp Hfind Hlive Hbound.
    unfold ServerSdk.createAuthMiddleware.
    rewrite truthy_val_intro by (by apply generated_nonempty).
    destruct (bearer_prefix token) as [-> ->]. cbn [negb].
    unfold ServerSdk.getUserInfo, ServerSdk.introspectToken. unfold bind at 1 2 3.
    rewrite (introspect_authenticated L now token _ _ (Some "access_token") s cl
               Htoken Hid Hsecret Hcl Hverifies).
    cbn [Js.opt_eqb]. change (String.eqb "access_token" "refresh_token") with false.
    cbn iota.
    unfold Introspect.introspectAccessToken, Jwt.verifyAccessToken. unfold_db.
    rewrite Hdecode, Hiss, String.eqb_refl.
    destruct (Z.leb_spec (JWTPayload.exp payload) (now / 1000)) as [?|_]; [lia|].
    cbn [andb negb]. rewrite Hfind, Hlive, Hbound, String.eqb_refl. cbn [negb].
    destruct (Z.ltb_spec (JWTPayload.exp payload) (now / 1000)) as [?|_]; [lia|].
    unfold ServerSdk.ok, ServerSdk.active. cbn [json200 http_status body].
    change ((200 <=? 200) && (200 <=? 299)) with true. cbn [negb].
    by rewrite Hiss.
Qed.

(** ** The properties on concrete inputs *)

Lemma sim_store0_wf : store_wf Sim.store0.
Proof.
  split.
  - constructor.
  - intros k r Hk. vm_compute in Hk. discriminate.
  - intros k e Hk. vm_compute in Hk. discriminate.
  - intros k c Hk.
    change (clients Sim.store0) with (<["client_shop" := Sim.client]> (∅ : gmap string Client.t)) in Hk.
    apply lookup_insert_Some in Hk as [[<- <-]|[_ Hk]]; [reflexivity|].
    by rewrite lookup_empty in Hk.
  - intros k a Hk.
    change (agents Sim.store0) with (<["agent_ada" := Sim.agent]> (∅ : gmap string Agent.t)) in Hk.
    apply lookup_insert_Some in Hk as [[<- <-]|[_ Hk]]; [reflexivity|].
    by rewrite lookup_empty in Hk.
Qed.

Lemma sim_exchanged_wf : store_wf Sim.s_exchanged.
Proof.
  unfold Sim.s_exchanged, Sim.s_delivered, Sim.s_authenticated, Sim.s_pending.
  cbn [run]. repeat apply step_store_wf. apply sim_store0_wf.
Qed.

Lemma sim_two_clients :
  clients Scenario.s_two !! "client_blog" = Some Scenario.blog
  /\ clients Scenario.s_two !! "client_shop" = Some Sim.client
  /\ tokens Scenario.s_two = [Sim.token1]
  /\ refreshTokens Scenario.s_two !! "rt_f1" = Some Sim.entry1.
Proof. split_and!; vm_compute; reflexivity. Qed.

Lemma introspect_active_access_sound_witness :
  let out := Introspect.introspectHandler Sim.lib 6000 (Some Scenario.access1) None
               (Some "client_shop") (Some "shop-secret") Sim.s_exchanged in
  body out.1 = Introspection (ActiveAccess "openid profile" "client_shop" 3605 5
                                           "agent_ada" "auth-agent.com" "model-x")
  /\ out.2 = Sim.s_exchanged
  /\ http_status out.1 = 200.
Proof.
  cbn zeta.
  assert (body (Introspect.introspectHandler Sim.lib 6000 (Some Scenario.access1) None
                  (Some "client_shop") (Some "shop-secret") Sim.s_exchanged).1
          = Introspection (ActiveAccess "openid profile" "client_shop" 3605 5
                                        "agent_ada" "auth-agent.com" "model-x"))
    as Hbody by (vm_compute; reflexivity).
  split; [exact Hbody|].
  destruct (introspect_active_access_sound Sim.lib 6000 _ _ _ _ _ _ _ _ _ _ _ _ _ _
              (surjective_pairing _) Hbody) as (Hstore & Hstatus & _).
  split; [exact Hstore|exact Hstatus].
Defined.

Lemma introspect_active_refresh_sound_witness :
  let out := Introspect.introspectHandler Sim.lib 6000 (Some "rt_f1")
               (Some "refresh_token") (Some "client_shop") (Some "shop-secret")
               Sim.s_exchanged in
  body out.1 = Introspection (ActiveRefresh "client_shop" "agent_ada" 2592005
                                            (Some "model-x") (Some "openid profile"))
  /\ out.2 = Sim.s_exchanged.
Proof.
  cbn zeta.
  assert (body (Introspect.introspectHandler Sim.lib 6000 (Some "rt_f1")
                  (Some "refresh_token") (Some "client_shop") (Some "shop-secret")
                  Sim.s_exchanged).1
          = Introspection (ActiveRefresh "client_shop" "agent_ada" 2592005
                                         (Some "model-x") (Some "openid profile")))
    as Hbody by (vm_compute; reflexivity).
  split; [exact Hbody|].
  exact (proj1 (introspect_active_refresh_sound Sim.lib 6000 _ _ _ _ _ _ _ _ _ _ _ _
                  (surjective_pairing _) Hbody)).
Defined.

Lemma refresh_token_client_binding_witness :
  (exists description,
      TokenEndpoint.handleRefreshTokenGrant Sim.lib 9000 "t2" (Some "rt_f1")
        (Some "client_blog") (Some "blog-secret") Scenario.s_two
      = ({| http_status := 400; body := OAuthError "invalid_grant" description |},
         Scenario.s_two))
  /\ Introspect.introspectHandler Sim.lib 9000 (Some "rt_f1") (Some "refresh_token")
       (Some "client_blog") (Some "blog-secret") Scenario.s_two
     = ({| http_status := 200; body := Introspection Inactive |}, Scenario.s_two)
  /\ Revoke.revokeHandler Sim.lib (Some "rt_f1") (Some "refresh_token")
       (Some "client_blog") (Some "blog-secret") Scenario.s_two
     = ({| http_status := 200; body := EmptyObject |}, Scenario.s_two).
Proof.
  apply (refresh_token_client_binding Sim.lib 9000 "t2" "rt_f1" "client_blog"
           "blog-secret" Scenario.s_two Scenario.blog Sim.entry1).
  - discriminate.
  - discriminate.
  - discriminate.
  - apply sim_two_clients.
  - reflexivity.
  - apply sim_two_clients.
  - discriminate.
Defined.

Lemma access_token_client_binding_witness :
  Introspect.introspectHandler Sim.lib 6000 (Some Scenario.access1) None
    (Some "client_blog") (Some "blog-secret") Scenario.s_two
  = ({| http_status := 200; body := Introspection Inactive |}, Scenario.s_two)
  /\ Revoke.revokeHandler Sim.lib (Some Scenario.access1) None (Some "client_blog")
       (Some "blog-secret") Scenario.s_two
     = ({| http_status := 200; body := EmptyObject |}, Scenario.s_two).
Proof.
  destruct (access_token_client_binding Sim.lib 6000 Scenario.access1 "client_blog"
              "blog-secret" Scenario.s_two Scenario.blog Sim.token1)
    as [Hintrospect Hrevoke].
  - discriminate.
  - discriminate.
  - discriminate.
  - apply sim_two_clients.
  - reflexivity.
  - destruct sim_two_clients as (_ & _ & -> & _). reflexivity.
  - discriminate.
  - split; [exact Hintrospect|]. apply Hrevoke. vm_compute. reflexivity.
Defined.

Lemma run_preserves_store_wf_witness :
  store_wf (run Sim.lib [(1000, Sim.authorize); (2000, Sim.authenticate);
                         (3000, Sim.poll); (5000, Sim.exchange Sim.verifier);
                         (700000, Sweep)] Sim.store0).
Proof. apply run_preserves_store_wf, sim_store0_wf. Defined.

Lemma revoke_only_sets_flags_witness :
  let s' := (Revoke.revokeHandler Sim.lib (Some "rt_f1") (Some "refresh_token")
               (Some "client_shop") (Some "shop-secret") Sim.s_exchanged).2 in
  agents s' = agents Sim.s_exchanged
  /\ clients s' = clients Sim.s_exchanged
  /\ authRequests s' = authRequests Sim.s_exchanged
  /\ authorizationCodes s' = authorizationCodes Sim.s_exchanged
  /\ List.Forall2 (fun t t' => t' = t \/ t' = Token.revoke t)
                  (tokens Sim.s_exchanged) (tokens s').
Proof.
  destruct (revoke_only_sets_flags Sim.lib (Some "rt_f1") (Some "refresh_token")
              (Some "client_shop") (Some "shop-secret") Sim.s_exchanged
              sim_exchanged_wf) as (Ha & Hc & Hr & Hcodes & Ht & _).
  by split_and!.
Defined.

Lemma access_revocation_cascades_witness :
  let after := Revoke.revokeHandler Sim.lib (Some Scenario.access1) None
                 (Some "client_shop") (Some "shop-secret") Sim.s_exchanged in
  after.1 = {| http_status := 200; body := EmptyObject |}
  /\ Introspect.introspectHandler Sim.lib 6000 (Some Scenario.access1) None
       (Some "client_shop") (Some "shop-secret") after.2
     = ({| http_status := 200; body := Introspection Inactive |}, after.2)
  /\ refreshTokens after.2 !! "rt_f1" = Some (RefreshTokenEntry.revoke Sim.entry1)
  /\ TokenEndpoint.handleRefreshTokenGrant Sim.lib 9000 "t2" (Some "rt_f1")
       (Some "client_shop") (Some "shop-secret") after.2
     = ({| http_status := 400;
           body := OAuthError "invalid_grant" "Refresh token has been revoked" |},
        after.2).
Proof.
  destruct (access_revocation_cascades Sim.lib Scenario.access1 "client_shop"
              "shop-secret" None Sim.s_exchanged Sim.client Sim.token1)
    as (Hanswer & Haccess & Hrefresh).
  - discriminate.
  - discriminate.
  - discriminate.
  - apply sim_client. tauto.
  - reflexivity.
  - reflexivity.
  - rewrite sim_exchanged_tokens. reflexivity.
  - reflexivity.
  - destruct (Hrefresh "rt_f1" Sim.entry1) as (Hentry & Hgrant & _).
    + reflexivity.
    + apply sim_exchanged_refresh.
    + split_and!; [exact Hanswer|apply Haccess|exact Hentry|apply Hgrant].
Defined.

Lemma authorization_code_grant_sound_witness :
  let out := TokenEndpoint.handleAuthorizationCodeGrant Sim.lib 5000 "t1" "f1"
               (Some "code_c1") (Some Sim.verifier) (Some "client_shop")
               (Some "shop-secret") Sim.s_delivered in
  http_status out.1 = 200
  /\ exists c verifier cid secret cl rid ar agent_id model,
       Some "code_c1" = Some c /\ Some Sim.verifier = Some verifier
       /\ Some "client_shop" = Some cid /\ Some "shop-secret" = Some secret
       /\ clients Sim.s_delivered !! cid = Some cl
       /\ bcrypt_compare Sim.lib secret (Client.client_secret_hash cl) = true
       /\ authorizationCodes Sim.s_delivered !! c = Some rid
       /\ authRequests Sim.s_delivered !! rid = Some ar
       /\ AuthRequest.code ar = Some c
       /\ AuthRequest.client_id ar = cid
       /\ AuthRequest.code_challenge_method ar = "S256"
       /\ Sha256.sha256_base64url verifier = AuthRequest.code_challenge ar
       /\ ~ AuthRequest.expires_at ar < 5000
       /\ AuthRequest.agent_id ar = Some agent_id
       /\ AuthRequest.model ar = Some model
       /\ body out.1
          = TokenResponse
              (Jwt.generateAccessToken Sim.lib 5000 agent_id cid model
                                       (AuthRequest.scope ar))
              "Bearer" 3600 (Crypto.generateRefreshToken "f1")
              (AuthRequest.scope ar).
Proof.
  cbn zeta.
  assert (http_status
            (TokenEndpoint.handleAuthorizationCodeGrant Sim.lib 5000 "t1" "f1"
               (Some "code_c1") (Some Sim.verifier) (Some "client_shop")
               (Some "shop-secret") Sim.s_delivered).1 = 200)
    as Hok by (vm_compute; reflexivity).
  split; [exact Hok|].
  exact (authorization_code_grant_sound Sim.lib 5000 "t1" "f1" _ _ _ _ _ _ _
           (surjective_pairing _) Hok).
Defined.

Lemma refresh_grant_sound_witness :
  let out := TokenEndpoint.handleRefreshTokenGrant Sim.lib 9000 "t2" (Some "rt_f1")
               (Some "client_shop") (Some "shop-secret") Sim.s_exchanged in
  http_status out.1 = 200
  /\ refreshTokens out.2 = refreshTokens Sim.s_exchanged
  /\ List.length (tokens out.2) = 2%nat.
Proof.
  cbn zeta.
  assert (http_status
            (TokenEndpoint.handleRefreshTokenGrant Sim.lib 9000 "t2" (Some "rt_f1")
               (Some "client_shop") (Some "shop-secret") Sim.s_exchanged).1 = 200)
    as Hok by (vm_compute; reflexivity).
  split; [exact Hok|].
  destruct (refresh_grant_sound Sim.lib 9000 "t2" _ _ _ _ _ _
              (surjective_pairing _) Hok)
    as (rt & cid & secret & cl & entry & original & _ & _ & _ & _ & _ & _ & _ & _
        & _ & _ & _ & Hrefresh & _ & _ & _ & _).
  split; [exact Hrefresh|]. vm_compute. reflexivity.
Defined.

Lemma token_request_refused_witness :
  let b := TokenEndpoint.mkBody (Some "authorization_code") (Some "code_c1")
             (Some "not-the-verifier") (Some "client_shop") (Some "shop-secret") None in
  let out := TokenEndpoint.tokenHandler Sim.lib 5000 "t1" "f1" b Sim.s_delivered in
  http_status out.1 = 400
  /\ tokens out.2 = tokens Sim.s_delivered
  /\ refreshTokens out.2 = refreshTokens Sim.s_delivered
  /\ clients out.2 = clients Sim.s_delivered
  /\ agents out.2 = agents Sim.s_delivered.
Proof.
  cbn zeta.
  assert (http_status
            (TokenEndpoint.tokenHandler Sim.lib 5000 "t1" "f1"
               (TokenEndpoint.mkBody (Some "authorization_code") (Some "code_c1")
                  (Some "not-the-verifier") (Some "client_shop") (Some "shop-secret")
                  None) Sim.s_delivered).1 = 400)
    as Hstatus by (vm_compute; reflexivity).
  split; [exact Hstatus|].
  destruct (token_request_refused Sim.lib 5000 "t1" "f1" _ _ _ _
              (surjective_pairing
                 (TokenEndpoint.tokenHandler Sim.lib 5000 "t1" "f1"
                    (TokenEndpoint.mkBody (Some "authorization_code")
                       (Some "code_c1") (Some "not-the-verifier")
                       (Some "client_shop") (Some "shop-secret") None)
                    Sim.s_delivered)))
    as (Ht & Hr & Hc & Ha & _).
  - rewrite Hstatus. discriminate.
  - by split_and!.
Defined.

Lemma expired_code_exchange_witness :
  let after := TokenEndpoint.handleAuthorizationCodeGrant Sim.lib 700000 "t1" "f1"
                 (Some "code_c1") (Some Sim.verifier) (Some "client_shop")
                 (Some "shop-secret") Sim.s_delivered in
  after.1 = {| http_status := 400;
               body := OAuthError "invalid_grant" "Authorization code expired" |}
  /\ authorizationCodes after.2 !! "code_c1" = None
  /\ authRequests after.2 !! "req_r1" = None
  /\ TokenEndpoint.handleAuthorizationCodeGrant Sim.lib 700001 "t3" "f3"
       (Some "code_c1") (Some Sim.verifier) (Some "client_shop")
       (Some "shop-secret") after.2
     = ({| http_status := 400;
           body := OAuthError "invalid_grant"
                              "Invalid or expired authorization code" |}, after.2).
Proof.
  destruct (expired_code_exchange Sim.lib 700000 "t1" "f1" "code_c1" Sim.verifier
              "client_shop" "shop-secret" Sim.s_delivered Sim.client "req_r1"
              Sim.request_completed)
    as (Hanswer & Hcode & Hrequest & _ & _ & Hagain).
  - discriminate.
  - discriminate.
  - discriminate.
  - discriminate.
  - apply sim_client. tauto.
  - reflexivity.
  - rewrite sim_delivered_code. reflexivity.
  - apply sim_delivered.
  - reflexivity.
  - reflexivity.
  - vm_compute. reflexivity.
  - vm_compute. reflexivity.
  - split_and!; [exact Hanswer|exact Hcode|exact Hrequest|].
    apply Hagain. discriminate.
Defined.

Lemma swept_request_code_refused_witness :
  let swept := (step Sim.lib 700000 Sweep Sim.s_delivered).2 in
  authRequests swept !! "req_r1" = None
  /\ authorizationCodes swept !! "code_c1" = Some "req_r1"
  /\ TokenEndpoint.handleAuthorizationCodeGrant Sim.lib 700001 "t1" "f1"
       (Some "code_c1") (Some Sim.verifier) (Some "client_shop")
       (Some "shop-secret") swept
     = ({| http_status := 400;
           body := OAuthError "invalid_grant" "Invalid authorization code" |}, swept).
Proof.
  destruct (swept_request_code_refused Sim.lib 700000 700001 "t1" "f1" "code_c1"
              Sim.verifier "client_shop" "shop-secret" Sim.s_delivered Sim.client
              "req_r1" Sim.request_completed)
    as (Hrequest & Hcode & Hanswer).
  - discriminate.
  - discriminate.
  - discriminate.
  - discriminate.
  - apply sim_client. tauto.
  - reflexivity.
  - rewrite sim_delivered_code. reflexivity.
  - apply sim_delivered.
  - vm_compute. reflexivity.
  - split_and!; [exact Hrequest| |exact Hanswer].
    rewrite Hcode. apply sim_delivered_code.
Defined.

Lemma authorization_code_flow_witness :
  responses Sim.lib
    [ (1000, Http (GET_authorize "r1"
                     (Authorize.mkQuery (Some "client_shop")
                        (Some "https://shop.example/callback") (Some "xyz")
                        (Some (Sha256.sha256_base64url Sim.verifier)) (Some "S256")
                        None (Some "code"))));
      (2000, Http (POST_agent_authenticate "c1"
                     (Some (Crypto.generateRequestId "r1"))
                     (Some "agent_ada") (Some "ada-secret") (Some "model-x")));
      (3000, Http (GET_check_status (Some (Crypto.generateRequestId "r1"))));
      (5000, Http (POST_token "t1" "f1"
                     (TokenEndpoint.mkBody (Some "authorization_code")
                        (Some (Crypto.generateAuthCode "c1")) (Some Sim.verifier)
                        (Some "client_shop") (Some "shop-secret") None))) ]
    Sim.store0
  = [ Some (html (spinningPage (Crypto.generateRequestId "r1") "Shop"));
      Some (json200 (AgentSuccess "Agent authenticated successfully"));
      Some (json200 (StatusAuthenticated (Crypto.generateAuthCode "c1") "xyz"
                                         "https://shop.example/callback"));
      Some (json200 (TokenResponse
                       (Jwt.generateAccessToken Sim.lib 5000 "agent_ada"
                          "client_shop" "model-x" "openid profile")
                       "Bearer" 3600 (Crypto.generateRefreshToken "f1")
                       "openid profile")) ].
Proof.
  apply (authorization_code_flow Sim.lib 1000 2000 3000 5000 "r1" "c1" "t1" "f1"
           "client_shop" "shop-secret" "https://shop.example/callback" "xyz"
           Sim.verifier "agent_ada" "ada-secret" "model-x" None Sim.store0
           Sim.client Sim.agent).
  - discriminate.
  - discriminate.
  - discriminate.
  - discriminate.
  - discriminate.
  - discriminate.
  - discriminate.
  - discriminate.
  - reflexivity.
  - reflexivity.
  - reflexivity.
  - left. reflexivity.
  - reflexivity.
  - reflexivity.
  - reflexivity.
  - vm_compute. discriminate.
  - vm_compute. discriminate.
Defined.

Lemma agent_authentication_sound_witness :
  let begun := AgentAuth.beforeVerifySecret 2000 (Some "req_r1") (Some "agent_ada")
                 (Some "ada-secret") (Some "model-x") Sim.s_pending in
  let ended := AgentAuth.resume Sim.lib "c1" begun.1 Sim.s_delivered in
  http_status ended.1 = 200
  /\ begun.2 = Sim.s_pending
  /\ AuthRequest.status <$> authRequests Sim.s_delivered !! "req_r1"
     = Some AuthRequest.completed
  /\ ended.2 = Db.with_authorizationCodes (insert "code_c1" "req_r1")
                 (patched "req_r1" (authenticatedPatch "agent_ada" "model-x" "code_c1")
                          Sim.s_delivered).
Proof.
  cbn zeta.
  assert (http_status
            (AgentAuth.resume Sim.lib "c1"
               (AgentAuth.beforeVerifySecret 2000 (Some "req_r1") (Some "agent_ada")
                  (Some "ada-secret") (Some "model-x") Sim.s_pending).1
               Sim.s_delivered).1 = 200) as Hok by (vm_compute; reflexivity).
  split; [exact Hok|].
  destruct (agent_authentication_sound Sim.lib 2000 "c1" (Some "req_r1")
              (Some "agent_ada") (Some "ada-secret") (Some "model-x")
              Sim.s_pending _ Sim.s_delivered _ _ _
              (surjective_pairing _) (surjective_pairing _) Hok)
    as (rid & aid & asec & m & ar & ag & [= <-] & [= <-] & _ & [= <-] & _ & Hsame
        & _ & _ & _ & _ & _ & _ & Hstore).
  split; [exact Hsame|]. split; [vm_compute; reflexivity|exact Hstore].
Defined.

Lemma agent_authentication_refused_witness :
  let begun := AgentAuth.beforeVerifySecret 2000 (Some "req_r1") (Some "agent_ada")
                 (Some "not-the-secret") (Some "model-x") Sim.s_pending in
  let ended := AgentAuth.resume Sim.lib "c1" begun.1 Sim.s_delivered in
  http_status ended.1 = 401
  /\ authorizationCodes ended.2 = authorizationCodes Sim.s_delivered
  /\ tokens ended.2 = tokens Sim.s_delivered
  /\ AuthRequest.status <$> authRequests ended.2 !! "req_r1" = Some AuthRequest.error.
Proof.
  cbn zeta.
  assert (http_status
            (AgentAuth.resume Sim.lib "c1"
               (AgentAuth.beforeVerifySecret 2000 (Some "req_r1") (Some "agent_ada")
                  (Some "not-the-secret") (Some "model-x") Sim.s_pending).1
               Sim.s_delivered).1 = 401) as Hstatus by (vm_compute; reflexivity).
  split; [exact Hstatus|].
  destruct (agent_authentication_refused Sim.lib 2000 "c1" (Some "req_r1")
              (Some "agent_ada") (Some "not-the-secret") (Some "model-x")
              Sim.s_pending _ Sim.s_delivered _ _ _
              (surjective_pairing
                 (AgentAuth.beforeVerifySecret 2000 (Some "req_r1") (Some "agent_ada")
                    (Some "not-the-secret") (Some "model-x") Sim.s_pending))
              (surjective_pairing
                 (AgentAuth.resume Sim.lib "c1"
                    (AgentAuth.beforeVerifySecret 2000 (Some "req_r1")
                       (Some "agent_ada") (Some "not-the-secret") (Some "model-x")
                       Sim.s_pending).1 Sim.s_delivered)))
    as (_ & (Hcodes & Htokens & _) & _).
  - rewrite Hstatus. discriminate.
  - split; [exact Hcodes|]. split; [exact Htokens|]. vm_compute. reflexivity.
Defined.

Lemma failed_authentication_marks_error_witness :
  let failed := AgentAuth.afterVerifySecret "c1" "req_r1" "agent_ada" "model-x" false
                  Sim.s_pending in
  failed.1 = json (AgentFailure "invalid_client" "Invalid agent credentials") 401
  /\ AgentAuth.beforeVerifySecret 2500 (Some "req_r1") (Some "agent_ada")
       (Some "ada-secret") (Some "model-x") failed.2
     = (AgentAuth.Answered
          (json (AgentFailure "invalid_request" "Auth request is already error") 400),
        failed.2)
  /\ CheckStatus.checkStatusHandler 3000 (Some "req_r1") failed.2
     = (json200 (StatusError "Invalid agent credentials"), failed.2)
  /\ CheckStatus.checkStatusHandler 900000 (Some "req_r1")
       (Db.cleanupExpired 700000 failed.2).2
     = (json (OAuthError "not_found" "Auth request not found") 404,
        (Db.cleanupExpired 700000 failed.2).2).
Proof.
  destruct (failed_authentication_marks_error "c1" "req_r1" "agent_ada" "model-x"
              Sim.s_pending Sim.request_pending)
    as (Hanswer & _ & Hmarked & Hafter).
  - discriminate.
  - apply sim_pending.
  - destruct (Hafter _ Hmarked) as (Hretry & Hpoll & _ & Hswept & _).
    split; [exact Hanswer|]. split.
    + apply Hretry.
      * discriminate.
      * discriminate.
      * discriminate.
      * vm_compute. discriminate.
    + split; [apply Hpoll|].
      apply (Hswept 700000 900000). vm_compute. reflexivity.
Defined.

Lemma issued_token_introspects_active_witness :
  let issued := TokenEndpoint.handleAuthorizationCodeGrant Sim.lib 5000 "t1" "f1"
                  (Some "code_c1") (Some Sim.verifier) (Some "client_shop")
                  (Some "shop-secret") Sim.s_delivered in
  issued.1 = json200 (TokenResponse Scenario.access1 "Bearer" 3600 "rt_f1"
                                    "openid profile")
  /\ Introspect.introspectHandler Sim.lib 3604999 (Some Scenario.access1) None
       (Some "client_shop") (Some "shop-secret") issued.2
     = (json200 (Introspection
                   (ActiveAccess "openid profile" "client_shop" 3605 5 "agent_ada"
                                 "auth-agent.com" "model-x")), issued.2)
  /\ Introspect.introspectHandler Sim.lib 3605000 (Some Scenario.access1) None
       (Some "client_shop") (Some "shop-secret") issued.2
     = (json200 (Introspection Inactive), issued.2).
Proof.
  destruct (issued_token_introspects_active Sim.lib 5000 "t1" "f1" "code_c1"
              Sim.verifier "client_shop" "shop-secret" Sim.s_delivered Sim.client
              "req_r1" Sim.request_completed "agent_ada" "model-x")
    as (Hissued & Hlater).
  - discriminate.
  - discriminate.
  - discriminate.
  - discriminate.
  - apply sim_client. tauto.
  - reflexivity.
  - rewrite sim_delivered_code. reflexivity.
  - apply sim_delivered.
  - reflexivity.
  - reflexivity.
  - vm_compute. reflexivity.
  - vm_compute. discriminate.
  - reflexivity.
  - reflexivity.
  - vm_compute. discriminate.
  - vm_compute. reflexivity.
  - assert (tokens Sim.s_delivered = []) as -> by (vm_compute; reflexivity).
    constructor.
  - assert (tokens Sim.s_delivered = []) as -> by (vm_compute; reflexivity).
    constructor.
  - split_and!.
    + exact Hissued.
    + apply (Hlater 3604999). vm_compute. reflexivity.
    + apply (Hlater 3605000). vm_compute. discriminate.
Defined.

Lemma registered_client_usable_witness :
  let out := Admin.createClientHandler Sim.lib Sim.hashSecret 0 "n4n01d" "s3cr3t"
               (Some "Wiki") (Admin.UriArray ["https://wiki.example/callback"])
               None Sim.store0 in
  Admin.http_status out.1 = 201
  /\ (Authorize.authorizeHandler Sim.lib 1000 "r9"
        (Authorize.mkQuery (Some "client_n4n01d")
           (Some "https://wiki.example/callback") (Some "xyz")
           (Some Sim.challenge) (Some "S256") None (Some "code")) out.2).1
     = html (spinningPage "req_r9" "Wiki")
  /\ http_status (Introspect.introspectHandler Sim.lib 1000 (Some "anything") None
                    (Some "client_n4n01d") (Some "s3cr3t") out.2).1 = 200.
Proof.
  cbn zeta.
  assert (Admin.http_status
            (Admin.createClientHandler Sim.lib Sim.hashSecret 0 "n4n01d" "s3cr3t"
               (Some "Wiki") (Admin.UriArray ["https://wiki.example/callback"])
               None Sim.store0).1 = 201)
    as Hcreated by (vm_compute; reflexivity).
  split; [exact Hcreated|].
  destruct (registered_client_usable Sim.lib Sim.hashSecret 0 "n4n01d" "s3cr3t"
              _ _ _ _ _ _ (surjective_pairing _) Hcreated)
    as (cid & name & uris & grants & Hbody & Hauthorize & Hsecret).
  injection Hbody as <- <- <- <-.
  split.
  - apply (Hauthorize 1000 "r9" "https://wiki.example/callback" "xyz" Sim.challenge
             None).
    + left. reflexivity.
    + discriminate.
    + discriminate.
    + discriminate.
  - apply Hsecret.
    + discriminate.
    + reflexivity.
    + discriminate.
Defined.

Lemma update_can_empty_redirect_uris_witness :
  let updated := Admin.updateClientHandler Sim.lib "client_shop" None
                   (Admin.UriArray []) Sim.store0 in
  Admin.http_status updated.1 = 200
  /\ (exists cl', clients updated.2 !! "client_shop" = Some cl'
                  /\ Client.allowed_redirect_uris cl' = [])
  /\ exists error description,
       Authorize.authorizeHandler Sim.lib 1000 "r1"
         (Authorize.mkQuery (Some "client_shop")
            (Some "https://shop.example/callback") (Some "xyz")
            (Some Sim.challenge) (Some "S256") None (Some "code")) updated.2
       = (html (errorPage error description), updated.2).
Proof.
  destruct (update_can_empty_redirect_uris Sim.lib Sim.hashSecret "client_shop" None
              Sim.store0 Sim.client)
    as (Hstatus & Hempty & Hauthorize & _).
  - vm_compute. reflexivity.
  - split_and!; [exact Hstatus|exact Hempty|].
    apply Hauthorize. reflexivity.
Defined.



Lemma sdk_callback_once_witness :
  let sent := ClientSdk.signIn Scenario.shopSdk Scenario.random Scenario.random ∅ in
  exists state,
    Authorize.state sent.1 = Some state
    /\ (ClientSdk.handleCallback (Some "code_c1") (Some state) sent.2).2
       !! "auth_agent_code_verifier" = None.
Proof.
  destruct (sdk_callback_once Scenario.shopSdk Scenario.random Scenario.random ∅
              "code_c1")
    as (state & verifier & Hstate & _ & _ & _ & Hcleared & _).
  - discriminate.
  - by exists state.
Defined.
